(** * LookingGlass client (client/main.c): frame decode, format negotiation,
      render loop and input forwarding.

    The development embeds the functions of [main.c] as Rocq functions.
    Memory that the C code reaches through raw pointers is a list of
    bytes addressed by an offset from the pointer the function received;
    an access outside the list is an explicit fault.  Calls into SDL,
    OpenGL, ivshmem and spice are recorded in a trace, and what those
    libraries return is supplied by the caller of the model. *)

From Stdlib Require Import String ZArith List Bool Lia.
From Stdlib Require Import Strings.Byte.
Import ListNotations.
Local Open Scope Z_scope.

(** ** Machine integers *)

Definition wrap32 (z : Z) : Z := z mod 2 ^ 32.
Definition wrap64 (z : Z) : Z := z mod 2 ^ 64.

(** [int] arithmetic (two's complement, as gcc on x86-64 computes it). *)
Definition wrap_int (z : Z) : Z := (z + 2 ^ 31) mod 2 ^ 32 - 2 ^ 31.

(** Conversion of an [int] or [unsigned int] value to [size_t]. *)
Definition size_t_of_int (z : Z) : Z := if z <? 0 then 2 ^ 64 + z else z.

(** ** Byte buffers *)

Module Mem.

Definition buffer := list byte.

Inductive fault : Type :=
| ReadOutOfBounds (off : Z)
| WriteOutOfBounds (off : Z)
| NullCall.

Inductive res (A : Type) : Type :=
| Ok (a : A)
| Fault (f : fault).
Arguments Ok {A} a.
Arguments Fault {A} f.

Definition size (b : buffer) : Z := Z.of_nat (length b).

Definition unsigned (b : byte) : Z := Z.of_N (Byte.to_N b).

Definition is_zero (b : byte) : bool := Byte.eqb b x00.

(** [p[o]] *)
Definition load (b : buffer) (o : Z) : option byte :=
  if o <? 0 then None else nth_error b (Z.to_nat o).

(** the [n] bytes at [p + o] *)
Definition slice (b : buffer) (o n : Z) : option buffer :=
  if (0 <=? o) && (0 <=? n) && (o + n <=? size b)
  then Some (firstn (Z.to_nat n) (skipn (Z.to_nat o) b))
  else None.

(** overwrite the bytes at [p + o] with [data] *)
Definition blit (b : buffer) (o : Z) (data : buffer) : option buffer :=
  if (0 <=? o) && (o + size data <=? size b)
  then Some (firstn (Z.to_nat o) b ++ data
               ++ skipn (Z.to_nat (o + size data)) b)
  else None.

(** [memcpy(dst + d, src + s, n)] *)
Definition memcpy (dst : buffer) (d : Z) (src : buffer) (s n : Z)
  : res buffer :=
  match slice src s n with
  | None => Fault (ReadOutOfBounds s)
  | Some data =>
      match blit dst d data with
      | None => Fault (WriteOutOfBounds d)
      | Some dst' => Ok dst'
      end
  end.

(** [memset(dst, 0, n)] *)
Definition memset0 (dst : buffer) (n : Z) : res buffer :=
  match blit dst 0 (repeat x00 (Z.to_nat n)) with
  | None => Fault (WriteOutOfBounds 0)
  | Some dst' => Ok dst'
  end.

(** little-endian value of a byte string (x86 host) *)
Fixpoint le_combine (l : buffer) : Z :=
  match l with
  | [] => 0
  | b :: t => unsigned b + 256 * le_combine t
  end.

End Mem.
Import Mem.

(** ** KVMGFXHeader.h

    The header file is not part of the sources.  The enumerators that
    [main.c] names are constructors; any other value found in the shared
    memory is kept with its raw number.  The numeric fields of the header
    are taken to be 32 bits wide. *)

Inductive FrameType : Type :=
| FRAME_TYPE_INVALID
| FRAME_TYPE_ARGB
| FRAME_TYPE_RGB
| FRAME_TYPE_XOR
| FRAME_TYPE_YUV444P
| FRAME_TYPE_YUV420P
| FRAME_TYPE_ARGB10
| FRAME_TYPE_unknown (raw : Z).   (* none of the above *)

Inductive FrameComp : Type :=
| FRAME_COMP_NONE
| FRAME_COMP_BLACK_RLE
| FRAME_COMP_unknown (raw : Z).   (* none of the above *)

Definition FrameType_eqb (a b : FrameType) : bool :=
  match a, b with
  | FRAME_TYPE_INVALID, FRAME_TYPE_INVALID
  | FRAME_TYPE_ARGB, FRAME_TYPE_ARGB
  | FRAME_TYPE_RGB, FRAME_TYPE_RGB
  | FRAME_TYPE_XOR, FRAME_TYPE_XOR
  | FRAME_TYPE_YUV444P, FRAME_TYPE_YUV444P
  | FRAME_TYPE_YUV420P, FRAME_TYPE_YUV420P
  | FRAME_TYPE_ARGB10, FRAME_TYPE_ARGB10 => true
  | FRAME_TYPE_unknown x, FRAME_TYPE_unknown y => x =? y
  | _, _ => false
  end.

Definition FrameComp_eqb (a b : FrameComp) : bool :=
  match a, b with
  | FRAME_COMP_NONE, FRAME_COMP_NONE
  | FRAME_COMP_BLACK_RLE, FRAME_COMP_BLACK_RLE => true
  | FRAME_COMP_unknown x, FRAME_COMP_unknown y => x =? y
  | _, _ => false
  end.

Record KVMGFXHeader : Type := {
  magic     : buffer;
  version   : Z;
  hostID    : Z;
  guestID   : Z;
  frameType : FrameType;
  compType  : FrameComp;
  width     : Z;
  height    : Z;
  stride    : Z;
  mouseX    : Z;
  mouseY    : Z
}.

(** Modelled from the spec: [struct RLEHeader] of KVMGFXHeader.h is
    missing.  The record overlays a payload run that starts with three
    zero bytes and carries a [length] field; where the field sits after
    the three bytes, how wide it is and what follows it are left open. *)
Record RLELayout : Type := {
  rle_pad       : nat;  (* bytes between the zero bytes and [length] *)
  rle_len_bytes : nat;  (* width of [length] *)
  rle_tail      : nat   (* bytes after [length] *)
}.

Definition rle_len_off (L : RLELayout) : Z := 3 + Z.of_nat (rle_pad L).

(** [sizeof(struct RLEHeader)] *)
Definition rle_sizeof (L : RLELayout) : Z :=
  3 + Z.of_nat (rle_pad L) + Z.of_nat (rle_len_bytes L)
    + Z.of_nat (rle_tail L).

(** [h->length * 3]: a field narrower than [int] is promoted and the
    product cannot overflow; a wider unsigned field wraps at its width. *)
Definition rle_times3 (L : RLELayout) (n : Z) : Z :=
  if (rle_len_bytes L <? 4)%nat then n * 3
  else (n * 3) mod 2 ^ (8 * Z.of_nat (rle_len_bytes L)).

(** [h->length] for [h = (struct RLEHeader * )(src + s)] *)
Definition rle_length (L : RLELayout) (src : buffer) (s : Z) : option Z :=
  option_map le_combine
    (slice src (s + rle_len_off L) (Z.of_nat (rle_len_bytes L))).

(** A packed header with a 16-bit length, used for the examples. *)
Definition RLEHeader_packed16 : RLELayout :=
  {| rle_pad := 0; rle_len_bytes := 2; rle_tail := 0 |}.

(** ** Compression codecs *)

Definition compFunc_NONE (dst src : buffer) (len : Z) : res buffer :=
  memcpy dst 0 src 0 len.

(** The loop variables of [compFunc_BLACK_RLE]: the pixel counter [i],
    the two pointers as offsets from their initial values, and the
    contents of the destination. *)
Record cursor : Type := {
  px   : Z;
  dpos : Z;
  spos : Z;
  out  : buffer
}.

Inductive step_res : Type :=
| Halt
| Next (c : cursor)
| Stuck (f : fault).

(** One evaluation of the loop condition and, when it holds, of the
    body.  Whatever the test of the three bytes short-circuits, the bytes
    it skipped are read by the [memcpy] of the other branch, so all three
    are loaded first. *)
Definition rle_step (L : RLELayout) (pixels : Z) (src : buffer) (c : cursor)
  : step_res :=
  if px c <? pixels then
    match load src (spos c), load src (spos c + 1), load src (spos c + 2) with
    | Some b0, Some b1, Some b2 =>
        if is_zero b0 && is_zero b1 && is_zero b2 then
          match rle_length L src (spos c) with
          | Some n =>
              Next {| px   := wrap64 (px c + n);
                      dpos := dpos c + rle_times3 L n;
                      spos := spos c + rle_sizeof L;
                      out  := out c |}
          | None => Stuck (ReadOutOfBounds (spos c + rle_len_off L))
          end
        else
          match blit (out c) (dpos c) [b0; b1; b2] with
          | Some o =>
              Next {| px   := wrap64 (px c + 1);
                      dpos := dpos c + 3;
                      spos := spos c + 3;
                      out  := o |}
          | None => Stuck (WriteOutOfBounds (dpos c))
          end
    | _, _, _ => Stuck (ReadOutOfBounds (spos c))
    end
  else Halt.

(** The loop, bounded by [fuel] iterations; [None] when the bound is hit. *)
Fixpoint rle_loop (fuel : nat) (L : RLELayout) (pixels : Z) (src : buffer)
  (c : cursor) : option (res cursor) :=
  match rle_step L pixels src c with
  | Halt => Some (Ok c)
  | Stuck f => Some (Fault f)
  | Next c' =>
      match fuel with
      | O => None
      | S k => rle_loop k L pixels src c'
      end
  end.

Definition rle_start (dst : buffer) : cursor :=
  {| px := 0; dpos := 0; spos := 0; out := dst |}.

(** Every iteration consumes at least three bytes of [src], so the
    length of [src] bounds the number of iterations. *)
Definition rle_decode (L : RLELayout) (dst src : buffer) (len : Z)
  : option (res cursor) :=
  rle_loop (length src) L (len / 3) src (rle_start dst).

Definition compFunc_BLACK_RLE (L : RLELayout) (dst src : buffer) (len : Z)
  : res buffer :=
  match rle_decode L dst src len with
  | Some (Ok c) => Ok (out c)
  | Some (Fault f) => Fault f
  | None => Fault (ReadOutOfBounds (size src))
  end.

(** No all-zero unit among the [len / 3] units of the payload. *)
Fixpoint zero_unit_free (units : nat) (src : buffer) : bool :=
  match units with
  | O => true
  | S k =>
      match src with
      | b0 :: b1 :: b2 :: rest =>
          negb (is_zero b0 && is_zero b1 && is_zero b2)
          && zero_unit_free k rest
      | _ => false
      end
  end.

(** ** Traces

    A computation returns the calls it made, in order, and either a value
    or the fault that stopped it. *)

Definition M (E A : Type) : Type := (list E * res A)%type.

Definition ret {E A : Type} (a : A) : M E A := ([], Ok a).

Definition bind {E A B : Type} (m : M E A) (k : A -> M E B) : M E B :=
  match m with
  | (t, Ok a) => let (t', r) := k a in (t ++ t', r)
  | (t, Fault f) => (t, Fault f)
  end.

Definition emit {E : Type} (e : E) : M E unit := ([e], Ok tt).

Definition lift {E A : Type} (r : res A) : M E A := ([], r).

Notation "x <- m ;; k" := (bind m (fun x => k))
  (at level 61, m at next level, right associativity).
Notation "m ;;; k" := (bind m (fun _ => k))
  (at level 61, right associativity).

(** ** Frame presenters *)

Inductive SDL_PixelFormat : Type :=
| SDL_PIXELFORMAT_ARGB8888
| SDL_PIXELFORMAT_RGB24
| SDL_PIXELFORMAT_YV12
| SDL_PIXELFORMAT_ARGB2101010.

(** Values of the function pointer types [CompFunc] and [DrawFunc]. *)
Inductive CompFunc : Type :=
| fn_compFunc_NONE
| fn_compFunc_BLACK_RLE.

Inductive DrawFunc : Type :=
| fn_drawFunc_ARGB
| fn_drawFunc_RGB
| fn_drawFunc_XOR
| fn_drawFunc_YUV444P
| fn_drawFunc_YUV420P
| fn_drawFunc_ARGB10.

(** What the render thread asks of ivshmem, SDL and OpenGL. *)
Inductive render_call : Type :=
| ivshmem_kick_irq (guest : Z)
| run_compFunc (f : CompFunc) (len : Z)
| SDL_UpdateTexture (pitch : Z)
| SDL_UpdateYUVTexture (uoff voff ypitch upitch vpitch : Z)
| SDL_UnlockTexture
| SDL_RenderClear
| SDL_RenderCopy
| SDL_RenderPresent
| glEnable_COLOR_LOGIC_OP
| glLogicOp_XOR
| glDisable_COLOR_LOGIC_OP
| SDL_DestroyTexture (live : bool)   (* [false]: called with NULL *)
| SDL_SetWindowSize (w h : Z)
| SDL_SetWindowPosition_CENTERED
| SDL_CreateTexture (fmt : SDL_PixelFormat) (w h : Z)
| SDL_LockTexture
| SDL_LockTexture_NULL   (* called with the NULL of a failed creation *)
| render_DEBUG_ERROR (msg : string).

(** [state.shm->height * state.shm->stride * bpp] in [uint32_t]. *)
Definition frame_bytes (shm : KVMGFXHeader) (bpp : Z) : Z :=
  wrap32 (wrap32 (height shm * stride shm) * bpp).

Section Client.

(** [struct RLEHeader], [KVMGFX_HEADER_MAGIC] (KVMGFXHeader.h) and the
    table [usb_to_ps2] (kb.h) are declared outside [main.c]. *)
Variable RLEHeader : RLELayout.
Variable KVMGFX_HEADER_MAGIC : buffer.
Variable usb_to_ps2 : list Z.

(** [compFunc(dst, src, len)] through the pointer. *)
Definition call_compFunc (f : option CompFunc) (dst src : buffer) (len : Z)
  : M render_call buffer :=
  match f with
  | None => lift (Fault NullCall)
  | Some fn_compFunc_NONE =>
      emit (run_compFunc fn_compFunc_NONE len) ;;;
      lift (compFunc_NONE dst src len)
  | Some fn_compFunc_BLACK_RLE =>
      emit (run_compFunc fn_compFunc_BLACK_RLE len) ;;;
      lift (compFunc_BLACK_RLE RLEHeader dst src len)
  end.

Definition drawFunc_ARGB10 (compFunc : option CompFunc) (shm : KVMGFXHeader)
  (dst src : buffer) : M render_call buffer :=
  emit (SDL_UpdateTexture (wrap32 (stride shm * 4))) ;;;
  emit (ivshmem_kick_irq (guestID shm)) ;;;
  emit SDL_RenderClear ;;;
  emit SDL_RenderCopy ;;;
  emit SDL_RenderPresent ;;;
  ret dst.

Definition drawFunc_ARGB (compFunc : option CompFunc) (shm : KVMGFXHeader)
  (dst src : buffer) : M render_call buffer :=
  dst' <- call_compFunc compFunc dst src (frame_bytes shm 4) ;;
  emit (ivshmem_kick_irq (guestID shm)) ;;;
  emit SDL_UnlockTexture ;;;
  emit SDL_RenderClear ;;;
  emit SDL_RenderCopy ;;;
  emit SDL_RenderPresent ;;;
  ret dst'.

Definition drawFunc_RGB (compFunc : option CompFunc) (shm : KVMGFXHeader)
  (dst src : buffer) : M render_call buffer :=
  dst' <- call_compFunc compFunc dst src (frame_bytes shm 3) ;;
  emit (ivshmem_kick_irq (guestID shm)) ;;;
  emit SDL_UnlockTexture ;;;
  emit SDL_RenderClear ;;;
  emit SDL_RenderCopy ;;;
  emit SDL_RenderPresent ;;;
  ret dst'.

Definition drawFunc_XOR (compFunc : option CompFunc) (shm : KVMGFXHeader)
  (dst src : buffer) : M render_call buffer :=
  emit glEnable_COLOR_LOGIC_OP ;;;
  emit glLogicOp_XOR ;;;
  dst' <- call_compFunc compFunc dst src (frame_bytes shm 3) ;;
  emit (ivshmem_kick_irq (guestID shm)) ;;;
  emit SDL_UnlockTexture ;;;
  emit SDL_RenderCopy ;;;
  emit SDL_RenderPresent ;;;
  (* clear the buffer for the next frame *)
  lift (memset0 dst' (frame_bytes shm 3)).

Definition drawFunc_YUV444P (compFunc : option CompFunc) (shm : KVMGFXHeader)
  (dst src : buffer) : M render_call buffer :=
  dst' <- call_compFunc compFunc dst src (frame_bytes shm 3) ;;
  emit (ivshmem_kick_irq (guestID shm)) ;;;
  emit SDL_UnlockTexture ;;;
  emit SDL_RenderCopy ;;;
  emit SDL_RenderPresent ;;;
  ret dst'.

Definition drawFunc_YUV420P (compFunc : option CompFunc) (shm : KVMGFXHeader)
  (dst src : buffer) : M render_call buffer :=
  let pixels := wrap32 (width shm * height shm) in
  emit (SDL_UpdateYUVTexture pixels (pixels + pixels / 4)
          (stride shm) (stride shm / 2) (stride shm / 2)) ;;;
  emit (ivshmem_kick_irq (guestID shm)) ;;;
  emit SDL_RenderClear ;;;
  emit SDL_RenderCopy ;;;
  emit SDL_RenderPresent ;;;
  ret dst.

(** [drawFunc(compFunc, texture, texPixels, pixels)] through the pointer. *)
Definition call_drawFunc (f : option DrawFunc) (compFunc : option CompFunc)
  (shm : KVMGFXHeader) (dst src : buffer) : M render_call buffer :=
  match f with
  | None => lift (Fault NullCall)
  | Some fn_drawFunc_ARGB => drawFunc_ARGB compFunc shm dst src
  | Some fn_drawFunc_RGB => drawFunc_RGB compFunc shm dst src
  | Some fn_drawFunc_XOR => drawFunc_XOR compFunc shm dst src
  | Some fn_drawFunc_YUV444P => drawFunc_YUV444P compFunc shm dst src
  | Some fn_drawFunc_YUV420P => drawFunc_YUV420P compFunc shm dst src
  | Some fn_drawFunc_ARGB10 => drawFunc_ARGB10 compFunc shm dst src
  end.

(** ** Format negotiation *)

Definition areFormatsSame (s1 s2 : KVMGFXHeader) : bool :=
  negb (FrameType_eqb (frameType s1) FRAME_TYPE_INVALID) &&
  negb (FrameType_eqb (frameType s2) FRAME_TYPE_INVALID) &&
  (version s1 =? version s2) &&
  FrameType_eqb (frameType s1) (frameType s2) &&
  FrameComp_eqb (compType s1) (compType s2) &&
  (width s1 =? width s2) &&
  (height s1 =? height s2).

(** ** The render thread *)

(** The fields of [struct KVMGFXState] that the threads share.  Only the
    code of the modelled thread writes them. *)
Record KVMGFXState : Type := {
  running       : bool;
  started       : bool;
  windowChanged : bool
}.

Record Texture : Type := {
  tex_format : SDL_PixelFormat;
  tex_width  : Z;
  tex_height : Z
}.

(** The local variables of [renderThread]; [texPixels] is the memory
    that [SDL_LockTexture] handed out. *)
Record RenderLocals : Type := {
  format    : KVMGFXHeader;
  texture   : option Texture;
  texPixels : buffer;
  drawFunc  : option DrawFunc;
  compFunc  : option CompFunc
}.

Inductive IVSHMEM_WAIT_RESULT : Type :=
| IVSHMEM_WAIT_RESULT_OK
| IVSHMEM_WAIT_RESULT_TIMEOUT
| IVSHMEM_WAIT_RESULT_ERROR.

(** What one pass of the outer loop finds: the header and the payload in
    shared memory (the guest is taken not to change the header during a
    pass), the results of the calls to [ivshmem_wait_irq], whether
    [SDL_CreateTexture] returns a texture in case it is called, and the
    memory of that texture.  [SDL_LockTexture] is taken to succeed on a
    texture that exists; given NULL it fails, and [texPixels] is left
    with no memory behind it (it is NULL, or it points into the texture
    that was just destroyed). *)
Record Pass : Type := {
  shm             : KVMGFXHeader;
  payload         : buffer;
  irqs            : list IVSHMEM_WAIT_RESULT;
  texture_created : bool;
  fresh_pixels    : buffer
}.

Fixpoint buffer_eqb (a b : buffer) : bool :=
  match a, b with
  | [], [] => true
  | x :: a', y :: b' => Byte.eqb x y && buffer_eqb a' b'
  | _, _ => false
  end.

(** [memcmp(state.shm->magic, KVMGFX_HEADER_MAGIC, sizeof(...)) == 0] *)
Definition magic_ok (h : KVMGFXHeader) : bool :=
  buffer_eqb (magic h) KVMGFX_HEADER_MAGIC.

Inductive wait_res : Type :=
| WaitReady
| WaitError
| WaitStopped    (* left because [state.running] is false *)
| WaitBlocked.   (* no further interrupt result: still inside the call *)

(** The inner loop [while(state.running && !ready && !error)]; [run] is
    [state.running]. *)
Fixpoint wait_loop (run : bool) (guest : Z) (rs : list IVSHMEM_WAIT_RESULT)
  : M render_call wait_res :=
  if run then
    match rs with
    | [] => ret WaitBlocked
    | IVSHMEM_WAIT_RESULT_OK :: _ => ret WaitReady
    | IVSHMEM_WAIT_RESULT_TIMEOUT :: rs' =>
        emit (ivshmem_kick_irq guest) ;;; wait_loop run guest rs'
    | IVSHMEM_WAIT_RESULT_ERROR :: _ => ret WaitError
    end
  else ret WaitStopped.

Definition select_drawFunc (t : FrameType)
  : option (SDL_PixelFormat * DrawFunc) :=
  match t with
  | FRAME_TYPE_ARGB    => Some (SDL_PIXELFORMAT_ARGB8888, fn_drawFunc_ARGB)
  | FRAME_TYPE_RGB     => Some (SDL_PIXELFORMAT_RGB24, fn_drawFunc_RGB)
  | FRAME_TYPE_XOR     => Some (SDL_PIXELFORMAT_RGB24, fn_drawFunc_XOR)
  | FRAME_TYPE_YUV444P => Some (SDL_PIXELFORMAT_RGB24, fn_drawFunc_YUV444P)
  | FRAME_TYPE_YUV420P => Some (SDL_PIXELFORMAT_YV12, fn_drawFunc_YUV420P)
  | FRAME_TYPE_ARGB10  =>
      Some (SDL_PIXELFORMAT_ARGB2101010, fn_drawFunc_ARGB10)
  | _ => None
  end.

Definition select_compFunc (c : FrameComp) : option CompFunc :=
  match c with
  | FRAME_COMP_NONE      => Some fn_compFunc_NONE
  | FRAME_COMP_BLACK_RLE => Some fn_compFunc_BLACK_RLE
  | _ => None
  end.

Definition set_frameType (h : KVMGFXHeader) (t : FrameType) : KVMGFXHeader :=
  {| magic := magic h; version := version h; hostID := hostID h;
     guestID := guestID h; frameType := t; compType := compType h;
     width := width h; height := height h; stride := stride h;
     mouseX := mouseX h; mouseY := mouseY h |}.

Inductive negotiated : Type :=
| Configured (st : KVMGFXState) (loc : RenderLocals)
| Deferred (loc : RenderLocals).   (* the [continue] of a [default:] *)

(** Lines 222-266: the block guarded by [!areFormatsSame(format, *shm)]. *)
Definition negotiate (st : KVMGFXState) (loc : RenderLocals) (p : Pass)
  : M render_call negotiated :=
  if areFormatsSame (format loc) (shm p) then ret (Configured st loc)
  else
    tex <- match texture loc with
           | Some _ => emit (SDL_DestroyTexture true) ;;; ret None
           | None => ret None
           end ;;
    match select_drawFunc (frameType (shm p)) with
    | None =>
        ret (Deferred
               {| format := set_frameType (format loc) FRAME_TYPE_INVALID;
                  texture := tex; texPixels := texPixels loc;
                  drawFunc := drawFunc loc; compFunc := compFunc loc |})
    | Some (sdlFormat, df) =>
        match select_compFunc (compType (shm p)) with
        | None =>
            ret (Deferred
                   {| format := set_frameType (format loc) FRAME_TYPE_INVALID;
                      texture := tex; texPixels := texPixels loc;
                      drawFunc := Some df; compFunc := compFunc loc |})
        | Some cf =>
            emit (SDL_SetWindowSize (width (shm p)) (height (shm p))) ;;;
            emit SDL_SetWindowPosition_CENTERED ;;;
            emit (SDL_CreateTexture sdlFormat
                    (width (shm p)) (height (shm p))) ;;;
            (* the result of [SDL_CreateTexture] is not checked *)
            emit (if texture_created p then SDL_LockTexture
                  else SDL_LockTexture_NULL) ;;;
            ret (Configured
                   {| running := running st; started := started st;
                      windowChanged := true |}
                   {| format := shm p;
                      texture := if texture_created p
                                 then Some {| tex_format := sdlFormat;
                                              tex_width := width (shm p);
                                              tex_height := height (shm p) |}
                                 else None;
                      texPixels := if texture_created p then fresh_pixels p
                                   else [];
                      drawFunc := Some df; compFunc := Some cf |})
        end
    end.

Inductive pass_res : Type :=
| PassContinue (st : KVMGFXState) (loc : RenderLocals)
| PassBreak (st : KVMGFXState) (loc : RenderLocals)
| PassBlocked.

(** Lines 222-270: what a pass does once a frame is ready. *)
Definition process_frame (st : KVMGFXState) (loc : RenderLocals) (p : Pass)
  : M render_call pass_res :=
  n <- negotiate st loc p ;;
  match n with
  | Deferred loc' => ret (PassContinue st loc')
  | Configured st' loc' =>
      emit glDisable_COLOR_LOGIC_OP ;;;
      dst' <- call_drawFunc (drawFunc loc') (compFunc loc') (shm p)
                (texPixels loc') (payload p) ;;
      ret (PassContinue
             {| running := running st'; started := true;
                windowChanged := windowChanged st' |}
             {| format := format loc'; texture := texture loc';
                texPixels := dst'; drawFunc := drawFunc loc';
                compFunc := compFunc loc' |})
  end.

(** The body of [while(state.running)] in [renderThread]. *)
Definition render_pass (st : KVMGFXState) (loc : RenderLocals) (p : Pass)
  : M render_call pass_res :=
  if negb (magic_ok (shm p)) then ret (PassContinue st loc)
  else if negb (version (shm p) =? 2) then ret (PassContinue st loc)
  else
    w <- wait_loop (running st) (guestID (shm p)) (irqs p) ;;
    match w with
    | WaitBlocked => ret PassBlocked
    | WaitError =>
        emit (render_DEBUG_ERROR "error during wait for host") ;;;
        ret (PassBreak st loc)
    | WaitReady | WaitStopped => process_frame st loc p
    end.

Inductive thread_res : Type :=
| Returned (st : KVMGFXState) (rest : list Pass)
| Waiting.   (* the thread is still in its loop when the input ends *)

Fixpoint render_loop (st : KVMGFXState) (loc : RenderLocals)
  (ps : list Pass) : M render_call (option (KVMGFXState * RenderLocals
                                            * list Pass)) :=
  if running st then
    match ps with
    | [] => ret None
    | p :: ps' =>
        r <- render_pass st loc p ;;
        match r with
        | PassContinue st' loc' => render_loop st' loc' ps'
        | PassBreak st' loc' => ret (Some (st', loc', ps'))
        | PassBlocked => ret None
        end
    end
  else ret (Some (st, loc, ps)).

(** The locals as [renderThread] initialises them; [stack] is what the
    fields it does not assign happen to hold. *)
Definition render_init (stack : KVMGFXHeader) : RenderLocals :=
  {| format := {| magic := magic stack; version := 1;
                  hostID := hostID stack; guestID := guestID stack;
                  frameType := FRAME_TYPE_INVALID;
                  compType := compType stack;
                  width := 0; height := 0; stride := 0;
                  mouseX := mouseX stack; mouseY := mouseY stack |};
     texture := None; texPixels := []; drawFunc := None; compFunc := None |}.

Definition renderThread (stack : KVMGFXHeader) (st : KVMGFXState)
  (ps : list Pass) : M render_call thread_res :=
  r <- render_loop st (render_init stack) ps ;;
  match r with
  | None => ret Waiting
  | Some (st', loc', rest) =>
      emit (SDL_DestroyTexture
              (match texture loc' with Some _ => true | None => false end)) ;;;
      ret (Returned st' rest)
  end.

(** [while(state.running) renderThread(NULL);] in [main], for at most
    [calls] calls. *)
Fixpoint main_render (calls : nat) (stack : KVMGFXHeader) (st : KVMGFXState)
  (ps : list Pass) : M render_call thread_res :=
  if running st then
    match calls with
    | O => ret Waiting
    | S k =>
        r <- renderThread stack st ps ;;
        match r with
        | Returned st' rest => main_render k stack st' rest
        | Waiting => ret Waiting
        end
    end
  else ret (Returned st ps).

(** ** The event thread *)

Inductive SDL_Event : Type :=
| SDL_QUIT
| SDL_KEYDOWN (scancode : Z) (repeat : Z)
| SDL_KEYUP (scancode : Z) (repeat : Z)
| SDL_MOUSEWHEEL (y : Z)
| SDL_MOUSEMOTION (x y xrel yrel : Z)
| SDL_MOUSEBUTTONDOWN (button x y : Z)
| SDL_MOUSEBUTTONUP (button x y : Z)
| SDL_other (type : Z).

(** SDL_scancode.h *)
Definition SDL_SCANCODE_SCROLLLOCK : Z := 71.

(** What the event thread asks of spice and SDL. *)
Inductive input_call : Type :=
| spice_mouse_mode (server : bool)
| spice_key_down (code : Z)
| spice_key_up (code : Z)
| spice_mouse_press (button : Z)
| spice_mouse_release (button : Z)
| spice_mouse_motion (dx dy : Z)
| spice_mouse_position (x y : Z)
| SDL_WarpMouseInWindow (x y : Z)
| SDL_SetRelativeMouseMode (on : bool)
| SDL_SetHint_MOUSE_RELATIVE_MODE_WARP
| usleep (us : Z)
| input_DEBUG_WARN (msg : string) (arg : Z)
| input_DEBUG_ERROR (msg : string).

(** Calls that send a message of the remote protocol. *)
Definition is_spice_call (c : input_call) : bool :=
  match c with
  | spice_mouse_mode _ | spice_key_down _ | spice_key_up _
  | spice_mouse_press _ | spice_mouse_release _
  | spice_mouse_motion _ _ | spice_mouse_position _ _ => true
  | _ => false
  end.

Definition is_key_call (c : input_call) : bool :=
  match c with
  | spice_key_down _ | spice_key_up _ => true
  | _ => false
  end.

(** [usb_to_ps2[i]]: an index outside the table is a fault. *)
Definition table_load (i : Z) : res Z :=
  if i <? 0 then Fault (ReadOutOfBounds i)
  else match nth_error usb_to_ps2 (Z.to_nat i) with
       | Some v => Ok v
       | None => Fault (ReadOutOfBounds i)
       end.

(** [sizeof(usb_to_ps2) / sizeof(uint32_t)] *)
Definition usb_to_ps2_entries : Z := Z.of_nat (length usb_to_ps2).

Definition mapScancode (scancode : Z) : M input_call Z :=
  if size_t_of_int scancode >? usb_to_ps2_entries then
    emit (input_DEBUG_WARN "Unable to map USB scan code" scancode) ;;;
    ret 0
  else
    ps2 <- lift (table_load scancode) ;;
    if ps2 =? 0 then
      emit (input_DEBUG_WARN "Unable to map USB scan code" scancode) ;;;
      ret 0
    else ret ps2.

(** The local variables of [eventThread]; the position is prefixed
    because the header has fields of the same names. *)
Record EventLocals : Type := {
  serverMode : bool;
  ev_mouseX  : Z;
  ev_mouseY  : Z;
  init       : bool
}.

(** One polled event with what the thread finds while handling it: the
    header in shared memory and the results of the (at most two) spice
    calls whose result the code tests. *)
Record Poll : Type := {
  event     : SDL_Event;
  poll_shm  : KVMGFXHeader;
  spice_ok1 : bool;
  spice_ok2 : bool
}.

Definition at_guest_position (loc : EventLocals) (h : KVMGFXHeader)
  : EventLocals :=
  {| serverMode := serverMode loc; ev_mouseX := mouseX h;
     ev_mouseY := mouseY h; init := init loc |}.

Definition at_position (loc : EventLocals) (x y : Z) : EventLocals :=
  {| serverMode := serverMode loc; ev_mouseX := x; ev_mouseY := y;
     init := init loc |}.

(** [switch(event.type)], lines 362-479. *)
Definition dispatch (loc : EventLocals) (p : Poll)
  : M input_call EventLocals :=
  match event p with
  | SDL_KEYDOWN sc repeat =>
      if sc =? SDL_SCANCODE_SCROLLLOCK then
        if negb (repeat =? 0) then ret loc
        else
          let mode := negb (serverMode loc) in
          emit (spice_mouse_mode mode) ;;;
          emit (SDL_SetRelativeMouseMode mode) ;;;
          if negb mode then
            emit (SDL_WarpMouseInWindow (mouseX (poll_shm p))
                    (mouseY (poll_shm p))) ;;;
            ret {| serverMode := mode; ev_mouseX := mouseX (poll_shm p);
                   ev_mouseY := mouseY (poll_shm p); init := init loc |}
          else
            ret {| serverMode := mode; ev_mouseX := ev_mouseX loc;
                   ev_mouseY := ev_mouseY loc; init := init loc |}
      else
        scancode <- mapScancode sc ;;
        if scancode =? 0 then ret loc
        else
          emit (spice_key_down scancode) ;;;
          if negb (spice_ok1 p) then
            emit (input_DEBUG_ERROR "SDL_KEYDOWN: failed to send message") ;;;
            ret loc
          else ret loc
  | SDL_KEYUP sc _ =>
      if sc =? SDL_SCANCODE_SCROLLLOCK then ret loc
      else
        scancode <- mapScancode sc ;;
        if scancode =? 0 then ret loc
        else
          emit (spice_key_up scancode) ;;;
          if negb (spice_ok1 p) then
            emit (input_DEBUG_ERROR "SDL_KEYUP: failed to send message") ;;;
            ret loc
          else ret loc
  | SDL_MOUSEWHEEL y =>
      let b := if y =? 1 then 4 else 5 in
      emit (spice_mouse_press b) ;;;
      if negb (spice_ok1 p) then
        emit (input_DEBUG_ERROR "SDL_MOUSEWHEEL: failed to send messages") ;;;
        ret loc
      else
        emit (spice_mouse_release b) ;;;
        if negb (spice_ok2 p) then
          emit (input_DEBUG_ERROR
                  "SDL_MOUSEWHEEL: failed to send messages") ;;;
          ret loc
        else ret loc
  | SDL_MOUSEMOTION x y xrel yrel =>
      (if serverMode loc then emit (spice_mouse_motion xrel yrel)
       else emit (spice_mouse_motion (wrap_int (x - ev_mouseX loc))
                    (wrap_int (y - ev_mouseY loc)))) ;;;
      if negb (spice_ok1 p) then
        emit (input_DEBUG_ERROR "SDL_MOUSEMOTION: failed to send message") ;;;
        ret loc
      else ret (at_position loc x y)
  | SDL_MOUSEBUTTONDOWN button x y =>
      emit (spice_mouse_position x y) ;;;
      if negb (spice_ok1 p) then
        emit (input_DEBUG_ERROR
                "SDL_MOUSEBUTTONDOWN: failed to send message") ;;;
        ret loc
      else
        emit (spice_mouse_press button) ;;;
        if negb (spice_ok2 p) then
          emit (input_DEBUG_ERROR
                  "SDL_MOUSEBUTTONDOWN: failed to send message") ;;;
          ret loc
        else ret (at_position loc x y)
  | SDL_MOUSEBUTTONUP button x y =>
      emit (spice_mouse_position x y) ;;;
      if negb (spice_ok1 p) then
        emit (input_DEBUG_ERROR "SDL_MOUSEBUTTONUP: failed to send message") ;;;
        ret loc
      else
        emit (spice_mouse_release button) ;;;
        if negb (spice_ok2 p) then
          emit (input_DEBUG_ERROR
                  "SDL_MOUSEBUTTONUP: failed to send message") ;;;
          ret loc
        else ret (at_position loc x y)
  | _ => ret loc
  end.

Inductive event_res : Type :=
| EventContinue (st : KVMGFXState) (loc : EventLocals)
| EventBreak (st : KVMGFXState) (loc : EventLocals).

(** The body of [while(SDL_PollEvent(&event))], lines 336-479. *)
Definition handle_event (st : KVMGFXState) (loc : EventLocals) (p : Poll)
  : M input_call event_res :=
  match event p with
  | SDL_QUIT =>
      ret (EventBreak {| running := false; started := started st;
                         windowChanged := windowChanged st |} loc)
  | _ =>
      if negb (started st) then ret (EventContinue st loc)
      else
        loc1 <- (if negb (init loc) then
                   emit (spice_mouse_mode false) ;;;
                   emit (SDL_WarpMouseInWindow (mouseX (poll_shm p))
                           (mouseY (poll_shm p))) ;;;
                   ret {| serverMode := serverMode loc;
                          ev_mouseX := mouseX (poll_shm p);
                          ev_mouseY := mouseY (poll_shm p);
                          init := true |}
                 else ret loc) ;;
        sl <- (if windowChanged st then
                 emit (SDL_WarpMouseInWindow (mouseX (poll_shm p))
                         (mouseY (poll_shm p))) ;;;
                 ret ({| running := running st; started := started st;
                         windowChanged := false |},
                      at_guest_position loc1 (poll_shm p))
               else ret (st, loc1)) ;;
        loc3 <- dispatch (snd sl) p ;;
        ret (EventContinue (fst sl) loc3)
  end.

(** The inner loop over the events that one round of polling returns. *)
Fixpoint poll_events (st : KVMGFXState) (loc : EventLocals) (q : list Poll)
  : M input_call (KVMGFXState * EventLocals) :=
  match q with
  | [] => ret (st, loc)
  | p :: q' =>
      r <- handle_event st loc p ;;
      match r with
      | EventContinue st' loc' => poll_events st' loc' q'
      | EventBreak st' loc' => ret (st', loc')
      end
  end.

(** The outer loop; [None] when the thread is still in it after the
    last round of polling. *)
Fixpoint event_loop (st : KVMGFXState) (loc : EventLocals)
  (rounds : list (list Poll))
  : M input_call (option (KVMGFXState * EventLocals)) :=
  if running st then
    match rounds with
    | [] => ret None
    | q :: rounds' =>
        sl <- poll_events st loc q ;;
        emit (usleep 1000) ;;;
        event_loop (fst sl) (snd sl) rounds'
    end
  else ret (Some (st, loc)).

Definition event_init : EventLocals :=
  {| serverMode := false; ev_mouseX := 0; ev_mouseY := 0; init := false |}.

Definition eventThread (st : KVMGFXState) (rounds : list (list Poll))
  : M input_call (option (KVMGFXState * EventLocals)) :=
  emit SDL_SetHint_MOUSE_RELATIVE_MODE_WARP ;;;
  event_loop st event_init rounds.

End Client.

(** ** The message pumps *)

(** What the two pump threads do that can be seen from outside. *)
Inductive pump_call : Type :=
| ivshmem_process
| spice_process
| spice_disconnect
| pump_DEBUG_ERROR (msg : string).

(** One call of [ivshmem_process] or [spice_process]: what it returns,
    and whether another thread cleared [state.running] while the call
    was blocked (as the shutdown in [main] does). *)
Record Pump : Type := {
  pump_ok        : bool;
  stop_requested : bool
}.

Definition clear_running (st : KVMGFXState) : KVMGFXState :=
  {| running := false; started := started st;
     windowChanged := windowChanged st |}.

(** The result is [None] when the thread is still in its loop after the
    last call. *)
Fixpoint ivshmemThread (st : KVMGFXState) (rs : list Pump)
  : list pump_call * option KVMGFXState :=
  if running st then
    match rs with
    | [] => ([], None)
    | r :: rs' =>
        let st1 := if stop_requested r then clear_running st else st in
        if negb (pump_ok r) then
          if running st1 then
            ([ivshmem_process;
              pump_DEBUG_ERROR "failed to process ivshmem messages"],
             Some (clear_running st1))
          else ([ivshmem_process], Some st1)
        else
          let (t, o) := ivshmemThread st1 rs' in (ivshmem_process :: t, o)
    end
  else ([], Some st).

(** The loop of [spiceThread], before the [spice_disconnect] that ends
    the function. *)
Fixpoint spice_loop (st : KVMGFXState) (rs : list Pump)
  : list pump_call * option KVMGFXState :=
  if running st then
    match rs with
    | [] => ([], None)
    | r :: rs' =>
        let st1 := if stop_requested r then clear_running st else st in
        if negb (pump_ok r) then
          if running st1 then
            ([spice_process;
              pump_DEBUG_ERROR "failed to process spice messages"],
             Some (clear_running st1))
          else ([spice_process], Some st1)
        else
          let (t, o) := spice_loop st1 rs' in (spice_process :: t, o)
    end
  else ([], Some st).

Definition spiceThread (st : KVMGFXState) (rs : list Pump)
  : list pump_call * option KVMGFXState :=
  match spice_loop st rs with
  | (t, Some st') => (t ++ [spice_disconnect], Some st')
  | (t, None) => (t, None)
  end.

(** ** main *)

Inductive thread_name : Type :=
| the_ivshmemThread
| the_spiceThread
| the_eventThread.

(** What [main] asks of SDL, ivshmem and spice; the calls of the render
    loop it runs are embedded. *)
Inductive main_call : Type :=
| SDL_Init
| SDL_CreateWindow
| SDL_CreateCursor
| SDL_SetCursor
| SDL_ShowCursor_DISABLE
| SDL_CreateRenderer
| ivshmem_connect
| SDL_CreateThread (t : thread_name)
| ivshmem_get_map
| ivshmem_get_id
| set_hostID (id : Z)
| spice_connect
| spice_ready
| main_spice_process
| render (c : render_call)
| SDL_WaitThread (t : thread_name)
| ivshmem_disconnect
| SDL_DestroyRenderer
| SDL_DestroyWindow
| SDL_FreeCursor
| SDL_Quit
| main_DEBUG_ERROR (msg : string).

(** One turn of the loop that waits for the spice connection:
    [spice_ready] returned true, or it returned false and
    [spice_process] returned [ok]. *)
Inductive Handshake : Type :=
| HsReady
| HsProcess (ok : bool).

(** What the libraries return to [main]. *)
Record Boot : Type := {
  sdl_init_ok        : bool;
  window_ok          : bool;
  cursor_ok          : bool;
  renderer_ok        : bool;
  ivshmem_connect_ok : bool;
  t_ivshmem_ok       : bool;
  map_ok             : bool;
  local_id           : Z;
  spice_connect_ok   : bool;
  handshake_turns    : list Handshake;
  t_spice_ok         : bool;
  t_event_ok         : bool;
  render_stack       : KVMGFXHeader;
  render_passes      : list Pass
}.

Inductive main_res : Type :=
| Exit (code : Z) (st : KVMGFXState)
| StillRunning.   (* the input ends inside a loop *)

(** Lines 554-560: [while(state.running && !spice_ready())]. *)
Fixpoint handshake (st : KVMGFXState) (hs : list Handshake)
  : M main_call (option KVMGFXState) :=
  if running st then
    match hs with
    | [] => ret None
    | HsReady :: _ => emit spice_ready ;;; ret (Some st)
    | HsProcess ok :: hs' =>
        emit spice_ready ;;;
        emit main_spice_process ;;;
        if negb ok then
          emit (main_DEBUG_ERROR "Failed to process spice messages") ;;;
          ret (Some (clear_running st))
        else handshake st hs'
    end
  else ret (Some st).

(** Lines 580-607: what follows the [while(1)] block; the arguments tell
    which thread handles are not NULL. *)
Definition main_shutdown (b : Boot) (st : KVMGFXState)
  (t_ivshmem t_spice t_event : bool) : M main_call main_res :=
  (if t_event then emit (SDL_WaitThread the_eventThread) else ret tt) ;;;
  emit ivshmem_disconnect ;;;
  (if t_ivshmem then emit (SDL_WaitThread the_ivshmemThread)
   else ret tt) ;;;
  (if t_spice then emit (SDL_WaitThread the_spiceThread) else ret tt) ;;;
  emit SDL_DestroyRenderer ;;;
  emit SDL_DestroyWindow ;;;
  (if cursor_ok b then emit SDL_FreeCursor else ret tt) ;;;
  (* [shm_fd] is 0: [close] is not called *)
  emit SDL_Quit ;;;
  ret (Exit 0 (clear_running st)).

(** The calls of the render loop, as calls of [main]. *)
Definition in_main {A : Type} (m : M render_call A) : M main_call A :=
  (map render (fst m), snd m).

Section Main.

Variable RLEHeader : RLELayout.
Variable KVMGFX_HEADER_MAGIC : buffer.

Definition main (b : Boot) : M main_call main_res :=
  let st := {| running := true; started := false;
               windowChanged := false |} in
  emit SDL_Init ;;;
  if negb (sdl_init_ok b) then
    emit (main_DEBUG_ERROR "SDL_Init Failed") ;;; ret (Exit (-1) st)
  else
  emit SDL_CreateWindow ;;;
  if negb (window_ok b) then
    emit (main_DEBUG_ERROR "failed to create window") ;;; ret (Exit (-1) st)
  else
  emit SDL_CreateCursor ;;;
  emit SDL_SetCursor ;;;
  emit SDL_ShowCursor_DISABLE ;;;
  emit SDL_CreateRenderer ;;;
  if negb (renderer_ok b) then
    emit (main_DEBUG_ERROR "failed to create window") ;;; ret (Exit (-1) st)
  else
  emit ivshmem_connect ;;;
  if negb (ivshmem_connect_ok b) then
    emit (main_DEBUG_ERROR "failed to connect to the ivshmem server") ;;;
    main_shutdown b st false false false
  else
  emit (SDL_CreateThread the_ivshmemThread) ;;;
  if negb (t_ivshmem_ok b) then
    emit (main_DEBUG_ERROR "ivshmem create thread failed") ;;;
    main_shutdown b st false false false
  else
  emit ivshmem_get_map ;;;
  if negb (map_ok b) then
    emit (main_DEBUG_ERROR "Failed to map memory") ;;;
    main_shutdown b st true false false
  else
  emit ivshmem_get_id ;;;
  emit (set_hostID (local_id b)) ;;;
  emit spice_connect ;;;
  if negb (spice_connect_ok b) then
    emit (main_DEBUG_ERROR "Failed to connect to spice server") ;;;
    ret (Exit 0 st)
  else
  h <- handshake st (handshake_turns b) ;;
  match h with
  | None => ret StillRunning
  | Some st1 =>
      emit (SDL_CreateThread the_spiceThread) ;;;
      if negb (t_spice_ok b) then
        emit (main_DEBUG_ERROR "spice create thread failed") ;;;
        main_shutdown b st1 true false false
      else
      emit (SDL_CreateThread the_eventThread) ;;;
      if negb (t_event_ok b) then
        emit (main_DEBUG_ERROR "gpu create thread failed") ;;;
        main_shutdown b st1 true true false
      else
      r <- in_main (main_render RLEHeader KVMGFX_HEADER_MAGIC
                      (S (length (render_passes b))) (render_stack b) st1
                      (render_passes b)) ;;
      match r with
      | Waiting => ret StillRunning
      | Returned st2 _ => main_shutdown b st2 true true true
      end
  end.

End Main.

(** * Vocabulary of the statements *)

(** What holds of the loop variables of [compFunc_BLACK_RLE] at every
    test of [i < pixels], for a destination [dst]. *)
Definition rle_invariant (L : RLELayout) (dst : buffer) (pixels : Z)
  (c : cursor) : Prop :=
  0 <= px c < pixels + 2 ^ (8 * Z.of_nat (rle_len_bytes L)) /\
  0 <= dpos c <= 3 * px c /\
  0 <= spos c /\
  size (out c) = size dst /\
  skipn (Z.to_nat (3 * pixels)) (out c) = skipn (Z.to_nat (3 * pixels)) dst.

(** The header [h] with another row stride. *)
Definition with_stride (h : KVMGFXHeader) (n : Z) : KVMGFXHeader :=
  {| magic := magic h; version := version h; hostID := hostID h;
     guestID := guestID h; frameType := frameType h;
     compType := compType h; width := width h; height := height h;
     stride := n; mouseX := mouseX h; mouseY := mouseY h |}.

(** A header whose frame type and compression type the two [switch]
    statements of [renderThread] accept. *)
Definition recognized (h : KVMGFXHeader) : bool :=
  match select_drawFunc (frameType h), select_compFunc (compType h) with
  | Some _, Some _ => true
  | _, _ => false
  end.

(** The cached format is invalid or was copied from a recognized header. *)
Definition format_settled (loc : RenderLocals) : Prop :=
  frameType (format loc) = FRAME_TYPE_INVALID \/
  recognized (format loc) = true.

(** The states in which the outer loop of [renderThread] can begin a
    pass: the initial one and those that a pass continues with. *)
Inductive reachable (L : RLELayout) (MAGIC : buffer) (stack : KVMGFXHeader)
  : KVMGFXState -> RenderLocals -> Prop :=
| reach_init (st : KVMGFXState) :
    reachable L MAGIC stack st (render_init stack)
| reach_pass (st st' : KVMGFXState) (loc loc' : RenderLocals) (p : Pass)
    (t : list render_call) :
    reachable L MAGIC stack st loc ->
    render_pass L MAGIC st loc p = (t, Ok (PassContinue st' loc')) ->
    reachable L MAGIC stack st' loc'.

(** Calls that neither allocate a surface nor decode or present a frame. *)
Definition idle_call (c : render_call) : bool :=
  match c with
  | ivshmem_kick_irq _ | SDL_DestroyTexture _ | render_DEBUG_ERROR _ => true
  | _ => false
  end.

(** The call that releases the surface, when there is one. *)
Definition destroy_calls (loc : RenderLocals) : list render_call :=
  match texture loc with
  | Some _ => [SDL_DestroyTexture true]
  | None => []
  end.

(** The colour logic op as a trace of calls leaves it: off, or set to
    XOR, with a flag that tells whether a frame was presented since. *)
Inductive blend : Type :=
| BlendOff
| BlendXor (presented : bool).

Definition presenter_call (c : render_call) : bool :=
  match c with
  | SDL_UpdateTexture _ | SDL_UpdateYUVTexture _ _ _ _ _
  | SDL_RenderClear | SDL_RenderCopy | SDL_RenderPresent => true
  | _ => false
  end.

(** [None]: a presenter call is made while the XOR blend that an earlier,
    already presented frame enabled is still on. *)
Definition blend_step (b : blend) (c : render_call) : option blend :=
  match c with
  | glEnable_COLOR_LOGIC_OP => Some (BlendXor false)
  | glDisable_COLOR_LOGIC_OP => Some BlendOff
  | _ =>
      if presenter_call c then
        match b, c with
        | BlendXor true, _ => None
        | BlendXor false, SDL_RenderPresent => Some (BlendXor true)
        | _, _ => Some b
        end
      else Some b
  end.

Fixpoint blend_run (b : blend) (t : list render_call) : option blend :=
  match t with
  | [] => Some b
  | c :: t' =>
      match blend_step b c with
      | Some b' => blend_run b' t'
      | None => None
      end
  end.

Definition is_disable (c : render_call) : bool :=
  match c with
  | glDisable_COLOR_LOGIC_OP => true
  | _ => false
  end.

(** A first press of the mode hotkey. *)
Definition is_toggle (p : Poll) : bool :=
  match event p with
  | SDL_KEYDOWN sc repeat => (sc =? SDL_SCANCODE_SCROLLLOCK) && (repeat =? 0)
  | _ => false
  end.

(** Any key event of the mode hotkey. *)
Definition is_hotkey (p : Poll) : bool :=
  match event p with
  | SDL_KEYDOWN sc _ | SDL_KEYUP sc _ => sc =? SDL_SCANCODE_SCROLLLOCK
  | _ => false
  end.

Definition is_quit (p : Poll) : bool :=
  match event p with
  | SDL_QUIT => true
  | _ => false
  end.

(** An event that neither toggles the pointer mode nor stops the loop. *)
Definition passive (p : Poll) : bool := negb (is_toggle p) && negb (is_quit p).

(** The sleep between two rounds of polling. *)
Definition is_sleep (c : input_call) : bool :=
  match c with
  | usleep _ => true
  | _ => false
  end.

(** The calls of a run of the event thread, its sleeps left out. *)
Definition without_sleep (t : list input_call) : list input_call :=
  filter (fun c => negb (is_sleep c)) t.

(** The pointer modes that a run asks of the guest, in order. *)
Fixpoint mode_calls (t : list input_call) : list bool :=
  match t with
  | [] => []
  | spice_mouse_mode m :: t' => m :: mode_calls t'
  | _ :: t' => mode_calls t'
  end.

(** ** Sample inputs *)

Definition sample_magic : buffer := [x5b; x5b; x4b; x56; x4d].

(** A header for a frame of one pixel. *)
Definition sample_header (t : FrameType) (c : FrameComp) : KVMGFXHeader :=
  {| magic := sample_magic; version := 2; hostID := 0; guestID := 1;
     frameType := t; compType := c; width := 1; height := 1; stride := 1;
     mouseX := 320; mouseY := 240 |}.

Definition sample_pass (t : FrameType) (c : FrameComp)
  (rs : list IVSHMEM_WAIT_RESULT) : Pass :=
  {| shm := sample_header t c; payload := [x80; x80; x80]; irqs := rs;
     texture_created := true; fresh_pixels := [x09; x09; x09] |}.

(** A pass that finds shared memory not yet initialised by the guest. *)
Definition sample_stale_pass : Pass :=
  {| shm := {| magic := []; version := 0; hostID := 0; guestID := 0;
               frameType := FRAME_TYPE_INVALID;
               compType := FRAME_COMP_NONE; width := 0; height := 0;
               stride := 0; mouseX := 0; mouseY := 0 |};
     payload := []; irqs := []; texture_created := false;
     fresh_pixels := [] |}.

(** A frame of width 0, for which [SDL_CreateTexture] returns NULL. *)
Definition sample_empty_pass : Pass :=
  {| shm := {| magic := sample_magic; version := 2; hostID := 0;
               guestID := 1; frameType := FRAME_TYPE_RGB;
               compType := FRAME_COMP_NONE; width := 0; height := 1;
               stride := 0; mouseX := 320; mouseY := 240 |};
     payload := []; irqs := [IVSHMEM_WAIT_RESULT_OK];
     texture_created := false; fresh_pixels := [] |}.

Definition sample_stack : KVMGFXHeader :=
  sample_header FRAME_TYPE_INVALID FRAME_COMP_NONE.

Definition state_at_launch : KVMGFXState :=
  {| running := true; started := false; windowChanged := false |}.

Definition state_streaming : KVMGFXState :=
  {| running := true; started := true; windowChanged := false |}.

Definition sample_table : list Z := [0; 41; 30].

Definition sample_poll (e : SDL_Event) : Poll :=
  {| event := e;
     poll_shm := sample_header FRAME_TYPE_RGB FRAME_COMP_NONE;
     spice_ok1 := true; spice_ok2 := true |}.

(** ** Vocabulary of the further properties *)

Definition is_kick (c : render_call) : bool :=
  match c with
  | ivshmem_kick_irq _ => true
  | _ => false
  end.

Definition is_present (c : render_call) : bool :=
  match c with
  | SDL_RenderPresent => true
  | _ => false
  end.

Definition is_create (c : render_call) : bool :=
  match c with
  | SDL_CreateTexture _ _ _ => true
  | _ => false
  end.

(** Calls that bring the pixels of the frame to the texture. *)
Definition is_transfer (c : render_call) : bool :=
  match c with
  | run_compFunc _ _ | SDL_UpdateTexture _
  | SDL_UpdateYUVTexture _ _ _ _ _ => true
  | _ => false
  end.

(** How far a presenter call has come. *)
Inductive phase : Type :=
| Idle
| Transferred
| Acknowledged
| Presented.

(** [None]: a transfer, an acknowledging kick or a present out of turn. *)
Definition phase_step (ph : phase) (c : render_call) : option phase :=
  if is_transfer c then
    match ph with Idle => Some Transferred | _ => None end
  else if is_kick c then
    match ph with Transferred => Some Acknowledged | _ => None end
  else if is_present c then
    match ph with Acknowledged => Some Presented | _ => None end
  else Some ph.

Fixpoint phase_run (ph : phase) (t : list render_call) : option phase :=
  match t with
  | [] => Some ph
  | c :: t' =>
      match phase_step ph c with
      | Some ph' => phase_run ph' t'
      | None => None
      end
  end.

(** What the render thread holds of a texture: nothing, the result of
    a creation that the lock call has not settled yet, or a texture. *)
Inductive tex_state : Type :=
| NoTexture
| Created
| Held.

(** [None]: a texture is created while one is held, so that its handle
    is overwritten; the creation is not directly followed by the lock
    call; [SDL_DestroyTexture] is given a texture that is not held, or
    NULL while one is held.  The calls of the presenters are let
    through in every state: they are made with NULL after a creation
    that failed. *)
Definition tex_step (s : tex_state) (c : render_call) : option tex_state :=
  match c, s with
  | SDL_CreateTexture _ _ _, NoTexture => Some Created
  | SDL_CreateTexture _ _ _, _ => None
  | SDL_LockTexture, Created => Some Held
  | SDL_LockTexture_NULL, Created => Some NoTexture
  | SDL_LockTexture, _ => None
  | SDL_LockTexture_NULL, _ => None
  | SDL_DestroyTexture true, Held => Some NoTexture
  | SDL_DestroyTexture false, NoTexture => Some NoTexture
  | SDL_DestroyTexture _, _ => None
  | _, Created => None
  | _, _ => Some s
  end.

Fixpoint tex_run (s : tex_state) (t : list render_call) : option tex_state :=
  match t with
  | [] => Some s
  | c :: t' =>
      match tex_step s c with
      | Some s' => tex_run s' t'
      | None => None
      end
  end.

(** What the locals of [renderThread] hold. *)
Definition held (loc : RenderLocals) : tex_state :=
  match texture loc with
  | Some _ => Held
  | None => NoTexture
  end.

(** The locals of [renderThread] agree with [s], and a valid cached
    format comes with both function pointers. *)
Definition render_consistent (loc : RenderLocals) (s : tex_state) : Prop :=
  s = held loc /\
  (frameType (format loc) <> FRAME_TYPE_INVALID ->
   drawFunc loc <> None /\ compFunc loc <> None).

Definition memory_fault (f : fault) : bool :=
  match f with
  | NullCall => false
  | _ => true
  end.

(** Parity of the first presses of the hotkey in a queue of events. *)
Fixpoint toggle_parity (q : list Poll) : bool :=
  match q with
  | [] => false
  | p :: q' => xorb (is_toggle p) (toggle_parity q')
  end.

(** Whether [SDL_CreateThread] returned a handle for the thread. *)
Definition thread_ok (b : Boot) (x : thread_name) : bool :=
  match x with
  | the_ivshmemThread => t_ivshmem_ok b
  | the_spiceThread => t_spice_ok b
  | the_eventThread => t_event_ok b
  end.

(** The thread handles that [main] holds and how far its shutdown has
    come: 0 before [ivshmem_disconnect], 1 after it, 2 after
    [SDL_Quit]. *)
Record shutdown_state : Type := {
  held_ivshmem : bool;
  held_spice   : bool;
  held_event   : bool;
  stage        : nat
}.

Definition no_threads : shutdown_state :=
  {| held_ivshmem := false; held_spice := false; held_event := false;
     stage := 0 |}.

(** [None]: a thread is joined that is not held or out of turn, the
    transport is disconnected while the event thread is still held,
    [SDL_Quit] is called while a thread is still held, or something is
    called after [SDL_Quit]. *)
Definition shutdown_step (b : Boot) (s : shutdown_state) (c : main_call)
  : option shutdown_state :=
  match stage s, c with
  | 2%nat, _ => None
  | 0%nat, SDL_CreateThread the_ivshmemThread =>
      Some {| held_ivshmem := thread_ok b the_ivshmemThread;
              held_spice := held_spice s; held_event := held_event s;
              stage := 0 |}
  | 0%nat, SDL_CreateThread the_spiceThread =>
      Some {| held_ivshmem := held_ivshmem s;
              held_spice := thread_ok b the_spiceThread;
              held_event := held_event s; stage := 0 |}
  | 0%nat, SDL_CreateThread the_eventThread =>
      Some {| held_ivshmem := held_ivshmem s; held_spice := held_spice s;
              held_event := thread_ok b the_eventThread; stage := 0 |}
  | _, SDL_CreateThread _ => None
  | 0%nat, SDL_WaitThread the_eventThread =>
      if held_event s
      then Some {| held_ivshmem := held_ivshmem s;
                   held_spice := held_spice s; held_event := false;
                   stage := 0 |}
      else None
  | 0%nat, ivshmem_disconnect =>
      if held_event s then None
      else Some {| held_ivshmem := held_ivshmem s;
                   held_spice := held_spice s; held_event := false;
                   stage := 1 |}
  | 1%nat, SDL_WaitThread the_ivshmemThread =>
      if held_ivshmem s
      then Some {| held_ivshmem := false; held_spice := held_spice s;
                   held_event := false; stage := 1 |}
      else None
  | 1%nat, SDL_WaitThread the_spiceThread =>
      if held_spice s && negb (held_ivshmem s)
      then Some {| held_ivshmem := false; held_spice := false;
                   held_event := false; stage := 1 |}
      else None
  | _, SDL_WaitThread _ => None
  | _, ivshmem_disconnect => None
  | 1%nat, SDL_Quit =>
      if held_ivshmem s || held_spice s then None
      else Some {| held_ivshmem := false; held_spice := false;
                   held_event := false; stage := 2 |}
  | _, SDL_Quit => None
  | _, _ => Some s
  end.

Fixpoint shutdown_run (b : Boot) (s : shutdown_state) (t : list main_call)
  : option shutdown_state :=
  match t with
  | [] => Some s
  | c :: t' =>
      match shutdown_step b s c with
      | Some s' => shutdown_run b s' t'
      | None => None
      end
  end.

(** Calls of the start of [main], up to the renderer. *)
Definition startup_call (c : main_call) : bool :=
  match c with
  | SDL_Init | SDL_CreateWindow | SDL_CreateCursor | SDL_SetCursor
  | SDL_ShowCursor_DISABLE | SDL_CreateRenderer | main_DEBUG_ERROR _ => true
  | _ => false
  end.

Definition is_render (c : main_call) : bool :=
  match c with
  | render _ => true
  | _ => false
  end.

(** The calls of lines 580-607, in their order. *)
Definition shutdown_calls (b : Boot) (t_ivshmem t_spice t_event : bool)
  : list main_call :=
  (if t_event then [SDL_WaitThread the_eventThread] else [])
    ++ [ivshmem_disconnect]
    ++ (if t_ivshmem then [SDL_WaitThread the_ivshmemThread] else [])
    ++ (if t_spice then [SDL_WaitThread the_spiceThread] else [])
    ++ [SDL_DestroyRenderer; SDL_DestroyWindow]
    ++ (if cursor_ok b then [SDL_FreeCursor] else [])
    ++ [SDL_Quit].

(** The calls of [main] before [ivshmem_connect]. *)
Definition startup_calls : list main_call :=
  [SDL_Init; SDL_CreateWindow; SDL_CreateCursor; SDL_SetCursor;
   SDL_ShowCursor_DISABLE; SDL_CreateRenderer].

(** Calls that create or join a thread, disconnect the transport or
    shut SDL down. *)
Definition lifecycle_call (c : main_call) : bool :=
  match c with
  | SDL_CreateThread _ | SDL_WaitThread _ | ivshmem_disconnect
  | SDL_Quit => true
  | _ => false
  end.

(** The calls of [main] from [ivshmem_connect] to [spice_connect]. *)
Definition connect_calls (b : Boot) : list main_call :=
  [ivshmem_connect; SDL_CreateThread the_ivshmemThread; ivshmem_get_map;
   ivshmem_get_id; set_hostID (local_id b); spice_connect].

Definition init_ok (b : Boot) : bool :=
  sdl_init_ok b && window_ok b && renderer_ok b.

Definition transport_ok (b : Boot) : bool :=
  ivshmem_connect_ok b && t_ivshmem_ok b && map_ok b.

(** [k] turns of the handshake loop in which [spice_process]
    succeeds. *)
Definition handshake_calls (k : nat) : list main_call :=
  concat (repeat [spice_ready; main_spice_process] k).

(** A start of the client: [sdl], [spice] and [hs] are the results of
    [SDL_Init], of [spice_connect] and of the handshake turns, [ps] what
    the render loop finds. *)
Definition sample_boot (sdl spice : bool) (hs : list Handshake)
  (ps : list Pass) : Boot :=
  {| sdl_init_ok := sdl; window_ok := true; cursor_ok := true;
     renderer_ok := true; ivshmem_connect_ok := true;
     t_ivshmem_ok := true; map_ok := true; local_id := 1;
     spice_connect_ok := spice; handshake_turns := hs;
     t_spice_ok := true; t_event_ok := true;
     render_stack := sample_stack; render_passes := ps |}.

(** The pointer displacement that reached the guest: the sum of the
    relative motions whose send was not reported as failed. *)
Fixpoint delivered_motion (t : list input_call) : Z * Z :=
  match t with
  | [] => (0, 0)
  | spice_mouse_motion dx dy :: t' =>
      match t' with
      | input_DEBUG_ERROR _ :: _ => delivered_motion t'
      | _ => (dx + fst (delivered_motion t'), dy + snd (delivered_motion t'))
      end
  | _ :: t' => delivered_motion t'
  end.

(** A motion event whose window coordinates are far from the ends of
    [int]. *)
Definition small_motion (p : Poll) : bool :=
  match event p with
  | SDL_MOUSEMOTION x y _ _ =>
      (- 2 ^ 30 <=? x) && (x <? 2 ^ 30) && (- 2 ^ 30 <=? y) && (y <? 2 ^ 30)
  | _ => false
  end.

(** The window position of the last motion event of [q] whose send
    succeeded, [d] if there is none. *)
Fixpoint last_sent (q : list Poll) (d : Z * Z) : Z * Z :=
  match q with
  | [] => d
  | p :: q' =>
      match event p with
      | SDL_MOUSEMOTION x y _ _ =>
          last_sent q' (if spice_ok1 p then (x, y) else d)
      | _ => last_sent q' d
      end
  end.

(** A motion of the cursor to ([x], [y]) whose send succeeds or not. *)
Definition sample_motion (x y : Z) (ok : bool) : Poll :=
  {| event := SDL_MOUSEMOTION x y 0 0;
     poll_shm := sample_header FRAME_TYPE_RGB FRAME_COMP_NONE;
     spice_ok1 := ok; spice_ok2 := true |}.

(** The locals of the event thread once it has synchronised with the
    guest cursor of the sample header. *)
Definition sample_tracking : EventLocals :=
  {| serverMode := false; ev_mouseX := 320; ev_mouseY := 240;
     init := true |}.

(** * Properties *)

(** ** Buffers *)

Lemma size_nonneg (b : buffer) : 0 <= size b.
Proof. unfold size. lia. Qed.

Lemma size_app (a b : buffer) : size (a ++ b) = size a + size b.
Proof. unfold size. rewrite length_app. lia. Qed.

Lemma unsigned_range (b : byte) : 0 <= unsigned b < 256.
Proof.
  unfold unsigned. pose proof (Byte.to_N_bounded b). lia.
Qed.

Lemma le_combine_range (l : buffer) :
  0 <= le_combine l < 2 ^ (8 * Z.of_nat (length l)).
Proof.
  induction l as [|b t IH]; cbn [le_combine length].
  - cbn. lia.
  - pose proof (unsigned_range b) as Hb.
    replace (8 * Z.of_nat (S (length t))) with (8 + 8 * Z.of_nat (length t))
      by lia.
    rewrite Z.pow_add_r by lia.
    change (2 ^ 8) with 256. nia.
Qed.

Lemma load_app_r (pre suf : buffer) (j : Z) :
  0 <= j -> load (pre ++ suf) (size pre + j) = load suf j.
Proof.
  unfold load, size. intros H.
  destruct (Z.ltb_spec (Z.of_nat (length pre) + j) 0); [lia|].
  destruct (Z.ltb_spec j 0); [lia|].
  rewrite nth_error_app2 by lia. f_equal. lia.
Qed.

Lemma load_some_lt (b : buffer) (o : Z) (x : byte) :
  load b o = Some x -> 0 <= o < size b.
Proof.
  unfold load, size. destruct (Z.ltb_spec o 0); [discriminate|].
  intros E. assert (Hn : nth_error b (Z.to_nat o) <> None) by congruence.
  apply nth_error_Some in Hn. lia.
Qed.

Lemma slice_length (b : buffer) (o n : Z) (d : buffer) :
  slice b o n = Some d -> length d = Z.to_nat n.
Proof.
  unfold slice, size.
  destruct (0 <=? o) eqn:Ho; [|discriminate].
  destruct (0 <=? n) eqn:Hn; [|discriminate].
  destruct (o + n <=? Z.of_nat (length b)) eqn:Hb; [|discriminate].
  cbn [andb]. intros E. injection E as <-.
  rewrite length_firstn, length_skipn. lia.
Qed.

Lemma blit_app (pre t data : buffer) :
  (length data <= length t)%nat ->
  blit (pre ++ t) (size pre) data
  = Some (pre ++ data ++ skipn (length data) t).
Proof.
  intros H. unfold blit.
  pose proof (size_nonneg pre) as Hp.
  rewrite size_app.
  destruct (Z.leb_spec 0 (size pre)); [|lia].
  destruct (Z.leb_spec (size pre + size data) (size pre + size t));
    [|unfold size in *; lia].
  cbn [andb]. f_equal.
  unfold size.
  rewrite Nat2Z.id.
  replace (Z.to_nat (Z.of_nat (length pre) + Z.of_nat (length data)))
    with (length pre + length data)%nat by lia.
  rewrite firstn_app, firstn_all, Nat.sub_diag. cbn [firstn].
  rewrite app_nil_r. f_equal. f_equal.
  rewrite skipn_app.
  rewrite (skipn_all2 pre) by lia. cbn [app].
  f_equal. lia.
Qed.

Lemma blit_size (b : buffer) (o : Z) (data b' : buffer) :
  blit b o data = Some b' -> size b' = size b.
Proof.
  unfold blit.
  destruct (Z.leb_spec 0 o); [|discriminate].
  destruct (Z.leb_spec (o + size data) (size b)); [|discriminate].
  cbn [andb]. intros E. injection E as <-.
  unfold size in *. rewrite !length_app, length_firstn, length_skipn. lia.
Qed.

Lemma blit_tail (b : buffer) (o : Z) (data b' : buffer) (k : nat) :
  blit b o data = Some b' -> o + size data <= Z.of_nat k ->
  skipn k b' = skipn k b.
Proof.
  unfold blit.
  destruct (Z.leb_spec 0 o); [|discriminate].
  destruct (Z.leb_spec (o + size data) (size b)); [|discriminate].
  cbn [andb]. intros E Hk. injection E as <-.
  unfold size in *.
  rewrite app_assoc, skipn_app.
  assert (Hl : length (firstn (Z.to_nat o) b ++ data)
               = Z.to_nat (o + Z.of_nat (length data))).
  { rewrite length_app, length_firstn. lia. }
  rewrite (skipn_all2 (firstn (Z.to_nat o) b ++ data)) by lia.
  cbn [app]. rewrite Hl, skipn_skipn. f_equal. lia.
Qed.

Lemma blit_some (b : buffer) (o : Z) (data : buffer) :
  0 <= o -> o + size data <= size b -> exists b', blit b o data = Some b'.
Proof.
  intros H1 H2. unfold blit.
  destruct (Z.leb_spec 0 o); [|lia].
  destruct (Z.leb_spec (o + size data) (size b)); [|lia].
  cbn [andb]. eauto.
Qed.

(** ** compFunc_NONE *)

Lemma compFunc_NONE_copies (dst src : buffer) (len : Z) :
  0 <= len -> len <= size src -> len <= size dst ->
  compFunc_NONE dst src len
  = Ok (firstn (Z.to_nat len) src ++ skipn (Z.to_nat len) dst).
Proof.
  intros H0 Hs Hd. unfold compFunc_NONE, memcpy, slice.
  destruct (Z.leb_spec 0 0); [|lia].
  destruct (Z.leb_spec 0 len); [|lia].
  destruct (Z.leb_spec (0 + len) (size src)); [|lia].
  cbn [andb]. change (Z.to_nat 0) with 0%nat. cbn [skipn].
  assert (Hl : length (firstn (Z.to_nat len) src) = Z.to_nat len).
  { rewrite length_firstn. unfold size in *. lia. }
  pose proof (blit_app [] dst (firstn (Z.to_nat len) src)) as B.
  cbn [app] in B. change (size []) with 0 in B.
  rewrite B by (unfold size in *; lia).
  now rewrite Hl.
Qed.

(** ** compFunc_BLACK_RLE *)

Section BlackRLE.

Variable L : RLELayout.

(** The body on a unit that is not all zero: three bytes are copied and
    every loop variable moves by one pixel. *)
Lemma rle_step_copy (pixels : Z) (src : buffer) (c : cursor)
  (b0 b1 b2 : byte) (o : buffer) :
  px c < pixels ->
  load src (spos c) = Some b0 ->
  load src (spos c + 1) = Some b1 ->
  load src (spos c + 2) = Some b2 ->
  is_zero b0 && is_zero b1 && is_zero b2 = false ->
  blit (out c) (dpos c) [b0; b1; b2] = Some o ->
  rle_step L pixels src c
  = Next {| px := wrap64 (px c + 1); dpos := dpos c + 3;
            spos := spos c + 3; out := o |}.
Proof.
  intros Hp E0 E1 E2 Hz Hb. unfold rle_step.
  destruct (Z.ltb_spec (px c) pixels); [|lia].
  now rewrite E0, E1, E2, Hz, Hb.
Qed.

(** The body on an all-zero unit: the unit is read as a run header and
    nothing is written. *)
Lemma rle_step_run (pixels : Z) (src : buffer) (c : cursor) (n : Z) :
  px c < pixels ->
  load src (spos c) = Some x00 ->
  load src (spos c + 1) = Some x00 ->
  load src (spos c + 2) = Some x00 ->
  rle_length L src (spos c) = Some n ->
  rle_step L pixels src c
  = Next {| px := wrap64 (px c + n); dpos := dpos c + rle_times3 L n;
            spos := spos c + rle_sizeof L; out := out c |}.
Proof.
  intros Hp E0 E1 E2 Hn. unfold rle_step.
  destruct (Z.ltb_spec (px c) pixels); [|lia].
  now rewrite E0, E1, E2, Hn.
Qed.

Lemma rle_length_range (src : buffer) (s n : Z) :
  rle_length L src s = Some n ->
  0 <= n < 2 ^ (8 * Z.of_nat (rle_len_bytes L)).
Proof.
  unfold rle_length.
  destruct (slice src (s + rle_len_off L) (Z.of_nat (rle_len_bytes L)))
    as [d|] eqn:E; [|discriminate].
  cbn [option_map]. intros H. injection H as <-.
  apply slice_length in E. rewrite Nat2Z.id in E.
  rewrite <- E. apply le_combine_range.
Qed.

Lemma rle_times3_exact (n : Z) :
  0 <= n -> 3 * n < 2 ^ 32 -> rle_times3 L n = 3 * n.
Proof.
  intros H0 H. unfold rle_times3.
  destruct (rle_len_bytes L <? 4)%nat eqn:E; [lia|].
  apply Nat.ltb_ge in E.
  assert (2 ^ 32 <= 2 ^ (8 * Z.of_nat (rle_len_bytes L)))
    by (apply Z.pow_le_mono_r; lia).
  rewrite Z.mod_small; lia.
Qed.

Lemma rle_times3_range (n : Z) :
  0 <= n -> 0 <= rle_times3 L n <= 3 * n.
Proof.
  intros H. unfold rle_times3.
  destruct (rle_len_bytes L <? 4)%nat; [lia|].
  assert (0 < 2 ^ (8 * Z.of_nat (rle_len_bytes L)))
    by (apply Z.pow_pos_nonneg; lia).
  pose proof (Z.mod_pos_bound (n * 3) _ H0).
  pose proof (Z.mod_le (n * 3) (2 ^ (8 * Z.of_nat (rle_len_bytes L)))).
  lia.
Qed.

Lemma wrap64_small (z : Z) : 0 <= z < 2 ^ 64 -> wrap64 z = z.
Proof. intros H. unfold wrap64. now apply Z.mod_small. Qed.

(** Every iteration moves the source pointer by at least three bytes
    that lie inside the payload, so the loop ends within its bound. *)
Lemma rle_step_advances (pixels : Z) (src : buffer) (c c' : cursor) :
  rle_step L pixels src c = Next c' ->
  spos c + 3 <= spos c' /\ spos c + 3 <= size src.
Proof.
  unfold rle_step.
  destruct (px c <? pixels); [|discriminate].
  destruct (load src (spos c)) as [b0|]; [|discriminate].
  destruct (load src (spos c + 1)) as [b1|]; [|discriminate].
  destruct (load src (spos c + 2)) as [b2|] eqn:E2; [|discriminate].
  apply load_some_lt in E2.
  destruct (is_zero b0 && is_zero b1 && is_zero b2).
  - destruct (rle_length L src (spos c)); [|discriminate].
    intros H. injection H as <-. cbn [spos]. unfold rle_sizeof. lia.
  - destruct (blit (out c) (dpos c) [b0; b1; b2]); [|discriminate].
    intros H. injection H as <-. cbn [spos]. lia.
Qed.

Lemma rle_loop_total (pixels : Z) (src : buffer) (fuel : nat) :
  forall c : cursor,
    size src - spos c < 3 * (Z.of_nat fuel + 1) ->
    rle_loop fuel L pixels src c <> None.
Proof.
  induction fuel as [|fuel IH]; intros c Hm; cbn [rle_loop];
    destruct (rle_step L pixels src c) as [|c'|f] eqn:E;
    try discriminate; apply rle_step_advances in E.
  - lia.
  - apply IH. lia.
Qed.

Lemma rle_decode_total (dst src : buffer) (len : Z) :
  rle_decode L dst src len <> None.
Proof.
  unfold rle_decode. apply rle_loop_total.
  unfold rle_start, size. cbn [spos]. lia.
Qed.

(** A payload without zero units is copied unit by unit. *)
Lemma rle_loop_copy (m : nat) :
  forall (fuel : nat) (pre suf t : buffer) (k : Z),
    (m <= fuel)%nat ->
    zero_unit_free m suf = true ->
    size pre = 3 * k -> 0 <= k -> k + Z.of_nat m < 2 ^ 64 ->
    (3 * m <= length t)%nat ->
    rle_loop fuel L (k + Z.of_nat m) (pre ++ suf)
      {| px := k; dpos := 3 * k; spos := 3 * k; out := pre ++ t |}
    = Some (Ok {| px := k + Z.of_nat m; dpos := 3 * (k + Z.of_nat m);
                  spos := 3 * (k + Z.of_nat m);
                  out := pre ++ firstn (3 * m) suf ++ skipn (3 * m) t |}).
Proof.
  induction m as [|m IH]; intros fuel pre suf t k Hf Hz Hp Hk Hb Ht.
  - replace (k + Z.of_nat 0) with k by lia.
    destruct fuel; cbn [rle_loop]; unfold rle_step; cbn [px];
      rewrite Z.ltb_irrefl; reflexivity.
  - destruct fuel as [|fuel]; [lia|].
    cbn [zero_unit_free] in Hz.
    destruct suf as [|b0 [|b1 [|b2 rest]]]; try discriminate.
    apply andb_true_iff in Hz. destruct Hz as [Hnz Hrest].
    apply negb_true_iff in Hnz.
    assert (E0 : load (pre ++ b0 :: b1 :: b2 :: rest) (3 * k) = Some b0).
    { rewrite <- Hp, <- (Z.add_0_r (size pre)), load_app_r by lia.
      reflexivity. }
    assert (E1 : load (pre ++ b0 :: b1 :: b2 :: rest) (3 * k + 1) = Some b1).
    { rewrite <- Hp, load_app_r by lia. reflexivity. }
    assert (E2 : load (pre ++ b0 :: b1 :: b2 :: rest) (3 * k + 2) = Some b2).
    { rewrite <- Hp, load_app_r by lia. reflexivity. }
    assert (B : blit (pre ++ t) (3 * k) [b0; b1; b2]
                = Some (pre ++ [b0; b1; b2] ++ skipn 3 t)).
    { rewrite <- Hp. apply blit_app. cbn [length]. lia. }
    cbn [rle_loop].
    rewrite (rle_step_copy (k + Z.of_nat (S m))
               (pre ++ b0 :: b1 :: b2 :: rest)
               {| px := k; dpos := 3 * k; spos := 3 * k; out := pre ++ t |}
               b0 b1 b2 (pre ++ [b0; b1; b2] ++ skipn 3 t));
      cbn [px dpos spos out]; try assumption; [|lia].
    rewrite wrap64_small by lia.
    replace (k + Z.of_nat (S m)) with ((k + 1) + Z.of_nat m) by lia.
    replace (3 * k + 3) with (3 * (k + 1)) by lia.
    replace (pre ++ b0 :: b1 :: b2 :: rest)
      with ((pre ++ [b0; b1; b2]) ++ rest)
      by (rewrite <- app_assoc; reflexivity).
    replace (pre ++ [b0; b1; b2] ++ skipn 3 t)
      with ((pre ++ [b0; b1; b2]) ++ skipn 3 t)
      by (rewrite <- app_assoc; reflexivity).
    rewrite (IH fuel (pre ++ [b0; b1; b2]) rest (skipn 3 t) (k + 1));
      try assumption; try lia.
    + do 3 f_equal.
      replace (3 * S m)%nat with (S (S (S (3 * m)))) by lia.
      cbn [firstn]. rewrite <- app_assoc. cbn [app].
      rewrite skipn_skipn.
      replace (3 * m + 3)%nat with (S (S (S (3 * m)))) by lia.
      reflexivity.
    + rewrite size_app. unfold size at 2. cbn [length]. lia.
    + rewrite length_skipn. lia.
Qed.

Lemma zero_unit_free_length (m : nat) (src : buffer) :
  zero_unit_free m src = true -> (3 * m <= length src)%nat.
Proof.
  revert src. induction m as [|m IH]; intros src H; [lia|].
  cbn [zero_unit_free] in H.
  destruct src as [|b0 [|b1 [|b2 rest]]]; try discriminate.
  apply andb_true_iff in H. destruct H as [_ H].
  apply IH in H. cbn [length]. lia.
Qed.

Lemma compFunc_BLACK_RLE_copies (dst src : buffer) (len : Z) :
  0 <= len < 2 ^ 64 -> len <= size dst ->
  zero_unit_free (Z.to_nat (len / 3)) src = true ->
  compFunc_BLACK_RLE L dst src len
  = Ok (firstn (3 * Z.to_nat (len / 3)) src
          ++ skipn (3 * Z.to_nat (len / 3)) dst).
Proof.
  intros Hl Hd Hz.
  pose proof (zero_unit_free_length _ _ Hz) as Hs.
  assert (Hq : 0 <= len / 3) by (apply Z.div_pos; lia).
  assert (Hq3 : 3 * (len / 3) <= len) by (apply Z.mul_div_le; lia).
  unfold compFunc_BLACK_RLE, rle_decode, rle_start.
  pose proof (rle_loop_copy (Z.to_nat (len / 3)) (length src) [] src dst 0)
    as R.
  cbn [app] in R. rewrite Z2Nat.id in R by lia.
  change (3 * 0) with 0 in R. cbn [Z.add] in R.
  unfold size in Hd.
  rewrite R; [reflexivity|lia|assumption|reflexivity|lia|lia|lia].
Qed.

End BlackRLE.

(** *** Bounds of the decoder *)

Section BlackRLEBounds.

Variable L : RLELayout.
Variable dst src : buffer.
Variable pixels : Z.

Hypothesis len_field : (rle_len_bytes L < 8)%nat.
Hypothesis pixels_nonneg : 0 <= pixels.
Hypothesis pixels_size_t : 3 * pixels < 2 ^ 64.
Hypothesis dst_room : 3 * pixels <= size dst.

Lemma rle_inv_start : rle_invariant L dst pixels (rle_start dst).
Proof.
  unfold rle_invariant, rle_start. cbn [px dpos spos out].
  assert (0 < 2 ^ (8 * Z.of_nat (rle_len_bytes L)))
    by (apply Z.pow_pos_nonneg; lia).
  repeat split; lia.
Qed.

Lemma len_field_bound :
  2 ^ (8 * Z.of_nat (rle_len_bytes L)) <= 2 ^ 56.
Proof. apply Z.pow_le_mono_r; lia. Qed.

Lemma rle_step_inv (c : cursor) :
  rle_invariant L dst pixels c ->
  match rle_step L pixels src c with
  | Halt => pixels <= px c
  | Next c' =>
      rle_invariant L dst pixels c' /\
      spos c + 3 <= spos c' /\ spos c + 3 <= size src
  | Stuck f => exists o, f = ReadOutOfBounds o
  end.
Proof.
  intros (Hpx & Hd & Hs & Hsz & Htl).
  pose proof len_field_bound as HB.
  unfold rle_step.
  destruct (Z.ltb_spec (px c) pixels) as [Hlt|Hge]; [|exact Hge].
  destruct (load src (spos c)) as [b0|] eqn:E0; [|eauto].
  destruct (load src (spos c + 1)) as [b1|] eqn:E1; [|eauto].
  destruct (load src (spos c + 2)) as [b2|] eqn:E2; [|eauto].
  pose proof (load_some_lt _ _ _ E2) as Hin.
  destruct (is_zero b0 && is_zero b1 && is_zero b2).
  - destruct (rle_length L src (spos c)) as [n|] eqn:En; [|eauto].
    pose proof (rle_length_range L _ _ _ En) as Hn.
    pose proof (rle_times3_range L n (proj1 Hn)) as Ht.
    unfold rle_invariant. cbn [px dpos spos out].
    rewrite wrap64_small by lia.
    unfold rle_sizeof.
    repeat split; try assumption; lia.
  - destruct (blit_some (out c) (dpos c) [b0; b1; b2]) as [o Ho].
    + lia.
    + rewrite Hsz. unfold size at 1. cbn [length]. lia.
    + rewrite Ho. unfold rle_invariant. cbn [px dpos spos out].
      rewrite wrap64_small by lia.
      repeat split; try lia.
      * apply blit_size in Ho. congruence.
      * rewrite <- Htl. apply (blit_tail _ _ _ _ _ Ho).
        unfold size. cbn [length]. lia.
Qed.

(** The loop ends within its bound, on a cursor that satisfies the
    invariant or on a read outside the payload. *)
Lemma rle_loop_inv (fuel : nat) :
  forall c : cursor,
    rle_invariant L dst pixels c ->
    size src - spos c < 3 * (Z.of_nat fuel + 1) ->
    exists r, rle_loop fuel L pixels src c = Some r /\
      match r with
      | Ok c' => rle_invariant L dst pixels c' /\ pixels <= px c'
      | Fault f => exists o, f = ReadOutOfBounds o
      end.
Proof.
  induction fuel as [|fuel IH]; intros c Hc Hm; cbn [rle_loop];
    pose proof (rle_step_inv c Hc) as S;
    destruct (rle_step L pixels src c) as [|c'|f].
  - eexists; split; [reflexivity|]. split; assumption.
  - lia.
  - eexists; split; [reflexivity|]. assumption.
  - eexists; split; [reflexivity|]. split; assumption.
  - destruct S as (Hc' & H1 & H2). apply IH; [assumption|lia].
  - eexists; split; [reflexivity|]. assumption.
Qed.

End BlackRLEBounds.

(** *** The codec claims *)

(** C1 (amended).  [compFunc_BLACK_RLE] scans the payload in 3-byte
    units.  On an all-zero unit it reads a run header of length [n],
    moves the pixel counter by [n] and the destination pointer by [3 * n]
    and writes nothing; on any other unit it copies the three bytes and
    moves by one pixel.  A payload whose [len / 3] units are all non-zero
    is therefore copied over the first [3 * (len / 3)] bytes of the
    destination, the last [len mod 3] bytes of which stay as they were;
    when [len] is a multiple of 3 this is what [compFunc_NONE] writes. *)
Theorem compFunc_BLACK_RLE_units (L : RLELayout) (dst src : buffer)
  (len : Z) :
  0 <= len < 2 ^ 64 ->
  len <= size dst ->
  (forall (c : cursor) (n : Z),
      0 <= px c < len / 3 ->
      load src (spos c) = Some x00 ->
      load src (spos c + 1) = Some x00 ->
      load src (spos c + 2) = Some x00 ->
      rle_length L src (spos c) = Some n ->
      (rle_len_bytes L < 4)%nat \/ 3 * n < 2 ^ 32 ->
      rle_step L (len / 3) src c
      = Next {| px := px c + n; dpos := dpos c + 3 * n;
                spos := spos c + rle_sizeof L; out := out c |}) /\
  (forall (c : cursor) (b0 b1 b2 : byte) (o : buffer),
      0 <= px c < len / 3 ->
      load src (spos c) = Some b0 ->
      load src (spos c + 1) = Some b1 ->
      load src (spos c + 2) = Some b2 ->
      is_zero b0 && is_zero b1 && is_zero b2 = false ->
      blit (out c) (dpos c) [b0; b1; b2] = Some o ->
      rle_step L (len / 3) src c
      = Next {| px := px c + 1; dpos := dpos c + 3;
                spos := spos c + 3; out := o |}) /\
  (zero_unit_free (Z.to_nat (len / 3)) src = true ->
   compFunc_BLACK_RLE L dst src len
   = Ok (firstn (3 * Z.to_nat (len / 3)) src
           ++ skipn (3 * Z.to_nat (len / 3)) dst)) /\
  (zero_unit_free (Z.to_nat (len / 3)) src = true ->
   len mod 3 = 0 ->
   compFunc_BLACK_RLE L dst src len = compFunc_NONE dst src len).
Proof.
  intros Hl Hd.
  assert (Hq : 0 <= len / 3) by (apply Z.div_pos; lia).
  assert (Hq3 : 3 * (len / 3) <= len) by (apply Z.mul_div_le; lia).
  split; [|split; [|split]].
  - intros c n Hp E0 E1 E2 En Hn.
    pose proof (rle_length_range L _ _ _ En) as Hr.
    rewrite (rle_step_run L _ _ _ n) by (assumption || lia).
    assert (Hn' : n < 2 ^ 32).
    { destruct Hn as [Hw|Hn]; [|lia].
      assert (2 ^ (8 * Z.of_nat (rle_len_bytes L)) <= 2 ^ 32)
        by (apply Z.pow_le_mono_r; lia).
      lia. }
    rewrite wrap64_small by lia.
    replace (rle_times3 L n) with (3 * n); [reflexivity|].
    destruct Hn as [Hw|Hn]; [|now rewrite rle_times3_exact by lia].
    unfold rle_times3. apply Nat.ltb_lt in Hw. rewrite Hw. lia.
  - intros c b0 b1 b2 o Hp E0 E1 E2 Hnz Hb.
    rewrite (rle_step_copy L _ _ _ b0 b1 b2 o) by (assumption || lia).
    rewrite wrap64_small by lia. reflexivity.
  - intros Hz. now apply compFunc_BLACK_RLE_copies.
  - intros Hz Hm.
    pose proof (zero_unit_free_length _ _ Hz) as Hs.
    assert (E : len = 3 * (len / 3)).
    { rewrite (Z.div_mod len 3) at 1 by lia. lia. }
    rewrite compFunc_BLACK_RLE_copies by assumption.
    rewrite compFunc_NONE_copies by (unfold size in *; lia).
    replace (3 * Z.to_nat (len / 3))%nat with (Z.to_nat len) by lia.
    reflexivity.
Qed.

Lemma compFunc_BLACK_RLE_units_witness :
  compFunc_BLACK_RLE RLEHeader_packed16 [x09; x09; x09; x09; x09; x09]
    [x01; x02; x03; x00; x00; x07] 6
  = compFunc_NONE [x09; x09; x09; x09; x09; x09]
      [x01; x02; x03; x00; x00; x07] 6.
Proof.
  refine (proj2 (proj2 (proj2
            (compFunc_BLACK_RLE_units RLEHeader_packed16
               [x09; x09; x09; x09; x09; x09]
               [x01; x02; x03; x00; x00; x07] 6 _ _))) _ _).
  - lia.
  - vm_compute. discriminate.
  - reflexivity.
  - reflexivity.
Defined.

(** C1, as stated, fails when [len] is not a multiple of 3: the payload
    has no zero unit, [compFunc_NONE] copies four bytes and
    [compFunc_BLACK_RLE] copies three. *)
Lemma compFunc_BLACK_RLE_not_NONE :
  zero_unit_free (Z.to_nat (4 / 3)) [x01; x02; x03; x04] = true /\
  compFunc_NONE [x09; x09; x09; x09] [x01; x02; x03; x04] 4
  = Ok [x01; x02; x03; x04] /\
  compFunc_BLACK_RLE RLEHeader_packed16 [x09; x09; x09; x09]
    [x01; x02; x03; x04] 4
  = Ok [x01; x02; x03; x09] /\
  compFunc_BLACK_RLE RLEHeader_packed16 [x09; x09; x09; x09]
    [x01; x02; x03; x04] 4
  <> compFunc_NONE [x09; x09; x09; x09] [x01; x02; x03; x04] 4.
Proof.
  repeat split; try reflexivity.
  vm_compute. discriminate.
Qed.

(** C10 (amended).  For a destination of at least [len] bytes the
    decoder ends, and it stops early only on a read outside the
    payload, never on a write: every write lands in the first
    [3 * (len / 3)] bytes of the destination, whose size and remaining
    bytes are unchanged.  The pixel counter is tested against [len / 3]
    before each unit is read; at the end it has reached [len / 3] and
    passed it by less than the largest value of a run header. *)
Theorem compFunc_BLACK_RLE_writes_in_bounds (L : RLELayout)
  (dst src : buffer) (len : Z) :
  (rle_len_bytes L < 8)%nat ->
  0 <= len < 2 ^ 64 ->
  len <= size dst ->
  exists r : res cursor,
    rle_decode L dst src len = Some r /\
    match r with
    | Ok c =>
        compFunc_BLACK_RLE L dst src len = Ok (out c) /\
        size (out c) = size dst /\
        skipn (Z.to_nat (3 * (len / 3))) (out c)
        = skipn (Z.to_nat (3 * (len / 3))) dst /\
        len / 3 <= px c < len / 3 + 2 ^ (8 * Z.of_nat (rle_len_bytes L))
    | Fault f =>
        compFunc_BLACK_RLE L dst src len = Fault f /\
        exists o, f = ReadOutOfBounds o
    end.
Proof.
  intros Hw Hl Hd.
  assert (Hq : 0 <= len / 3) by (apply Z.div_pos; lia).
  assert (Hq3 : 3 * (len / 3) <= len) by (apply Z.mul_div_le; lia).
  destruct (rle_loop_inv L dst src (len / 3) Hw ltac:(lia) ltac:(lia)
              (length src) (rle_start dst)) as (r & Er & Hr).
  - apply rle_inv_start; lia.
  - unfold rle_start, size. cbn [spos]. lia.
  - exists r. unfold compFunc_BLACK_RLE, rle_decode. rewrite Er.
    split; [reflexivity|].
    destruct r as [c|f].
    + destruct Hr as ((Hpx & _ & _ & Hsz & Htl) & Hge).
      repeat split; try assumption; lia.
    + split; [reflexivity|assumption].
Qed.

Lemma compFunc_BLACK_RLE_writes_in_bounds_witness :
  exists r : res cursor,
    rle_decode RLEHeader_packed16 [x09; x09; x09; x09; x09; x09]
      [x00; x00; x00; x05; x00; x07] 6 = Some r /\
    match r with
    | Ok c =>
        compFunc_BLACK_RLE RLEHeader_packed16 [x09; x09; x09; x09; x09; x09]
          [x00; x00; x00; x05; x00; x07] 6 = Ok (out c) /\
        size (out c) = size [x09; x09; x09; x09; x09; x09] /\
        skipn (Z.to_nat (3 * (6 / 3))) (out c)
        = skipn (Z.to_nat (3 * (6 / 3))) [x09; x09; x09; x09; x09; x09] /\
        6 / 3 <= px c
        < 6 / 3 + 2 ^ (8 * Z.of_nat (rle_len_bytes RLEHeader_packed16))
    | Fault f =>
        compFunc_BLACK_RLE RLEHeader_packed16 [x09; x09; x09; x09; x09; x09]
          [x00; x00; x00; x05; x00; x07] 6 = Fault f /\
        exists o, f = ReadOutOfBounds o
    end.
Proof.
  apply (compFunc_BLACK_RLE_writes_in_bounds RLEHeader_packed16
           [x09; x09; x09; x09; x09; x09]
           [x00; x00; x00; x05; x00; x07] 6).
  - cbn. lia.
  - lia.
  - vm_compute. discriminate.
Defined.

(** Whatever the layout of the run header, an all-zero unit at the end
    of the payload sends the decoder past it. *)
Lemma rle_zero_unit_at_end (L : RLELayout) (dst : buffer) :
  exists o,
    rle_decode L dst [x00; x00; x00] 3 = Some (Fault (ReadOutOfBounds o)) /\
    3 <= o.
Proof.
  assert (S1 : rle_step L (3 / 3) [x00; x00; x00] (rle_start dst)
               = match rle_length L [x00; x00; x00] 0 with
                 | Some n =>
                     Next {| px := wrap64 (0 + n);
                             dpos := 0 + rle_times3 L n;
                             spos := 0 + rle_sizeof L; out := dst |}
                 | None => Stuck (ReadOutOfBounds (0 + rle_len_off L))
                 end) by reflexivity.
  unfold rle_decode. change (length [x00; x00; x00]) with 3%nat.
  cbn [rle_loop]. rewrite S1. clear S1.
  destruct (rle_length L [x00; x00; x00] 0) as [n|] eqn:E.
  - unfold rle_length, slice, rle_len_off, size in E. cbn [length] in E.
    destruct (Z.leb_spec 0 (0 + (3 + Z.of_nat (rle_pad L)))); [|lia].
    destruct (Z.leb_spec 0 (Z.of_nat (rle_len_bytes L))); [|lia].
    destruct (Z.leb_spec
                (0 + (3 + Z.of_nat (rle_pad L)) + Z.of_nat (rle_len_bytes L))
                (Z.of_nat 3)); [|discriminate].
    assert (Hb : rle_len_bytes L = 0%nat) by lia.
    rewrite Hb in E. cbn in E. injection E as <-.
    assert (N : load [x00; x00; x00] (0 + rle_sizeof L) = None).
    { unfold load, rle_sizeof.
      destruct (Z.ltb_spec
                  (0 + (3 + Z.of_nat (rle_pad L)
                        + Z.of_nat (rle_len_bytes L)
                        + Z.of_nat (rle_tail L))) 0); [reflexivity|].
      apply nth_error_None. cbn [length]. lia. }
    unfold rle_step. cbn [px spos]. rewrite N.
    change (wrap64 (0 + 0) <? 3 / 3) with true. cbv iota.
    exists (0 + rle_sizeof L). split; [reflexivity|].
    unfold rle_sizeof. lia.
  - exists (0 + rle_len_off L). split; [reflexivity|].
    unfold rle_len_off. lia.
Qed.

(** C10, as stated, fails twice on payloads of exactly [len] bytes: an
    all-zero unit at the end of the payload makes the decoder read the
    run length at offset 3 of a 3-byte payload, and a run of 5 pixels in
    a 2-pixel frame leaves the pixel counter at 5. *)
Lemma compFunc_BLACK_RLE_overruns :
  rle_decode RLEHeader_packed16 [x09; x09; x09] [x00; x00; x00] 3
  = Some (Fault (ReadOutOfBounds 3)) /\
  rle_decode RLEHeader_packed16 [x09; x09; x09; x09; x09; x09]
    [x00; x00; x00; x05; x00; x07] 6
  = Some (Ok {| px := 5; dpos := 15; spos := 5;
                out := [x09; x09; x09; x09; x09; x09] |}) /\
  ~ (5 <= 6 / 3).
Proof.
  repeat split; try reflexivity.
  vm_compute. intros H. apply H. reflexivity.
Qed.

(** ** Traces *)

Lemma bind_emit {E B : Type} (e : E) (k : unit -> M E B) :
  bind (emit e) k = (e :: fst (k tt), snd (k tt)).
Proof. unfold bind, emit. destruct (k tt). reflexivity. Qed.

Lemma bind_pair {E A B : Type} (t : list E) (a : A) (k : A -> M E B) :
  bind (t, Ok a) k = (t ++ fst (k a), snd (k a)).
Proof. unfold bind. destruct (k a). reflexivity. Qed.

Lemma bind_fault {E A B : Type} (t : list E) (f : fault) (k : A -> M E B) :
  bind (t, Fault f) k = (t, Fault f).
Proof. reflexivity. Qed.

Lemma bind_ok_inv {E A B : Type} (m : M E A) (k : A -> M E B)
  (t : list E) (b : B) :
  bind m k = (t, Ok b) ->
  exists t1 a t2, m = (t1, Ok a) /\ k a = (t2, Ok b) /\ t = t1 ++ t2.
Proof.
  destruct m as [t1 [a|f]]; [|discriminate].
  rewrite bind_pair. intros H. injection H as Ht Hr.
  exists t1, a, (fst (k a)). repeat split; [|now symmetry].
  destruct (k a) as [t2 r]. cbn [fst snd] in *. now subst.
Qed.

(** ** Format equality *)

Lemma FrameType_eqb_eq (a b : FrameType) :
  FrameType_eqb a b = true <-> a = b.
Proof.
  split.
  - destruct a, b; cbn; try discriminate; try reflexivity.
    intros H. apply Z.eqb_eq in H. now subst.
  - intros <-. destruct a; cbn; try reflexivity. apply Z.eqb_refl.
Qed.

Lemma FrameComp_eqb_eq (a b : FrameComp) :
  FrameComp_eqb a b = true <-> a = b.
Proof.
  split.
  - destruct a, b; cbn; try discriminate; try reflexivity.
    intros H. apply Z.eqb_eq in H. now subst.
  - intros <-. destruct a; cbn; try reflexivity. apply Z.eqb_refl.
Qed.

Lemma FrameType_neqb (a b : FrameType) :
  negb (FrameType_eqb a b) = true <-> a <> b.
Proof.
  rewrite negb_true_iff, <- not_true_iff_false, FrameType_eqb_eq.
  reflexivity.
Qed.

Lemma areFormatsSame_iff (s1 s2 : KVMGFXHeader) :
  areFormatsSame s1 s2 = true <->
  frameType s1 <> FRAME_TYPE_INVALID /\
  frameType s2 <> FRAME_TYPE_INVALID /\
  version s1 = version s2 /\
  frameType s1 = frameType s2 /\
  compType s1 = compType s2 /\
  width s1 = width s2 /\
  height s1 = height s2.
Proof.
  unfold areFormatsSame.
  rewrite !andb_true_iff, !FrameType_neqb, !Z.eqb_eq,
    FrameType_eqb_eq, FrameComp_eqb_eq.
  tauto.
Qed.

(** C2.  [areFormatsSame] holds exactly when neither frame type is
    [FRAME_TYPE_INVALID] and version, frame type, compression type,
    width and height agree.  It fails as soon as one header is invalid,
    whatever else matches, and it holds between a valid header and the
    same header with another stride. *)
Theorem areFormatsSame_spec (s1 s2 : KVMGFXHeader) :
  (areFormatsSame s1 s2 = true <->
   frameType s1 <> FRAME_TYPE_INVALID /\
   frameType s2 <> FRAME_TYPE_INVALID /\
   version s1 = version s2 /\
   frameType s1 = frameType s2 /\
   compType s1 = compType s2 /\
   width s1 = width s2 /\
   height s1 = height s2) /\
  (frameType s1 = FRAME_TYPE_INVALID \/ frameType s2 = FRAME_TYPE_INVALID ->
   areFormatsSame s1 s2 = false) /\
  (forall n : Z,
      frameType s1 <> FRAME_TYPE_INVALID ->
      areFormatsSame s1 (with_stride s1 n) = true).
Proof.
  pose proof (areFormatsSame_iff s1 s2) as I.
  split; [exact I|]. split.
  - intros H. apply not_true_iff_false. rewrite I. tauto.
  - intros n H. apply areFormatsSame_iff. unfold with_stride.
    cbn [frameType version compType width height]. tauto.
Qed.

Lemma areFormatsSame_spec_witness :
  areFormatsSame
    {| magic := []; version := 2; hostID := 0; guestID := 1;
       frameType := FRAME_TYPE_INVALID; compType := FRAME_COMP_NONE;
       width := 640; height := 480; stride := 640;
       mouseX := 0; mouseY := 0 |}
    {| magic := []; version := 2; hostID := 0; guestID := 1;
       frameType := FRAME_TYPE_INVALID; compType := FRAME_COMP_NONE;
       width := 640; height := 480; stride := 640;
       mouseX := 0; mouseY := 0 |} = false.
Proof.
  apply areFormatsSame_spec. left. reflexivity.
Defined.

(** ** Scan codes *)

(** C9 fails for the scan code that equals the number of entries: the
    test [scancode > entries] lets it through and the table is read one
    entry past its end.  Below that number the read is inside the table,
    above it the function returns 0 without reading. *)
Theorem mapScancode_reads_past_table (usb_to_ps2 : list Z) :
  mapScancode usb_to_ps2 (usb_to_ps2_entries usb_to_ps2)
  = ([], Fault (ReadOutOfBounds (usb_to_ps2_entries usb_to_ps2))) /\
  (forall sc : Z,
      0 <= sc < usb_to_ps2_entries usb_to_ps2 ->
      exists v, table_load usb_to_ps2 sc = Ok v) /\
  (forall sc : Z,
      usb_to_ps2_entries usb_to_ps2 < sc ->
      mapScancode usb_to_ps2 sc
      = ([input_DEBUG_WARN "Unable to map USB scan code" sc], Ok 0)).
Proof.
  unfold usb_to_ps2_entries. split; [|split].
  - unfold mapScancode, usb_to_ps2_entries, size_t_of_int, table_load.
    destruct (Z.ltb_spec (Z.of_nat (length usb_to_ps2)) 0); [lia|].
    destruct (Z.gtb_spec (Z.of_nat (length usb_to_ps2))
                (Z.of_nat (length usb_to_ps2))); [lia|].
    rewrite Nat2Z.id.
    rewrite (proj2 (nth_error_None usb_to_ps2 (length usb_to_ps2)))
      by lia.
    reflexivity.
  - intros sc H. unfold table_load.
    destruct (Z.ltb_spec sc 0); [lia|].
    destruct (nth_error usb_to_ps2 (Z.to_nat sc)) as [v|] eqn:E; [eauto|].
    apply nth_error_None in E. lia.
  - intros sc H. unfold mapScancode, usb_to_ps2_entries, size_t_of_int.
    destruct (Z.ltb_spec sc 0); [lia|].
    destruct (Z.gtb_spec sc (Z.of_nat (length usb_to_ps2))); [|lia].
    reflexivity.
Qed.

(** ** The render thread *)

Section RenderThread.

Variable L : RLELayout.
Variable MAGIC : buffer.

Lemma wait_loop_timeouts (guest : Z) (n : nat)
  (rs : list IVSHMEM_WAIT_RESULT) :
  wait_loop true guest (repeat IVSHMEM_WAIT_RESULT_TIMEOUT n ++ rs)
  = (repeat (ivshmem_kick_irq guest) n ++ fst (wait_loop true guest rs),
     snd (wait_loop true guest rs)).
Proof.
  induction n as [|n IH]; cbn [repeat app wait_loop].
  - now destruct (wait_loop true guest rs).
  - rewrite bind_emit, IH. reflexivity.
Qed.

Lemma render_pass_gate (st : KVMGFXState) (loc : RenderLocals) (p : Pass) :
  magic_ok MAGIC (shm p) = true -> version (shm p) = 2 ->
  render_pass L MAGIC st loc p
  = (w <- wait_loop (running st) (guestID (shm p)) (irqs p) ;;
     match w with
     | WaitBlocked => ret PassBlocked
     | WaitError =>
         emit (render_DEBUG_ERROR "error during wait for host") ;;;
         ret (PassBreak st loc)
     | WaitReady | WaitStopped => process_frame L st loc p
     end).
Proof.
  intros Hm Hv. unfold render_pass. rewrite Hm, Hv. reflexivity.
Qed.

(** C5.  In the wait loop a timeout is answered by one kick to the guest
    and another wait, and a ready result ends the loop without a kick.
    A pass whose waits time out [n] times and then report a frame issues
    exactly [n] kicks and goes on to negotiate, decode and present. *)
Theorem wait_loop_kicks_per_timeout (st : KVMGFXState) (loc : RenderLocals)
  (p : Pass) (n : nat) (rest : list IVSHMEM_WAIT_RESULT) :
  running st = true ->
  magic_ok MAGIC (shm p) = true ->
  version (shm p) = 2 ->
  irqs p = repeat IVSHMEM_WAIT_RESULT_TIMEOUT n
             ++ IVSHMEM_WAIT_RESULT_OK :: rest ->
  (forall rs,
      wait_loop (running st) (guestID (shm p))
        (IVSHMEM_WAIT_RESULT_TIMEOUT :: rs)
      = (ivshmem_kick_irq (guestID (shm p))
           :: fst (wait_loop (running st) (guestID (shm p)) rs),
         snd (wait_loop (running st) (guestID (shm p)) rs))) /\
  (forall rs,
      wait_loop (running st) (guestID (shm p))
        (IVSHMEM_WAIT_RESULT_OK :: rs)
      = ([], Ok WaitReady)) /\
  wait_loop (running st) (guestID (shm p)) (irqs p)
  = (repeat (ivshmem_kick_irq (guestID (shm p))) n, Ok WaitReady) /\
  render_pass L MAGIC st loc p
  = (repeat (ivshmem_kick_irq (guestID (shm p))) n
       ++ fst (process_frame L st loc p),
     snd (process_frame L st loc p)).
Proof.
  intros Hr Hm Hv Hi.
  assert (W : wait_loop (running st) (guestID (shm p)) (irqs p)
              = (repeat (ivshmem_kick_irq (guestID (shm p))) n,
                 Ok WaitReady)).
  { rewrite Hr, Hi, wait_loop_timeouts. cbn [wait_loop ret fst snd].
    now rewrite app_nil_r. }
  split; [|split; [|split]].
  - intros rs. rewrite Hr. cbn [wait_loop]. now rewrite bind_emit.
  - rewrite Hr. reflexivity.
  - exact W.
  - rewrite render_pass_gate, W, bind_pair by assumption. reflexivity.
Qed.

(** C3 fails on the running flag.  When the wait reports an error the
    pass logs it and breaks out of the loop without negotiating, decoding
    or presenting, but nothing clears [state.running]: [renderThread]
    returns with the flag still set and the loop in [main] calls it
    again on what follows. *)
Theorem renderThread_wait_error_keeps_running (stack : KVMGFXHeader)
  (st : KVMGFXState) (p : Pass) (ps : list Pass) (calls : nat)
  (rest : list IVSHMEM_WAIT_RESULT) :
  running st = true ->
  magic_ok MAGIC (shm p) = true ->
  version (shm p) = 2 ->
  irqs p = IVSHMEM_WAIT_RESULT_ERROR :: rest ->
  (forall loc,
      render_pass L MAGIC st loc p
      = ([render_DEBUG_ERROR "error during wait for host"],
         Ok (PassBreak st loc))) /\
  renderThread L MAGIC stack st (p :: ps)
  = ([render_DEBUG_ERROR "error during wait for host";
      SDL_DestroyTexture false],
     Ok (Returned st ps)) /\
  main_render L MAGIC (S calls) stack st (p :: ps)
  = (render_DEBUG_ERROR "error during wait for host"
       :: SDL_DestroyTexture false
       :: fst (main_render L MAGIC calls stack st ps),
     snd (main_render L MAGIC calls stack st ps)).
Proof.
  intros Hr Hm Hv Hi.
  assert (P : forall loc,
             render_pass L MAGIC st loc p
             = ([render_DEBUG_ERROR "error during wait for host"],
                Ok (PassBreak st loc))).
  { intros loc. rewrite render_pass_gate, Hr, Hi by assumption.
    reflexivity. }
  assert (T : renderThread L MAGIC stack st (p :: ps)
              = ([render_DEBUG_ERROR "error during wait for host";
                  SDL_DestroyTexture false],
                 Ok (Returned st ps))).
  { unfold renderThread. cbn [render_loop]. rewrite Hr, P. reflexivity. }
  split; [exact P|]. split; [exact T|].
  cbn [main_render]. rewrite Hr, T, bind_pair. reflexivity.
Qed.

Lemma recognized_same_types (h1 h2 : KVMGFXHeader) :
  frameType h1 = frameType h2 -> compType h1 = compType h2 ->
  recognized h1 = recognized h2.
Proof. unfold recognized. now intros -> ->. Qed.

Lemma recognized_valid (h : KVMGFXHeader) :
  recognized h = true -> frameType h <> FRAME_TYPE_INVALID.
Proof.
  unfold recognized. intros H E. rewrite E in H. discriminate.
Qed.

Lemma areFormatsSame_unrecognized (loc : RenderLocals) (h : KVMGFXHeader) :
  format_settled loc -> recognized h = false ->
  areFormatsSame (format loc) h = false.
Proof.
  intros Hs Hu. apply not_true_iff_false. intros E.
  apply areFormatsSame_iff in E.
  destruct E as (Hv & _ & _ & Hf & Hc & _).
  destruct Hs as [Hs|Hs]; [contradiction|].
  rewrite (recognized_same_types _ h Hf Hc) in Hs. congruence.
Qed.

Lemma areFormatsSame_invalid (loc : RenderLocals) (h : KVMGFXHeader) :
  frameType (format loc) = FRAME_TYPE_INVALID ->
  areFormatsSame (format loc) h = false.
Proof.
  intros E. unfold areFormatsSame. rewrite E. reflexivity.
Qed.

Lemma negotiate_same (st : KVMGFXState) (loc : RenderLocals) (p : Pass) :
  areFormatsSame (format loc) (shm p) = true ->
  negotiate st loc p = ([], Ok (Configured st loc)).
Proof. intros E. unfold negotiate. now rewrite E. Qed.

Lemma negotiate_unrecognized (st : KVMGFXState) (loc : RenderLocals)
  (p : Pass) :
  areFormatsSame (format loc) (shm p) = false ->
  recognized (shm p) = false ->
  exists loc',
    negotiate st loc p = (destroy_calls loc, Ok (Deferred loc')) /\
    frameType (format loc') = FRAME_TYPE_INVALID /\
    texture loc' = None.
Proof.
  intros E Hu. unfold negotiate, recognized, destroy_calls in *.
  rewrite E.
  destruct (texture loc);
    destruct (select_drawFunc (frameType (shm p))) as [[fmt df]|];
    destruct (select_compFunc (compType (shm p))); try discriminate;
    eexists; (split; [reflexivity|split; reflexivity]).
Qed.

Lemma negotiate_recognized (st : KVMGFXState) (loc : RenderLocals)
  (p : Pass) :
  areFormatsSame (format loc) (shm p) = false ->
  recognized (shm p) = true ->
  exists fmt df cf,
    select_drawFunc (frameType (shm p)) = Some (fmt, df) /\
    select_compFunc (compType (shm p)) = Some cf /\
    negotiate st loc p
    = (destroy_calls loc
         ++ [SDL_SetWindowSize (width (shm p)) (height (shm p));
             SDL_SetWindowPosition_CENTERED;
             SDL_CreateTexture fmt (width (shm p)) (height (shm p));
             if texture_created p then SDL_LockTexture
             else SDL_LockTexture_NULL],
       Ok (Configured
             {| running := running st; started := started st;
                windowChanged := true |}
             {| format := shm p;
                texture := if texture_created p
                           then Some {| tex_format := fmt;
                                        tex_width := width (shm p);
                                        tex_height := height (shm p) |}
                           else None;
                texPixels := if texture_created p then fresh_pixels p
                             else [];
                drawFunc := Some df; compFunc := Some cf |})).
Proof.
  intros E Hr. unfold negotiate, recognized, destroy_calls in *.
  rewrite E.
  destruct (select_drawFunc (frameType (shm p))) as [[fmt df]|];
    [|discriminate].
  destruct (select_compFunc (compType (shm p))) as [cf|]; [|discriminate].
  exists fmt, df, cf.
  destruct (texture loc); (split; [reflexivity|split; reflexivity]).
Qed.

(** What [negotiate] leaves in the locals, whichever way it goes. *)
Lemma negotiate_settled (st : KVMGFXState) (loc : RenderLocals) (p : Pass)
  (t : list render_call) (n : negotiated) :
  format_settled loc ->
  negotiate st loc p = (t, Ok n) ->
  match n with
  | Configured _ loc' | Deferred loc' => format_settled loc'
  end.
Proof.
  intros Hs H.
  destruct (areFormatsSame (format loc) (shm p)) eqn:E.
  - rewrite negotiate_same in H by assumption.
    injection H as _ <-. exact Hs.
  - destruct (recognized (shm p)) eqn:R.
    + destruct (negotiate_recognized st loc p E R)
        as (fmt & df & cf & _ & _ & N).
      rewrite N in H. injection H as _ <-.
      right. exact R.
    + destruct (negotiate_unrecognized st loc p E R) as (loc' & N & I & _).
      rewrite N in H. injection H as _ <-.
      left. exact I.
Qed.

Lemma process_frame_settled (st : KVMGFXState) (loc : RenderLocals)
  (p : Pass) (t : list render_call) (r : pass_res) :
  format_settled loc ->
  process_frame L st loc p = (t, Ok r) ->
  match r with
  | PassContinue _ loc' | PassBreak _ loc' => format_settled loc'
  | PassBlocked => True
  end.
Proof.
  intros Hs H. unfold process_frame in H.
  apply bind_ok_inv in H. destruct H as (t1 & n & t2 & N & K & _).
  pose proof (negotiate_settled _ _ _ _ _ Hs N) as Hn.
  destruct n as [st' loc'|loc'].
  - apply bind_ok_inv in K. destruct K as (t3 & u & t4 & _ & K & _).
    apply bind_ok_inv in K. destruct K as (t5 & d & t6 & _ & K & _).
    injection K as _ <-. exact Hn.
  - injection K as _ <-. exact Hn.
Qed.

Lemma render_pass_settled (st : KVMGFXState) (loc : RenderLocals)
  (p : Pass) (t : list render_call) (r : pass_res) :
  format_settled loc ->
  render_pass L MAGIC st loc p = (t, Ok r) ->
  match r with
  | PassContinue _ loc' | PassBreak _ loc' => format_settled loc'
  | PassBlocked => True
  end.
Proof.
  intros Hs H. unfold render_pass in H.
  destruct (negb (magic_ok MAGIC (shm p))).
  { injection H as _ <-. exact Hs. }
  destruct (negb (version (shm p) =? 2)).
  { injection H as _ <-. exact Hs. }
  apply bind_ok_inv in H. destruct H as (t1 & w & t2 & _ & K & _).
  destruct w.
  - now apply (process_frame_settled st loc p t2).
  - apply bind_ok_inv in K. destruct K as (t3 & u & t4 & _ & K & _).
    injection K as _ <-. exact Hs.
  - now apply (process_frame_settled st loc p t2).
  - injection K as _ <-. exact I.
Qed.

Lemma reachable_settled (stack : KVMGFXHeader) (st : KVMGFXState)
  (loc : RenderLocals) :
  reachable L MAGIC stack st loc -> format_settled loc.
Proof.
  induction 1 as [st|st st' loc loc' p t _ IH H].
  - left. reflexivity.
  - exact (render_pass_settled _ _ _ _ _ IH H).
Qed.

Lemma wait_loop_idle (run : bool) (guest : Z)
  (rs : list IVSHMEM_WAIT_RESULT) :
  exists w,
    snd (wait_loop run guest rs) = Ok w /\
    forallb idle_call (fst (wait_loop run guest rs)) = true.
Proof.
  destruct run;
    [|exists WaitStopped; destruct rs; split; reflexivity].
  induction rs as [|[] rs IH]; cbn [wait_loop].
  - exists WaitBlocked. split; reflexivity.
  - exists WaitReady. split; reflexivity.
  - destruct IH as (w & E & I). exists w.
    rewrite bind_emit. cbn [fst snd forallb idle_call andb]. now split.
  - exists WaitError. split; reflexivity.
Qed.

Lemma destroy_calls_idle (loc : RenderLocals) :
  forallb idle_call (destroy_calls loc) = true.
Proof. unfold destroy_calls. now destruct (texture loc). Qed.

Lemma process_frame_unrecognized (st : KVMGFXState) (loc : RenderLocals)
  (p : Pass) :
  areFormatsSame (format loc) (shm p) = false ->
  recognized (shm p) = false ->
  exists loc',
    process_frame L st loc p
    = (destroy_calls loc, Ok (PassContinue st loc')) /\
    frameType (format loc') = FRAME_TYPE_INVALID /\
    texture loc' = None.
Proof.
  intros E Hu.
  destruct (negotiate_unrecognized st loc p E Hu) as (loc' & N & I & T).
  exists loc'. unfold process_frame. rewrite N, bind_pair.
  cbn [ret fst snd]. now rewrite app_nil_r.
Qed.

(** A pass that starts from an invalid cached format and meets a header
    that is not recognized ends with the format still invalid. *)
Lemma render_pass_stays_invalid (st : KVMGFXState) (loc : RenderLocals)
  (p : Pass) (t : list render_call) (r : res pass_res) :
  frameType (format loc) = FRAME_TYPE_INVALID ->
  texture loc = None ->
  recognized (shm p) = false ->
  render_pass L MAGIC st loc p = (t, r) ->
  forallb idle_call t = true /\
  (r = Ok PassBlocked \/
   exists loc',
     (r = Ok (PassContinue st loc') \/ r = Ok (PassBreak st loc')) /\
     frameType (format loc') = FRAME_TYPE_INVALID /\
     texture loc' = None).
Proof.
  intros I T Hu H. unfold render_pass in H.
  destruct (negb (magic_ok MAGIC (shm p))).
  { injection H as <- <-. split; [reflexivity|]. right. exists loc. auto. }
  destruct (negb (version (shm p) =? 2)).
  { injection H as <- <-. split; [reflexivity|]. right. exists loc. auto. }
  destruct (wait_loop_idle (running st) (guestID (shm p)) (irqs p))
    as (w & Ew & Iw).
  destruct (wait_loop (running st) (guestID (shm p)) (irqs p)) as [tw rw].
  cbn [fst snd] in Ew, Iw. subst rw. rewrite bind_pair in H.
  destruct (process_frame_unrecognized st loc p
              (areFormatsSame_invalid loc (shm p) I) Hu)
    as (loc' & P & I' & T').
  destruct w.
  - rewrite P in H. cbn [fst snd] in H. injection H as <- <-.
    split.
    + rewrite forallb_app, Iw, destroy_calls_idle. reflexivity.
    + right. exists loc'. auto.
  - cbn in H. injection H as <- <-. split.
    + rewrite forallb_app, Iw. reflexivity.
    + right. exists loc. auto.
  - rewrite P in H. cbn [fst snd] in H. injection H as <- <-.
    split.
    + rewrite forallb_app, Iw, destroy_calls_idle. reflexivity.
    + right. exists loc'. auto.
  - cbn in H. injection H as <- <-. split.
    + rewrite forallb_app, Iw. reflexivity.
    + left. reflexivity.
Qed.

(** C4.  When the header in shared memory has a frame type or a
    compression type that the thread does not recognize, the pass that
    finds it only kicks the guest while it waits and releases the
    surface it had: it marks the cached format invalid, allocates no
    surface, decodes and presents nothing, logs no error and continues
    with the next pass.  From then on the cached format stays invalid
    and no surface exists, pass after pass, as long as the headers are
    not recognized; the first recognized header is negotiated and
    becomes the cached format. *)
Theorem unrecognized_header_defers (stack : KVMGFXHeader) (st : KVMGFXState)
  (loc : RenderLocals) (p : Pass) (n : nat)
  (rest : list IVSHMEM_WAIT_RESULT) :
  reachable L MAGIC stack st loc ->
  running st = true ->
  magic_ok MAGIC (shm p) = true ->
  version (shm p) = 2 ->
  irqs p = repeat IVSHMEM_WAIT_RESULT_TIMEOUT n
             ++ IVSHMEM_WAIT_RESULT_OK :: rest ->
  recognized (shm p) = false ->
  exists loc',
    render_pass L MAGIC st loc p
    = (repeat (ivshmem_kick_irq (guestID (shm p))) n ++ destroy_calls loc,
       Ok (PassContinue st loc')) /\
    frameType (format loc') = FRAME_TYPE_INVALID /\
    texture loc' = None /\
    (forall (st1 : KVMGFXState) (loc1 : RenderLocals) (q : Pass)
            (t : list render_call) (r : res pass_res),
        frameType (format loc1) = FRAME_TYPE_INVALID ->
        texture loc1 = None ->
        recognized (shm q) = false ->
        render_pass L MAGIC st1 loc1 q = (t, r) ->
        forallb idle_call t = true /\
        (r = Ok PassBlocked \/
         exists loc2,
           (r = Ok (PassContinue st1 loc2) \/ r = Ok (PassBreak st1 loc2)) /\
           frameType (format loc2) = FRAME_TYPE_INVALID /\
           texture loc2 = None)) /\
    (forall (st1 : KVMGFXState) (loc1 : RenderLocals) (q : Pass),
        frameType (format loc1) = FRAME_TYPE_INVALID ->
        recognized (shm q) = true ->
        exists t st2 loc2,
          negotiate st1 loc1 q = (t, Ok (Configured st2 loc2)) /\
          format loc2 = shm q /\
          frameType (format loc2) <> FRAME_TYPE_INVALID).
Proof.
  intros Hr Hrun Hm Hv Hi Hu.
  pose proof (reachable_settled stack st loc Hr) as Hs.
  destruct (process_frame_unrecognized st loc p
              (areFormatsSame_unrecognized loc (shm p) Hs Hu) Hu)
    as (loc' & P & I & T).
  exists loc'. split; [|split; [exact I|split; [exact T|split]]].
  - rewrite render_pass_gate, Hrun, Hi, wait_loop_timeouts by assumption.
    cbn [wait_loop ret fst snd]. rewrite app_nil_r, bind_pair, P.
    reflexivity.
  - intros st1 loc1 q t r. apply render_pass_stays_invalid.
  - intros st1 loc1 q I1 R.
    destruct (negotiate_recognized st1 loc1 q
                (areFormatsSame_invalid loc1 (shm q) I1) R)
      as (fmt & df & cf & _ & _ & N).
    do 3 eexists. split; [exact N|]. cbn [format]. split; [reflexivity|].
    now apply recognized_valid.
Qed.

Lemma memset0_ok (dst : buffer) (n : Z) (d : buffer) :
  memset0 dst n = Ok d ->
  d = repeat x00 (Z.to_nat n) ++ skipn (Z.to_nat n) dst /\
  (Z.to_nat n <= length dst)%nat.
Proof.
  unfold memset0, blit, size. rewrite repeat_length.
  destruct (Z.leb_spec 0 0); [|lia].
  destruct (Z.leb_spec (0 + Z.of_nat (Z.to_nat n)) (Z.of_nat (length dst)));
    [|discriminate].
  cbn [andb]. intros E. injection E as <-.
  change (Z.to_nat 0) with 0%nat. cbn [firstn app].
  split; [|lia]. do 2 f_equal. lia.
Qed.

Lemma frame_bytes_exact (h : KVMGFXHeader) (bpp : Z) :
  0 <= height h -> 0 <= stride h -> 0 <= bpp ->
  height h * stride h * bpp < 2 ^ 32 -> 1 <= bpp ->
  frame_bytes h bpp = height h * stride h * bpp.
Proof.
  intros Hh Hs Hb Hp H1. unfold frame_bytes, wrap32.
  assert (0 <= height h * stride h) by nia.
  assert (height h * stride h <= height h * stride h * bpp) by nia.
  rewrite (Z.mod_small (height h * stride h)) by lia.
  apply Z.mod_small. nia.
Qed.

Lemma call_compFunc_some (f : CompFunc) (dst src : buffer) (len : Z) :
  exists r, call_compFunc L (Some f) dst src len = ([run_compFunc f len], r).
Proof.
  destruct f; unfold call_compFunc; rewrite bind_emit; cbn [lift fst snd];
    eauto.
Qed.

Lemma drawFunc_XOR_ok (cf : option CompFunc) (h : KVMGFXHeader)
  (dst src : buffer) (t : list render_call) (d : buffer) :
  drawFunc_XOR L cf h dst src = (t, Ok d) ->
  exists f d0,
    cf = Some f /\
    call_compFunc L cf dst src (frame_bytes h 3)
    = ([run_compFunc f (frame_bytes h 3)], Ok d0) /\
    memset0 d0 (frame_bytes h 3) = Ok d /\
    t = [glEnable_COLOR_LOGIC_OP; glLogicOp_XOR;
         run_compFunc f (frame_bytes h 3);
         ivshmem_kick_irq (guestID h); SDL_UnlockTexture;
         SDL_RenderCopy; SDL_RenderPresent].
Proof.
  unfold drawFunc_XOR. rewrite !bind_emit. cbn [fst snd].
  destruct cf as [f|]; [|discriminate].
  destruct (call_compFunc_some f dst src (frame_bytes h 3)) as (r & C).
  rewrite C. destruct r as [d0|e]; [|discriminate].
  rewrite bind_pair, !bind_emit. cbn [fst snd lift app].
  intros H. injection H as <- H.
  exists f, d0. repeat split. exact H.
Qed.

Lemma blend_run_app (b : blend) (t1 t2 : list render_call) :
  blend_run b (t1 ++ t2)
  = match blend_run b t1 with
    | Some b' => blend_run b' t2
    | None => None
    end.
Proof.
  revert b. induction t1 as [|c t1 IH]; intros b; cbn [app blend_run].
  - reflexivity.
  - destruct (blend_step b c); [apply IH|reflexivity].
Qed.

Lemma blend_run_idle (b : blend) (t : list render_call) :
  forallb idle_call t = true -> blend_run b t = Some b.
Proof.
  induction t as [|c t IH]; cbn [forallb blend_run]; [reflexivity|].
  intros H. apply andb_true_iff in H. destruct H as [Hc Ht].
  destruct c; try discriminate; cbn; auto.
Qed.

Lemma blend_run_negotiate (b : blend) (st : KVMGFXState)
  (loc : RenderLocals) (p : Pass) :
  blend_run b (fst (negotiate st loc p)) = Some b.
Proof.
  unfold negotiate.
  destruct (areFormatsSame (format loc) (shm p)); [reflexivity|].
  destruct (texture loc);
    destruct (select_drawFunc (frameType (shm p))) as [[fmt df]|];
    destruct (select_compFunc (compType (shm p)));
    destruct (texture_created p); reflexivity.
Qed.

(** Every presenter, started with the blend off, presents at most once
    after enabling it. *)
Lemma blend_run_drawFunc (f : option DrawFunc) (cf : option CompFunc)
  (h : KVMGFXHeader) (dst src : buffer) :
  exists b',
    blend_run BlendOff (fst (call_drawFunc L f cf h dst src)) = Some b'.
Proof.
  destruct f as [f|]; [|cbn; eauto].
  destruct cf as [c|].
  - destruct f; cbn [call_drawFunc];
      unfold drawFunc_ARGB, drawFunc_RGB, drawFunc_XOR, drawFunc_YUV444P,
        drawFunc_YUV420P, drawFunc_ARGB10;
      rewrite ?bind_emit; cbn [fst snd];
      try (destruct (call_compFunc_some c dst src (frame_bytes h 4))
             as (r4 & C4); rewrite ?C4);
      try (destruct (call_compFunc_some c dst src (frame_bytes h 3))
             as (r3 & C3); rewrite ?C3);
      try destruct r4; try destruct r3;
      rewrite ?bind_pair, ?bind_fault, ?bind_emit; cbn; eauto.
  - destruct f; cbn; eauto.
Qed.

Lemma process_frame_trace (st : KVMGFXState) (loc : RenderLocals)
  (p : Pass) :
  (exists loc',
      negotiate st loc p = (destroy_calls loc, Ok (Deferred loc')) /\
      process_frame L st loc p
      = (destroy_calls loc, Ok (PassContinue st loc'))) \/
  (exists tn st' loc',
      negotiate st loc p = (tn, Ok (Configured st' loc')) /\
      fst (process_frame L st loc p)
      = tn ++ glDisable_COLOR_LOGIC_OP
           :: fst (call_drawFunc L (drawFunc loc') (compFunc loc') (shm p)
                     (texPixels loc') (payload p))).
Proof.
  unfold process_frame.
  destruct (areFormatsSame (format loc) (shm p)) eqn:E.
  - right. rewrite negotiate_same by assumption.
    exists [], st, loc. split; [reflexivity|].
    rewrite bind_pair, bind_emit. cbn [fst snd app].
    f_equal.
    destruct (call_drawFunc L (drawFunc loc) (compFunc loc) (shm p)
                (texPixels loc) (payload p)) as [td [d|f]].
    + rewrite bind_pair. cbn. now rewrite app_nil_r.
    + reflexivity.
  - destruct (recognized (shm p)) eqn:R.
    + right.
      destruct (negotiate_recognized st loc p E R)
        as (fmt & df & cf & _ & _ & N).
      rewrite N. do 3 eexists. split; [reflexivity|].
      rewrite bind_pair, bind_emit. cbn [fst snd drawFunc compFunc texPixels].
      f_equal. f_equal.
      destruct (call_drawFunc L (Some df) (Some cf) (shm p)
                  (if texture_created p then fresh_pixels p else [])
                  (payload p)) as [td [d|f]].
      * rewrite bind_pair. cbn. now rewrite app_nil_r.
      * reflexivity.
    + left.
      destruct (negotiate_unrecognized st loc p E R) as (loc' & N & _ & _).
      exists loc'. split; [exact N|].
      rewrite N, bind_pair. cbn. now rewrite app_nil_r.
Qed.

Lemma blend_run_process_frame (b : blend) (st : KVMGFXState)
  (loc : RenderLocals) (p : Pass) :
  exists b', blend_run b (fst (process_frame L st loc p)) = Some b'.
Proof.
  destruct (process_frame_trace st loc p)
    as [(loc' & _ & P)|(tn & st' & loc' & N & P)].
  - rewrite P. cbn [fst]. rewrite blend_run_idle; eauto.
    apply destroy_calls_idle.
  - rewrite P, blend_run_app.
    pose proof (blend_run_negotiate b st loc p) as Bn.
    rewrite N in Bn. cbn [fst] in Bn. rewrite Bn.
    cbn [blend_run blend_step]. apply blend_run_drawFunc.
Qed.

Lemma blend_run_render_pass (b : blend) (st : KVMGFXState)
  (loc : RenderLocals) (p : Pass) :
  exists b', blend_run b (fst (render_pass L MAGIC st loc p)) = Some b'.
Proof.
  unfold render_pass.
  destruct (negb (magic_ok MAGIC (shm p))); [cbn; eauto|].
  destruct (negb (version (shm p) =? 2)); [cbn; eauto|].
  destruct (wait_loop_idle (running st) (guestID (shm p)) (irqs p))
    as (w & Ew & Iw).
  destruct (wait_loop (running st) (guestID (shm p)) (irqs p)) as [tw rw].
  cbn [fst snd] in Ew, Iw. subst rw. rewrite bind_pair. cbn [fst].
  rewrite blend_run_app, (blend_run_idle b tw Iw).
  destruct w; [apply blend_run_process_frame|cbn; eauto
              |apply blend_run_process_frame|cbn; eauto].
Qed.

Lemma blend_run_bind {A B : Type} (m : M render_call A)
  (k : A -> M render_call B) (b : blend) :
  (exists b1, blend_run b (fst m) = Some b1) ->
  (forall a b1, exists b2, blend_run b1 (fst (k a)) = Some b2) ->
  exists b2, blend_run b (fst (bind m k)) = Some b2.
Proof.
  intros (b1 & H1) H2. destruct m as [t [a|f]].
  - rewrite bind_pair. cbn [fst] in *. rewrite blend_run_app, H1.
    apply H2.
  - cbn [bind fst] in *. eauto.
Qed.

Lemma blend_run_render_loop (ps : list Pass) :
  forall (b : blend) (st : KVMGFXState) (loc : RenderLocals),
  exists b', blend_run b (fst (render_loop L MAGIC st loc ps)) = Some b'.
Proof.
  induction ps as [|p ps IH]; intros b st loc; cbn [render_loop];
    destruct (running st); try (cbn; eauto; fail).
  apply blend_run_bind; [apply blend_run_render_pass|].
  intros [st' loc'|st' loc'|] b1; [apply IH|cbn; eauto|cbn; eauto].
Qed.

Lemma blend_run_renderThread (b : blend) (stack : KVMGFXHeader)
  (st : KVMGFXState) (ps : list Pass) :
  exists b',
    blend_run b (fst (renderThread L MAGIC stack st ps)) = Some b'.
Proof.
  unfold renderThread.
  apply blend_run_bind; [apply blend_run_render_loop|].
  intros [[[st' loc'] rest]|] b1; cbn; eauto.
Qed.

Lemma blend_run_main_render (calls : nat) :
  forall (b : blend) (stack : KVMGFXHeader) (st : KVMGFXState)
         (ps : list Pass),
  exists b',
    blend_run b (fst (main_render L MAGIC calls stack st ps)) = Some b'.
Proof.
  induction calls as [|calls IH]; intros b stack st ps; cbn [main_render];
    destruct (running st); try (cbn; eauto; fail).
  apply blend_run_bind; [apply blend_run_renderThread|].
  intros [st' rest|] b1; [apply IH|cbn; eauto].
Qed.

Lemma idle_not_presenter (t : list render_call) :
  forallb idle_call t = true -> existsb presenter_call t = false.
Proof.
  induction t as [|c t IH]; cbn [forallb existsb]; [reflexivity|].
  intros H. apply andb_true_iff in H. destruct H as [Hc Ht].
  rewrite (IH Ht). destruct c; try discriminate; reflexivity.
Qed.

(** A pass that does not call [glDisable] has made idle calls only. *)
Lemma render_pass_without_disable (st : KVMGFXState) (loc : RenderLocals)
  (p : Pass) :
  existsb is_disable (fst (render_pass L MAGIC st loc p)) = false ->
  forallb idle_call (fst (render_pass L MAGIC st loc p)) = true.
Proof.
  unfold render_pass.
  destruct (negb (magic_ok MAGIC (shm p))); [reflexivity|].
  destruct (negb (version (shm p) =? 2)); [reflexivity|].
  destruct (wait_loop_idle (running st) (guestID (shm p)) (irqs p))
    as (w & Ew & Iw).
  destruct (wait_loop (running st) (guestID (shm p)) (irqs p)) as [tw rw].
  cbn [fst snd] in Ew, Iw. subst rw. rewrite bind_pair. cbn [fst].
  rewrite existsb_app, forallb_app, Iw. cbn [andb].
  intros H. apply orb_false_iff in H. destruct H as [_ H].
  assert (F : existsb is_disable (fst (process_frame L st loc p)) = false ->
              forallb idle_call (fst (process_frame L st loc p)) = true).
  { destruct (process_frame_trace st loc p)
      as [(loc' & _ & P)|(tn & st' & loc' & _ & P)]; rewrite P; cbn [fst].
    - intros _. apply destroy_calls_idle.
    - rewrite existsb_app. cbn [existsb is_disable].
      rewrite orb_true_r. discriminate. }
  destruct w; [now apply F|reflexivity|now apply F|reflexivity].
Qed.

(** C7.  When [drawFunc_XOR] completes, the first
    [height * stride * 3] bytes of the decode destination are zero; its
    calls enable the XOR logic op, decode, acknowledge and present once,
    and the logic op is still enabled when it returns.  Every pass that
    reaches a presenter disables the logic op right before calling it,
    after a negotiation that presents nothing, so in no run of the
    render loop is a presenter call made under the blend of a frame
    that was already presented.  A pass that is skipped for the magic
    or the version makes no call at all, and every pass that does not
    call [glDisable] (skipped, left on a wait error, deferred by the
    negotiation) leaves the logic op as it found it and calls no
    presenter. *)
Theorem drawFunc_XOR_clears_and_blend_confined (cf : option CompFunc)
  (h : KVMGFXHeader) (dst src : buffer) (t : list render_call)
  (d : buffer) :
  drawFunc_XOR L cf h dst src = (t, Ok d) ->
  firstn (Z.to_nat (frame_bytes h 3)) d
  = repeat x00 (Z.to_nat (frame_bytes h 3)) /\
  (Z.to_nat (frame_bytes h 3) <= length d)%nat /\
  (0 <= height h -> 0 <= stride h -> height h * stride h * 3 < 2 ^ 32 ->
   frame_bytes h 3 = height h * stride h * 3) /\
  (exists f,
      t = [glEnable_COLOR_LOGIC_OP; glLogicOp_XOR;
           run_compFunc f (frame_bytes h 3);
           ivshmem_kick_irq (guestID h); SDL_UnlockTexture;
           SDL_RenderCopy; SDL_RenderPresent]) /\
  blend_run BlendOff t = Some (BlendXor true) /\
  (forall (st : KVMGFXState) (loc : RenderLocals) (p : Pass),
      (exists loc',
          negotiate st loc p = (destroy_calls loc, Ok (Deferred loc')) /\
          process_frame L st loc p
          = (destroy_calls loc, Ok (PassContinue st loc'))) \/
      (exists tn st' loc',
          negotiate st loc p = (tn, Ok (Configured st' loc')) /\
          (forall b, blend_run b tn = Some b) /\
          fst (process_frame L st loc p)
          = tn ++ glDisable_COLOR_LOGIC_OP
               :: fst (call_drawFunc L (drawFunc loc') (compFunc loc')
                         (shm p) (texPixels loc') (payload p)))) /\
  (forall (calls : nat) (b : blend) (stack : KVMGFXHeader)
          (st : KVMGFXState) (ps : list Pass),
      exists b',
        blend_run b (fst (main_render L MAGIC calls stack st ps))
        = Some b') /\
  (forall (st : KVMGFXState) (loc : RenderLocals) (p : Pass),
      magic_ok MAGIC (shm p) = false \/ version (shm p) <> 2 ->
      render_pass L MAGIC st loc p = ([], Ok (PassContinue st loc))) /\
  (forall (b : blend) (st : KVMGFXState) (loc : RenderLocals) (p : Pass),
      existsb is_disable (fst (render_pass L MAGIC st loc p)) = false ->
      blend_run b (fst (render_pass L MAGIC st loc p)) = Some b /\
      existsb presenter_call (fst (render_pass L MAGIC st loc p)) = false).
Proof.
  intros H.
  destruct (drawFunc_XOR_ok cf h dst src t d H)
    as (f & d0 & _ & _ & Hm & Ht).
  destruct (memset0_ok d0 (frame_bytes h 3) d Hm) as (Hd & Hn).
  split; [|split; [|split; [|split; [|split; [|split; [|split; [|split]]]]]]].
  - rewrite Hd, firstn_app, repeat_length, Nat.sub_diag.
    cbn [firstn]. rewrite app_nil_r.
    apply firstn_all2. rewrite repeat_length. lia.
  - rewrite Hd, length_app, repeat_length, length_skipn. lia.
  - intros Hh Hs Hp. apply frame_bytes_exact; lia.
  - exists f. exact Ht.
  - rewrite Ht. reflexivity.
  - intros st loc p.
    destruct (process_frame_trace st loc p)
      as [(loc' & N & P)|(tn & st' & loc' & N & P)].
    + left. exists loc'. split; assumption.
    + right. exists tn, st', loc'. split; [exact N|]. split; [|exact P].
      intros b. pose proof (blend_run_negotiate b st loc p) as Bn.
      now rewrite N in Bn.
  - intros calls b stack st ps. apply blend_run_main_render.
  - intros st loc p [Hg|Hv]; unfold render_pass.
    + now rewrite Hg.
    + destruct (negb (magic_ok MAGIC (shm p))); [reflexivity|].
      apply Z.eqb_neq in Hv. now rewrite Hv.
  - intros b st loc p Hn'.
    pose proof (render_pass_without_disable st loc p Hn') as Hi.
    split; [now apply blend_run_idle|now apply idle_not_presenter].
Qed.

End RenderThread.

(** ** The event thread *)

Section EventThread.

Variable usb_to_ps2 : list Z.

Ltac inv_bind H :=
  let t1 := fresh "t" in
  let a := fresh "a" in
  let t2 := fresh "t" in
  let E1 := fresh "E" in
  let Et := fresh "Et" in
  apply bind_ok_inv in H; destruct H as (t1 & a & t2 & E1 & H & Et).

Ltac inv_ret H := injection H as <- <-.

Lemma dispatch_mode (loc : EventLocals) (p : Poll) (t : list input_call)
  (loc' : EventLocals) :
  dispatch usb_to_ps2 loc p = (t, Ok loc') ->
  serverMode loc' = xorb (is_toggle p) (serverMode loc) /\
  init loc' = init loc /\
  (is_toggle p = true -> serverMode loc = true ->
   ev_mouseX loc' = mouseX (poll_shm p) /\
   ev_mouseY loc' = mouseY (poll_shm p) /\
   t = [spice_mouse_mode false; SDL_SetRelativeMouseMode false;
        SDL_WarpMouseInWindow (mouseX (poll_shm p)) (mouseY (poll_shm p))]).
Proof.
  unfold dispatch, is_toggle.
  destruct (event p) as [|sc rep|sc rep|y|x y xr yr|b x y|b x y|ty].
  - intros H. inv_ret H. now split.
  - destruct (sc =? SDL_SCANCODE_SCROLLLOCK).
    + destruct (rep =? 0); cbn [negb andb].
      * destruct (serverMode loc) eqn:Em; cbn [negb]; intros H;
          rewrite !bind_emit in H; cbn [fst snd ret] in H; inv_ret H;
          cbn [serverMode init ev_mouseX ev_mouseY]; repeat split;
          congruence.
      * intros H. inv_ret H. rewrite xorb_false_l. now repeat split.
    + cbn [andb]. rewrite xorb_false_l. intros H. inv_bind H.
      destruct (a =? 0); [inv_ret H; now repeat split|].
      rewrite bind_emit in H.
      destruct (negb (spice_ok1 p)); cbn in H; injection H as _ <-;
        now repeat split.
  - rewrite xorb_false_l.
    destruct (sc =? SDL_SCANCODE_SCROLLLOCK);
      [intros H; inv_ret H; now repeat split|].
    intros H. inv_bind H.
    destruct (a =? 0); [inv_ret H; now repeat split|].
    rewrite bind_emit in H.
    destruct (negb (spice_ok1 p)); cbn in H; injection H as _ <-;
      now repeat split.
  - rewrite xorb_false_l. intros H. rewrite bind_emit in H.
    destruct (negb (spice_ok1 p)); [cbn in H; injection H as _ <-;
                                    now repeat split|].
    rewrite bind_emit in H.
    destruct (negb (spice_ok2 p)); cbn in H; injection H as _ <-;
      now repeat split.
  - rewrite xorb_false_l. intros H.
    destruct (serverMode loc) eqn:Em; rewrite bind_emit in H;
      destruct (negb (spice_ok1 p)); cbn in H; injection H as _ <-;
      cbn [serverMode init at_position]; now repeat split.
  - rewrite xorb_false_l. intros H. rewrite bind_emit in H.
    destruct (negb (spice_ok1 p)); [cbn in H; injection H as _ <-;
                                    now repeat split|].
    rewrite bind_emit in H.
    destruct (negb (spice_ok2 p)); cbn in H; injection H as _ <-;
      cbn [serverMode init at_position]; now repeat split.
  - rewrite xorb_false_l. intros H. rewrite bind_emit in H.
    destruct (negb (spice_ok1 p)); [cbn in H; injection H as _ <-;
                                    now repeat split|].
    rewrite bind_emit in H.
    destruct (negb (spice_ok2 p)); cbn in H; injection H as _ <-;
      cbn [serverMode init at_position]; now repeat split.
  - intros H. inv_ret H. now split.
Qed.

(** What handling an event other than the quit signal does to the
    pointer mode once frames have started. *)
Lemma handle_event_mode (st : KVMGFXState) (loc : EventLocals) (p : Poll)
  (t : list input_call) (r : event_res) :
  started st = true ->
  is_quit p = false ->
  handle_event usb_to_ps2 st loc p = (t, Ok r) ->
  exists st' loc',
    r = EventContinue st' loc' /\
    started st' = true /\
    serverMode loc' = xorb (is_toggle p) (serverMode loc) /\
    (is_toggle p = true -> serverMode loc = true ->
     ev_mouseX loc' = mouseX (poll_shm p) /\
     ev_mouseY loc' = mouseY (poll_shm p) /\
     exists t0,
       t = t0 ++ [spice_mouse_mode false; SDL_SetRelativeMouseMode false;
                  SDL_WarpMouseInWindow (mouseX (poll_shm p))
                    (mouseY (poll_shm p))]).
Proof.
  intros Hs Hq H.
  assert (K : (loc1 <- (if negb (init loc) then
                   emit (spice_mouse_mode false) ;;;
                   emit (SDL_WarpMouseInWindow (mouseX (poll_shm p))
                           (mouseY (poll_shm p))) ;;;
                   ret {| serverMode := serverMode loc;
                          ev_mouseX := mouseX (poll_shm p);
                          ev_mouseY := mouseY (poll_shm p);
                          init := true |}
                 else ret loc) ;;
        sl <- (if windowChanged st then
                 emit (SDL_WarpMouseInWindow (mouseX (poll_shm p))
                         (mouseY (poll_shm p))) ;;;
                 ret ({| running := running st; started := started st;
                         windowChanged := false |},
                      at_guest_position loc1 (poll_shm p))
               else ret (st, loc1)) ;;
        loc3 <- dispatch usb_to_ps2 (snd sl) p ;;
        ret (EventContinue (fst sl) loc3)) = (t, Ok r)).
  { unfold handle_event in H.
    replace (negb (started st)) with false in H by now rewrite Hs.
    unfold is_quit in Hq. destruct (event p); try discriminate; exact H. }
  clear H. inv_bind K. rename a into loc1.
  assert (M1 : serverMode loc1 = serverMode loc).
  { destruct (negb (init loc)).
    - rewrite !bind_emit in E. cbn in E. now injection E as _ <-.
    - now injection E as _ <-. }
  inv_bind K. rename a into sl.
  assert (M2 : serverMode (snd sl) = serverMode loc /\
               started (fst sl) = true).
  { destruct (windowChanged st).
    - rewrite bind_emit in E0. cbn in E0. injection E0 as _ <-.
      cbn [fst snd started serverMode at_guest_position]. now split.
    - injection E0 as _ <-. cbn [fst snd]. now split. }
  destruct M2 as [M2 S2].
  inv_bind K. rename a into loc3. inv_ret K.
  destruct (dispatch_mode _ _ _ _ E1) as (D1 & _ & D2).
  exists (fst sl), loc3. split; [reflexivity|]. split; [exact S2|].
  split; [congruence|].
  intros Ht Hm. destruct (D2 Ht) as (X & Y & T); [congruence|].
  split; [exact X|]. split; [exact Y|].
  exists (t0 ++ t2). subst. cbn [app]. now rewrite app_assoc.
Qed.

Lemma passive_spec (p : Poll) :
  passive p = true -> is_toggle p = false /\ is_quit p = false.
Proof.
  unfold passive. rewrite andb_true_iff, !negb_true_iff. tauto.
Qed.

Lemma is_toggle_not_quit (p : Poll) : is_toggle p = true -> is_quit p = false.
Proof. unfold is_toggle, is_quit. now destruct (event p). Qed.

(** Passive events leave the pointer mode alone, so the event that
    follows them is handled in the mode the loop started with. *)
Lemma poll_events_passive (mid : list Poll) :
  forall (st : KVMGFXState) (loc : EventLocals) (p : Poll)
         (t : list input_call) (st' : KVMGFXState) (loc' : EventLocals),
    started st = true ->
    forallb passive mid = true ->
    is_quit p = false ->
    poll_events usb_to_ps2 st loc (mid ++ [p]) = (t, Ok (st', loc')) ->
    exists tm st2 loc2 tp,
      started st2 = true /\
      serverMode loc2 = serverMode loc /\
      handle_event usb_to_ps2 st2 loc2 p
      = (tp, Ok (EventContinue st' loc')) /\
      t = tm ++ tp.
Proof.
  induction mid as [|m mid IH]; intros st loc p t st' loc' Hs Hp Hq H;
    cbn [app poll_events] in H; inv_bind H.
  - destruct (handle_event_mode _ _ _ _ _ Hs Hq E)
      as (sa & la & -> & _ & _ & _).
    cbn [poll_events] in H. injection H as <- <- <-.
    rewrite app_nil_r in Et.
    exists [], st, loc, t0. now repeat split.
  - cbn [forallb] in Hp. apply andb_true_iff in Hp. destruct Hp as [Hm Hp].
    apply passive_spec in Hm. destruct Hm as [Hmt Hmq].
    destruct (handle_event_mode _ _ _ _ _ Hs Hmq E)
      as (sa & la & -> & Sa & Ma & _).
    rewrite Hmt in Ma. cbn [xorb] in Ma.
    destruct (IH sa la p t1 st' loc' Sa Hp Hq H)
      as (tm & st2 & loc2 & tp & S2 & M2 & H2 & ->).
    exists (t0 ++ tm), st2, loc2, tp. subst t.
    rewrite app_assoc. repeat split; try assumption. congruence.
Qed.

(** No key message is sent for a key event of the hotkey. *)
Lemma hotkey_not_forwarded (st : KVMGFXState) (loc : EventLocals)
  (p : Poll) :
  is_hotkey p = true ->
  forallb (fun c => negb (is_key_call c))
    (fst (handle_event usb_to_ps2 st loc p)) = true.
Proof.
  unfold is_hotkey, handle_event, dispatch.
  destruct (event p) as [|sc rep|sc rep|y|x y xr yr|b x y|b x y|ty];
    try discriminate; intros ->;
    destruct st as [r [] []], loc as [[] x y []];
    try destruct (rep =? 0); reflexivity.
Qed.

(** Two first presses of Scroll Lock in one queue of events, with
    passive events between them. *)
Lemma poll_events_toggle_twice (st : KVMGFXState) (loc : EventLocals)
  (p1 : Poll) (mid : list Poll) (p2 : Poll) (t : list input_call)
  (st' : KVMGFXState) (loc' : EventLocals) :
  started st = true ->
  is_toggle p1 = true ->
  forallb passive mid = true ->
  is_toggle p2 = true ->
  poll_events usb_to_ps2 st loc (p1 :: mid ++ [p2]) = (t, Ok (st', loc')) ->
  serverMode loc' = serverMode loc /\
  (serverMode loc' = false ->
   ev_mouseX loc' = mouseX (poll_shm p2) /\
   ev_mouseY loc' = mouseY (poll_shm p2) /\
   exists t0,
     t = t0 ++ [spice_mouse_mode false; SDL_SetRelativeMouseMode false;
                SDL_WarpMouseInWindow (mouseX (poll_shm p2))
                  (mouseY (poll_shm p2))]).
Proof.
  intros Hs H1 Hmid H2 H.
  cbn [poll_events] in H. inv_bind H.
  destruct (handle_event_mode _ _ _ _ _ Hs (is_toggle_not_quit _ H1) E)
    as (s1 & l1 & -> & S1 & M1 & _).
  rewrite H1 in M1.
  destruct (poll_events_passive mid s1 l1 p2 t1 st' loc' S1 Hmid
              (is_toggle_not_quit _ H2) H)
    as (tm & s2 & l2 & tp & S2 & M2 & P2 & ->).
  destruct (handle_event_mode _ _ _ _ _ S2 (is_toggle_not_quit _ H2) P2)
    as (s3 & l3 & R3 & _ & M3 & W3).
  injection R3 as <- <-. rewrite H2 in M3.
  assert (Mode : serverMode loc' = serverMode loc).
  { rewrite M3, M2, M1. now destruct (serverMode loc). }
  split; [exact Mode|].
  intros Hm.
  destruct (W3 H2) as (X & Y & t3 & ->).
  { rewrite M2, M1, <- Mode, Hm. reflexivity. }
  split; [exact X|]. split; [exact Y|].
  exists (t0 ++ tm ++ t3). subst t. now rewrite !app_assoc.
Qed.

Lemma handle_event_not_started (st : KVMGFXState) (loc : EventLocals)
  (p : Poll) :
  started st = false ->
  handle_event usb_to_ps2 st loc p
  = ([], Ok (if is_quit p
             then EventBreak {| running := false; started := started st;
                                windowChanged := windowChanged st |} loc
             else EventContinue st loc)).
Proof.
  intros H. unfold handle_event, is_quit.
  destruct (event p); try reflexivity; now rewrite H.
Qed.

Lemma poll_events_not_started (q : list Poll) :
  forall (st : KVMGFXState) (loc : EventLocals),
    started st = false ->
    exists st',
      poll_events usb_to_ps2 st loc q = ([], Ok (st', loc)) /\
      started st' = false /\
      running st' = (if existsb is_quit q then false else running st).
Proof.
  induction q as [|p q IH]; intros st loc Hs; cbn [poll_events existsb].
  - exists st. now repeat split.
  - rewrite handle_event_not_started by assumption.
    rewrite bind_pair. cbn [app].
    destruct (is_quit p); cbn [orb].
    + eexists. split; [reflexivity|]. now split.
    + destruct (IH st loc Hs) as (st' & E & S & R).
      exists st'. rewrite E. now repeat split.
Qed.

Lemma event_loop_not_started (rounds : list (list Poll)) :
  forall (st : KVMGFXState) (loc : EventLocals),
    started st = false ->
    exists k r,
      event_loop usb_to_ps2 st loc rounds
      = (repeat (usleep 1000) k, Ok r) /\
      (running st = true -> existsb (existsb is_quit) rounds = true ->
       exists st', r = Some (st', loc) /\ running st' = false).
Proof.
  induction rounds as [|q rounds IH]; intros st loc Hs;
    cbn [event_loop existsb].
  - destruct (running st).
    + exists 0%nat, None. split; [reflexivity|]. discriminate.
    + exists 0%nat, (Some (st, loc)). split; [reflexivity|]. discriminate.
  - destruct (running st) eqn:Hr.
    + destruct (poll_events_not_started q st loc Hs) as (st1 & E & S1 & R1).
      rewrite E, bind_pair, bind_emit. cbn [app fst snd].
      destruct (IH st1 loc S1) as (k & r & L & Q).
      rewrite L. exists (S k), r. split; [reflexivity|].
      intros _ Hq. destruct (existsb is_quit q) eqn:Eq.
      * destruct rounds; cbn [event_loop] in L; rewrite R1 in L;
          injection L as _ <-; eauto.
      * cbn [orb] in Hq. apply Q; [congruence|exact Hq].
    + exists 0%nat, (Some (st, loc)). split; [reflexivity|]. discriminate.
Qed.

(** C8.  While [state.started] is false, an event other than the quit
    signal is dropped: nothing is called and nothing changes.  The quit
    signal clears [state.running] and leaves the polling loop.  A run of
    the event thread that never sees the flag set only sleeps between
    its rounds of polling, and it returns with [state.running] cleared
    once a quit signal was polled. *)
Theorem events_before_start_discarded (st : KVMGFXState)
  (loc : EventLocals) (p : Poll) (rounds : list (list Poll)) :
  started st = false ->
  (is_quit p = false ->
   handle_event usb_to_ps2 st loc p = ([], Ok (EventContinue st loc))) /\
  (is_quit p = true ->
   handle_event usb_to_ps2 st loc p
   = ([], Ok (EventBreak {| running := false; started := started st;
                            windowChanged := windowChanged st |} loc))) /\
  exists k r,
    eventThread usb_to_ps2 st rounds
    = (SDL_SetHint_MOUSE_RELATIVE_MODE_WARP :: repeat (usleep 1000) k,
       Ok r) /\
    forallb (fun c => negb (is_spice_call c))
      (fst (eventThread usb_to_ps2 st rounds)) = true /\
    (running st = true -> existsb (existsb is_quit) rounds = true ->
     exists st', r = Some (st', event_init) /\ running st' = false).
Proof.
  intros Hs. split; [|split].
  - intros Hq. rewrite handle_event_not_started, Hq by assumption.
    reflexivity.
  - intros Hq. rewrite handle_event_not_started, Hq by assumption.
    reflexivity.
  - destruct (event_loop_not_started rounds st event_init Hs)
      as (k & r & L & Q).
    exists k, r.
    assert (T : eventThread usb_to_ps2 st rounds
                = (SDL_SetHint_MOUSE_RELATIVE_MODE_WARP
                     :: repeat (usleep 1000) k, Ok r)).
    { unfold eventThread. rewrite bind_emit, L. reflexivity. }
    split; [exact T|]. split; [|exact Q].
    rewrite T. cbn [fst forallb is_spice_call negb andb].
    clear. induction k; [reflexivity|exact IHk].
Qed.

(** The part of [handle_event] that runs once frames have started, cut
    at the call of [dispatch]. *)
Lemma handle_event_started (st : KVMGFXState) (loc : EventLocals) (p : Poll)
  (t : list input_call) (r : event_res) :
  started st = true ->
  is_quit p = false ->
  handle_event usb_to_ps2 st loc p = (t, Ok r) ->
  exists st' loc0 loc' td,
    r = EventContinue st' loc' /\
    running st' = running st /\
    started st' = true /\
    windowChanged st' = false /\
    init loc0 = true /\
    serverMode loc0 = serverMode loc /\
    dispatch usb_to_ps2 loc0 p = (td, Ok loc') /\
    t = (if init loc then []
         else [spice_mouse_mode false;
               SDL_WarpMouseInWindow (mouseX (poll_shm p))
                 (mouseY (poll_shm p))])
          ++ (if windowChanged st
              then [SDL_WarpMouseInWindow (mouseX (poll_shm p))
                      (mouseY (poll_shm p))]
              else [])
          ++ td.
Proof.
  intros Hs Hq H.
  assert (K : (loc1 <- (if negb (init loc) then
                   emit (spice_mouse_mode false) ;;;
                   emit (SDL_WarpMouseInWindow (mouseX (poll_shm p))
                           (mouseY (poll_shm p))) ;;;
                   ret {| serverMode := serverMode loc;
                          ev_mouseX := mouseX (poll_shm p);
                          ev_mouseY := mouseY (poll_shm p);
                          init := true |}
                 else ret loc) ;;
        sl <- (if windowChanged st then
                 emit (SDL_WarpMouseInWindow (mouseX (poll_shm p))
                         (mouseY (poll_shm p))) ;;;
                 ret ({| running := running st; started := started st;
                         windowChanged := false |},
                      at_guest_position loc1 (poll_shm p))
               else ret (st, loc1)) ;;
        loc3 <- dispatch usb_to_ps2 (snd sl) p ;;
        ret (EventContinue (fst sl) loc3)) = (t, Ok r)).
  { unfold handle_event in H.
    replace (negb (started st)) with false in H by now rewrite Hs.
    unfold is_quit in Hq. destruct (event p); try discriminate; exact H. }
  clear H. inv_bind K. rename a into loc1.
  assert (M1 : serverMode loc1 = serverMode loc /\ init loc1 = true /\
               t0 = (if init loc then []
                     else [spice_mouse_mode false;
                           SDL_WarpMouseInWindow (mouseX (poll_shm p))
                             (mouseY (poll_shm p))])).
  { destruct (init loc) eqn:Ei; cbn [negb] in E.
    - apply pair_equal_spec in E. destruct E as [<- E].
      injection E as <-. now repeat split.
    - rewrite !bind_emit in E. cbn in E.
      apply pair_equal_spec in E. destruct E as [<- E].
      injection E as <-. now repeat split. }
  destruct M1 as (M1 & I1 & T0).
  inv_bind K. rename a into sl.
  assert (M2 : serverMode (snd sl) = serverMode loc /\
               init (snd sl) = true /\
               running (fst sl) = running st /\
               started (fst sl) = true /\
               windowChanged (fst sl) = false /\
               t2 = (if windowChanged st
                     then [SDL_WarpMouseInWindow (mouseX (poll_shm p))
                             (mouseY (poll_shm p))]
                     else [])).
  { destruct (windowChanged st) eqn:Ew.
    - rewrite bind_emit in E0. cbn in E0.
      apply pair_equal_spec in E0. destruct E0 as [<- E0].
      injection E0 as <-.
      cbn [fst snd running started windowChanged serverMode init
             at_guest_position].
      now repeat split.
    - apply pair_equal_spec in E0. destruct E0 as [<- E0].
      injection E0 as <-. cbn [fst snd]. now repeat split. }
  destruct M2 as (M2 & I2 & R2 & S2 & W2 & T1).
  inv_bind K. rename a into loc3.
  apply pair_equal_spec in K. destruct K as [<- K]. injection K as <-.
  exists (fst sl), (snd sl), loc3, t4.
  repeat split; try assumption.
  subst. now rewrite app_nil_r.
Qed.

Lemma handle_event_flags (st : KVMGFXState) (loc : EventLocals) (p : Poll)
  (t : list input_call) (r : event_res) :
  handle_event usb_to_ps2 st loc p = (t, Ok r) ->
  if is_quit p then r = EventBreak (clear_running st) loc
  else exists st' loc',
      r = EventContinue st' loc' /\
      running st' = running st /\
      started st' = started st /\
      windowChanged st' = windowChanged st && negb (started st).
Proof.
  intros H. destruct (started st) eqn:Hs.
  - destruct (is_quit p) eqn:Hq.
    + unfold is_quit in Hq. unfold handle_event in H.
      destruct (event p); try discriminate.
      now injection H as _ <-.
    + destruct (handle_event_started _ _ _ _ _ Hs Hq H)
        as (st' & loc0 & loc' & td & -> & R & S & W & _).
      exists st', loc'. rewrite W, andb_false_r. now repeat split.
  - rewrite handle_event_not_started in H by assumption.
    injection H as _ <-. destruct (is_quit p); [reflexivity|].
    exists st, loc. rewrite andb_true_r. now repeat split.
Qed.

Lemma poll_events_flags (q : list Poll) :
  forall (st : KVMGFXState) (loc : EventLocals) (t : list input_call)
         (st' : KVMGFXState) (loc' : EventLocals),
    poll_events usb_to_ps2 st loc q = (t, Ok (st', loc')) ->
    running st' = running st && negb (existsb is_quit q) /\
    started st' = started st /\
    (windowChanged st' = true -> windowChanged st = true).
Proof.
  induction q as [|p q IH]; intros st loc t st' loc' H;
    cbn [poll_events existsb] in *.
  - injection H as _ <- _. rewrite andb_true_r. now repeat split.
  - inv_bind H. apply handle_event_flags in E.
    destruct (is_quit p).
    + subst a. injection H as _ <- _. cbn [orb negb running started
                                             windowChanged clear_running].
      rewrite andb_false_r. now repeat split.
    + destruct E as (s1 & l1 & -> & R1 & S1 & W1).
      destruct (IH _ _ _ _ _ H) as (R & S & W).
      cbn [orb]. rewrite R, S, R1, S1. repeat split.
      intros Hw. specialize (W Hw). rewrite W1 in W.
      now apply andb_true_iff in W.
Qed.


(** *** Events spread over several rounds of polling *)

Lemma bind_assoc {E A B C : Type} (m : M E A) (k : A -> M E B)
  (k2 : B -> M E C) :
  bind (bind m k) k2 = bind m (fun a => bind (k a) k2).
Proof.
  destruct m as [t [a|f]]; [|reflexivity].
  rewrite !bind_pair. destruct (k a) as [t1 [b|f]]; cbn [fst snd].
  - rewrite !bind_pair. cbn [fst snd]. now rewrite app_assoc.
  - reflexivity.
Qed.

Lemma forallb_bind {E A B : Type} (P : E -> bool) (m : M E A)
  (k : A -> M E B) :
  forallb P (fst m) = true ->
  (forall a, forallb P (fst (k a)) = true) ->
  forallb P (fst (bind m k)) = true.
Proof.
  destruct m as [t [a|f]]; intros H K; [|exact H].
  rewrite bind_pair. cbn [fst] in *. rewrite forallb_app, H. apply K.
Qed.

(** Until the quit signal comes, a queue is handled event by event. *)
Lemma poll_events_app (q1 : list Poll) :
  forall (st : KVMGFXState) (loc : EventLocals) (q2 : list Poll),
    existsb is_quit q1 = false ->
    poll_events usb_to_ps2 st loc (q1 ++ q2)
    = (sl <- poll_events usb_to_ps2 st loc q1 ;;
       poll_events usb_to_ps2 (fst sl) (snd sl) q2).
Proof.
  induction q1 as [|p q1 IH]; intros st loc q2 Hq; cbn [app poll_events].
  - unfold ret. rewrite bind_pair. cbn [fst snd app].
    now destruct (poll_events usb_to_ps2 st loc q2).
  - cbn [existsb] in Hq. apply orb_false_iff in Hq. destruct Hq as [Hp Hq].
    rewrite bind_assoc.
    destruct (handle_event usb_to_ps2 st loc p) as [t [r|f]] eqn:E;
      [|reflexivity].
    pose proof (handle_event_flags _ _ _ _ _ E) as F. rewrite Hp in F.
    destruct F as (st' & loc' & -> & _).
    rewrite !bind_pair. cbn beta iota. now rewrite IH.
Qed.

Lemma dispatch_no_sleep (loc : EventLocals) (p : Poll) :
  forallb (fun c => negb (is_sleep c)) (fst (dispatch usb_to_ps2 loc p))
  = true.
Proof.
  unfold dispatch, mapScancode, lift.
  destruct (event p) as [|sc rep|sc rep|y|x y xr yr|b x y|b x y|ty];
    try reflexivity;
    repeat first
      [ progress cbn
      | match goal with
        | |- context [if ?c then _ else _] => destruct c
        | |- context [table_load ?u ?i] => destruct (table_load u i)
        end ];
    reflexivity.
Qed.

Lemma handle_event_no_sleep (st : KVMGFXState) (loc : EventLocals)
  (p : Poll) :
  forallb (fun c => negb (is_sleep c))
    (fst (handle_event usb_to_ps2 st loc p)) = true.
Proof.
  unfold handle_event.
  destruct (event p); try reflexivity;
    (destruct (negb (started st)); [reflexivity|]);
    (apply forallb_bind; [destruct (negb (init loc)); reflexivity|]);
    intros loc1;
    (apply forallb_bind; [destruct (windowChanged st); reflexivity|]);
    intros sl;
    (apply forallb_bind; [apply dispatch_no_sleep|]);
    intros loc3; reflexivity.
Qed.

Lemma poll_events_no_sleep (q : list Poll) :
  forall (st : KVMGFXState) (loc : EventLocals),
    forallb (fun c => negb (is_sleep c))
      (fst (poll_events usb_to_ps2 st loc q)) = true.
Proof.
  induction q as [|p q IH]; intros st loc; cbn [poll_events];
    [reflexivity|].
  apply forallb_bind; [apply handle_event_no_sleep|].
  intros [st' loc'|st' loc']; [apply IH|reflexivity].
Qed.

Lemma without_sleep_id (t : list input_call) :
  forallb (fun c => negb (is_sleep c)) t = true -> without_sleep t = t.
Proof.
  unfold without_sleep.
  induction t as [|c t IH]; cbn [forallb filter]; [reflexivity|].
  intros H. apply andb_true_iff in H. destruct H as [Hc Ht].
  rewrite Hc, (IH Ht). reflexivity.
Qed.

Lemma without_sleep_app (t1 t2 : list input_call) :
  without_sleep (t1 ++ t2) = without_sleep t1 ++ without_sleep t2.
Proof. apply filter_app. Qed.

Lemma mode_calls_app (t1 t2 : list input_call) :
  mode_calls (t1 ++ t2) = mode_calls t1 ++ mode_calls t2.
Proof.
  induction t1 as [|c t1 IH]; [reflexivity|].
  destruct c; cbn [app mode_calls]; now rewrite ?IH.
Qed.

Lemma mode_calls_without_sleep (t : list input_call) :
  mode_calls (without_sleep t) = mode_calls t.
Proof.
  unfold without_sleep.
  induction t as [|c t IH]; [reflexivity|].
  destruct c; cbn [filter is_sleep negb mode_calls]; now rewrite ?IH.
Qed.

Lemma existsb_concat {A : Type} (f : A -> bool) (ls : list (list A)) :
  existsb (existsb f) ls = existsb f (concat ls).
Proof.
  induction ls as [|l ls IH]; [reflexivity|].
  cbn [existsb concat]. now rewrite existsb_app, IH.
Qed.

(** As long as no quit signal is polled, the rounds of the outer loop
    handle the events as one queue, with a sleep after every round, and
    the loop goes on from the state the queue leaves. *)
Lemma event_loop_rounds (rounds : list (list Poll)) :
  forall (st : KVMGFXState) (loc : EventLocals) (t : list input_call)
         (r : option (KVMGFXState * EventLocals)),
    running st = true ->
    existsb (existsb is_quit) rounds = false ->
    event_loop usb_to_ps2 st loc rounds = (t, Ok r) ->
    exists st' loc',
      poll_events usb_to_ps2 st loc (concat rounds)
      = (without_sleep t, Ok (st', loc')) /\
      running st' = true /\
      forall more,
        event_loop usb_to_ps2 st loc (rounds ++ more)
        = (t ++ fst (event_loop usb_to_ps2 st' loc' more),
           snd (event_loop usb_to_ps2 st' loc' more)).
Proof.
  induction rounds as [|q rounds IH]; intros st loc t r Hr Hq H;
    cbn [event_loop] in H; rewrite Hr in H.
  - injection H as <- _. exists st, loc. cbn [concat poll_events app].
    repeat split; [assumption|]. intros more. cbn [app].
    now destruct (event_loop usb_to_ps2 st loc more).
  - cbn [existsb] in Hq. apply orb_false_iff in Hq. destruct Hq as [Hq1 Hq].
    inv_bind H. destruct a as [s1 l1]. rewrite bind_emit in H.
    cbn [fst snd] in H.
    destruct (event_loop usb_to_ps2 s1 l1 rounds) as [t3 r3] eqn:E3.
    cbn [fst snd] in H. injection H as <- ->.
    destruct (poll_events_flags q _ _ _ _ _ E) as (R1 & _).
    rewrite Hr, Hq1 in R1. cbn [andb negb] in R1.
    destruct (IH s1 l1 t3 r R1 Hq E3) as (st' & loc' & P & R' & K).
    exists st', loc'. split; [|split; [exact R'|]].
    + cbn [concat]. rewrite poll_events_app, E, bind_pair by assumption.
      cbn [fst snd]. rewrite P. cbn [fst snd]. subst t.
      rewrite without_sleep_app. cbn [without_sleep filter is_sleep negb].
      fold (without_sleep t3). f_equal. f_equal.
      symmetry. apply without_sleep_id.
      pose proof (poll_events_no_sleep q st loc) as N.
      now rewrite E in N.
    + intros more. cbn [app event_loop]. rewrite Hr, E, bind_pair, bind_emit.
      cbn [fst snd]. rewrite (K more). cbn [fst snd]. subst t.
      now rewrite <- app_assoc.
Qed.

Lemma dispatch_mode_calls (loc : EventLocals) (p : Poll) :
  mode_calls (fst (dispatch usb_to_ps2 loc p))
  = if is_toggle p then [negb (serverMode loc)] else [].
Proof.
  unfold dispatch, is_toggle, mapScancode, lift.
  destruct (event p) as [|sc rep|sc rep|y|x y xr yr|b x y|b x y|ty];
    try reflexivity;
    try (destruct (sc =? SDL_SCANCODE_SCROLLLOCK); destruct (rep =? 0);
         cbn [negb andb]);
    repeat first
      [ progress cbn
      | match goal with
        | |- context [if ?c then _ else _] => destruct c
        | |- context [table_load ?u ?i] => destruct (table_load u i)
        end ];
    reflexivity.
Qed.

Lemma handle_event_mode_calls (st : KVMGFXState) (loc : EventLocals)
  (p : Poll) (t : list input_call) (r : event_res) :
  started st = true ->
  is_quit p = false ->
  handle_event usb_to_ps2 st loc p = (t, Ok r) ->
  exists st' loc',
    r = EventContinue st' loc' /\
    started st' = true /\
    init loc' = true /\
    serverMode loc' = xorb (is_toggle p) (serverMode loc) /\
    mode_calls t
    = (if init loc then [] else [false])
        ++ (if is_toggle p then [negb (serverMode loc)] else []).
Proof.
  intros Hs Hq H.
  destruct (handle_event_started _ _ _ _ _ Hs Hq H)
    as (st' & loc0 & loc' & td & -> & _ & S' & _ & I0 & M0 & D & ->).
  destruct (dispatch_mode _ _ _ _ D) as (M & I & _).
  exists st', loc'. split; [reflexivity|]. split; [exact S'|].
  split; [congruence|]. split; [congruence|].
  rewrite !mode_calls_app.
  pose proof (dispatch_mode_calls loc0 p) as C. rewrite D in C.
  cbn [fst] in C. rewrite C, M0.
  destruct (init loc), (windowChanged st); reflexivity.
Qed.

Lemma poll_events_passive_modes (mid : list Poll) :
  forall (st : KVMGFXState) (loc : EventLocals) (t : list input_call)
         (st' : KVMGFXState) (loc' : EventLocals),
    started st = true ->
    init loc = true ->
    forallb passive mid = true ->
    poll_events usb_to_ps2 st loc mid = (t, Ok (st', loc')) ->
    mode_calls t = [] /\
    init loc' = true /\
    started st' = true /\
    serverMode loc' = serverMode loc.
Proof.
  induction mid as [|m mid IH]; intros st loc t st' loc' Hs Hi Hp H;
    cbn [poll_events] in H.
  - injection H as <- <- <-. now repeat split.
  - cbn [forallb] in Hp. apply andb_true_iff in Hp. destruct Hp as [Hm Hp].
    apply passive_spec in Hm. destruct Hm as [Hmt Hmq].
    inv_bind H.
    destruct (handle_event_mode_calls _ _ _ _ _ Hs Hmq E)
      as (s1 & l1 & -> & S1 & I1 & M1 & C1).
    rewrite Hmt, Hi in C1. rewrite Hmt in M1. cbn [xorb app] in *.
    destruct (IH _ _ _ _ _ S1 I1 Hp H) as (C & I' & S' & M').
    subst t. rewrite mode_calls_app, C1, C.
    repeat split; try assumption. congruence.
Qed.

Lemma passive_no_quit (mid : list Poll) :
  forallb passive mid = true -> existsb is_quit mid = false.
Proof.
  induction mid as [|m mid IH]; cbn [forallb existsb]; [reflexivity|].
  intros H. apply andb_true_iff in H. destruct H as [Hm H].
  apply passive_spec in Hm. destruct Hm as [_ ->]. now apply IH.
Qed.

(** The pointer modes that the two presses ask of the guest. *)
Lemma poll_events_toggle_twice_calls (st : KVMGFXState) (loc : EventLocals)
  (p1 : Poll) (mid : list Poll) (p2 : Poll) (t : list input_call)
  (st' : KVMGFXState) (loc' : EventLocals) :
  started st = true ->
  is_toggle p1 = true ->
  forallb passive mid = true ->
  is_toggle p2 = true ->
  poll_events usb_to_ps2 st loc (p1 :: mid ++ [p2]) = (t, Ok (st', loc')) ->
  mode_calls t
  = (if init loc then [] else [false])
      ++ [negb (serverMode loc); serverMode loc].
Proof.
  intros Hs H1 Hmid H2 H.
  cbn [poll_events] in H. inv_bind H.
  destruct (handle_event_mode_calls _ _ _ _ _ Hs
              (is_toggle_not_quit _ H1) E)
    as (s1 & l1 & -> & S1 & I1 & M1 & C1).
  rewrite H1 in C1, M1. cbn [xorb] in M1.
  rewrite poll_events_app in H by now apply passive_no_quit.
  inv_bind H. destruct a as [s2 l2]. cbn [fst snd] in H.
  destruct (poll_events_passive_modes mid _ _ _ _ _ S1 I1 Hmid E0)
    as (C2 & I2 & S2 & M2).
  cbn [poll_events] in H. inv_bind H.
  destruct (handle_event_mode_calls _ _ _ _ _ S2
              (is_toggle_not_quit _ H2) E1)
    as (s3 & l3 & -> & _ & _ & _ & C3).
  injection H as <- _ _. rewrite H2, I2, M2, M1 in C3.
  subst. rewrite !mode_calls_app, C1, C2, C3, app_nil_r.
  cbn [app]. rewrite <- app_assoc. cbn [app].
  now destruct (serverMode loc).
Qed.

(** C6.  Two first presses of Scroll Lock, in the same round of polling
    or in different ones, with any events between them that are neither
    such a press nor the quit signal, leave the event thread in the
    pointer mode it started in: it goes on with the rounds that follow
    in that mode, and the guest was asked for the other mode and then
    for the first one again.  When that mode is the absolute one, the
    second press ends by warping the cursor to the position the guest
    reports, which becomes the last known position.  No key event of
    the hotkey sends a key message. *)
Theorem toggle_twice_restores_mode (st : KVMGFXState) (loc : EventLocals)
  (rounds : list (list Poll)) (p1 : Poll) (mid : list Poll) (p2 : Poll)
  (t : list input_call) (r : option (KVMGFXState * EventLocals)) :
  running st = true ->
  started st = true ->
  concat rounds = p1 :: mid ++ [p2] ->
  is_toggle p1 = true ->
  forallb passive mid = true ->
  is_toggle p2 = true ->
  event_loop usb_to_ps2 st loc rounds = (t, Ok r) ->
  exists (st' : KVMGFXState) (loc' : EventLocals),
    (forall more,
        event_loop usb_to_ps2 st loc (rounds ++ more)
        = (t ++ fst (event_loop usb_to_ps2 st' loc' more),
           snd (event_loop usb_to_ps2 st' loc' more))) /\
    (loc = event_init ->
     forall more,
       eventThread usb_to_ps2 st (rounds ++ more)
       = (SDL_SetHint_MOUSE_RELATIVE_MODE_WARP
            :: t ++ fst (event_loop usb_to_ps2 st' loc' more),
          snd (event_loop usb_to_ps2 st' loc' more))) /\
    running st' = true /\
    started st' = true /\
    serverMode loc' = serverMode loc /\
    mode_calls t
    = (if init loc then [] else [false])
        ++ [negb (serverMode loc); serverMode loc] /\
    (serverMode loc = false ->
     ev_mouseX loc' = mouseX (poll_shm p2) /\
     ev_mouseY loc' = mouseY (poll_shm p2) /\
     exists t0,
       without_sleep t
       = t0 ++ [spice_mouse_mode false; SDL_SetRelativeMouseMode false;
                SDL_WarpMouseInWindow (mouseX (poll_shm p2))
                  (mouseY (poll_shm p2))]) /\
    (forall (st0 : KVMGFXState) (loc0 : EventLocals) (p : Poll),
        is_hotkey p = true ->
        forallb (fun c => negb (is_key_call c))
          (fst (handle_event usb_to_ps2 st0 loc0 p)) = true).
Proof.
  intros Hr Hs Hc H1 Hmid H2 H.
  assert (Hq : existsb (existsb is_quit) rounds = false).
  { rewrite existsb_concat, Hc. cbn [existsb].
    rewrite existsb_app, (is_toggle_not_quit _ H1),
      (passive_no_quit _ Hmid). cbn [existsb orb].
    now rewrite (is_toggle_not_quit _ H2). }
  destruct (event_loop_rounds rounds st loc t r Hr Hq H)
    as (st' & loc' & P & R' & K).
  rewrite Hc in P.
  destruct (poll_events_flags _ _ _ _ _ _ P) as (_ & S' & _).
  destruct (poll_events_toggle_twice _ _ _ _ _ _ _ _ Hs H1 Hmid H2 P)
    as (Mode & W).
  pose proof (poll_events_toggle_twice_calls _ _ _ _ _ _ _ _
                Hs H1 Hmid H2 P) as C.
  rewrite mode_calls_without_sleep in C.
  exists st', loc'.
  split; [exact K|]. split.
  { intros -> more. unfold eventThread. rewrite (K more), bind_emit.
    reflexivity. }
  split; [exact R'|]. split; [congruence|]. split; [exact Mode|].
  split; [exact C|]. split.
  - intros Hm. apply W. congruence.
  - apply hotkey_not_forwarded.
Qed.

End EventThread.

(** ** Runs on the sample inputs *)

(** Three timeouts, then a frame: three kicks, then the frame is
    negotiated, decoded, acknowledged and presented. *)
Lemma wait_loop_kicks_per_timeout_witness :
  fst (render_pass RLEHeader_packed16 sample_magic state_at_launch
         (render_init sample_stack)
         (sample_pass FRAME_TYPE_RGB FRAME_COMP_NONE
            [IVSHMEM_WAIT_RESULT_TIMEOUT; IVSHMEM_WAIT_RESULT_TIMEOUT;
             IVSHMEM_WAIT_RESULT_TIMEOUT; IVSHMEM_WAIT_RESULT_OK]))
  = [ivshmem_kick_irq 1; ivshmem_kick_irq 1; ivshmem_kick_irq 1;
     SDL_SetWindowSize 1 1; SDL_SetWindowPosition_CENTERED;
     SDL_CreateTexture SDL_PIXELFORMAT_RGB24 1 1; SDL_LockTexture;
     glDisable_COLOR_LOGIC_OP; run_compFunc fn_compFunc_NONE 3;
     ivshmem_kick_irq 1; SDL_UnlockTexture; SDL_RenderClear;
     SDL_RenderCopy; SDL_RenderPresent].
Proof.
  rewrite (proj2 (proj2 (proj2
             (wait_loop_kicks_per_timeout RLEHeader_packed16 sample_magic
                state_at_launch (render_init sample_stack)
                (sample_pass FRAME_TYPE_RGB FRAME_COMP_NONE
                   [IVSHMEM_WAIT_RESULT_TIMEOUT; IVSHMEM_WAIT_RESULT_TIMEOUT;
                    IVSHMEM_WAIT_RESULT_TIMEOUT; IVSHMEM_WAIT_RESULT_OK])
                3 [] eq_refl eq_refl eq_refl eq_refl)))).
  reflexivity.
Defined.

(** A wait error: the thread returns, and [state.running] is as it was. *)
Lemma renderThread_wait_error_keeps_running_witness :
  renderThread RLEHeader_packed16 sample_magic sample_stack state_at_launch
    [sample_pass FRAME_TYPE_RGB FRAME_COMP_NONE [IVSHMEM_WAIT_RESULT_ERROR]]
  = ([render_DEBUG_ERROR "error during wait for host";
      SDL_DestroyTexture false],
     Ok (Returned {| running := true; started := false;
                     windowChanged := false |} [])).
Proof.
  exact (proj1 (proj2
           (renderThread_wait_error_keeps_running RLEHeader_packed16
              sample_magic sample_stack state_at_launch
              (sample_pass FRAME_TYPE_RGB FRAME_COMP_NONE
                 [IVSHMEM_WAIT_RESULT_ERROR])
              [] 0 [] eq_refl eq_refl eq_refl eq_refl))).
Defined.

(** A frame type outside the enumeration, met in the initial state. *)
Lemma unrecognized_header_defers_witness :
  exists loc',
    render_pass RLEHeader_packed16 sample_magic state_at_launch
      (render_init sample_stack)
      (sample_pass (FRAME_TYPE_unknown 99) FRAME_COMP_NONE
         [IVSHMEM_WAIT_RESULT_TIMEOUT; IVSHMEM_WAIT_RESULT_OK])
    = ([ivshmem_kick_irq 1], Ok (PassContinue state_at_launch loc')) /\
    frameType (format loc') = FRAME_TYPE_INVALID /\
    texture loc' = None.
Proof.
  destruct (unrecognized_header_defers RLEHeader_packed16 sample_magic
              sample_stack state_at_launch (render_init sample_stack)
              (sample_pass (FRAME_TYPE_unknown 99) FRAME_COMP_NONE
                 [IVSHMEM_WAIT_RESULT_TIMEOUT; IVSHMEM_WAIT_RESULT_OK])
              1 [] (reach_init _ _ _ _) eq_refl eq_refl eq_refl eq_refl
              eq_refl)
    as (loc' & P & I & T & _).
  exists loc'. split; [exact P|]. split; [exact I|exact T].
Defined.

(** An XOR frame of one pixel leaves three zero bytes behind. *)
Lemma drawFunc_XOR_clears_and_blend_confined_witness :
  firstn 3 [x00; x00; x00] = repeat x00 3.
Proof.
  exact (proj1
           (drawFunc_XOR_clears_and_blend_confined RLEHeader_packed16
              sample_magic (Some fn_compFunc_NONE)
              (sample_header FRAME_TYPE_XOR FRAME_COMP_NONE)
              [x09; x09; x09] [x80; x80; x80]
              [glEnable_COLOR_LOGIC_OP; glLogicOp_XOR;
               run_compFunc fn_compFunc_NONE 3; ivshmem_kick_irq 1;
               SDL_UnlockTexture; SDL_RenderCopy; SDL_RenderPresent]
              [x00; x00; x00] eq_refl)).
Defined.

(** C7, as stated, fails on what follows the frame.  After an XOR frame
    was presented, an iteration that finds the shared memory not
    initialised makes no call and one whose wait fails only logs:
    neither disables the logic op, which is still enabled after the next
    iteration and when [renderThread] returns. *)
Lemma drawFunc_XOR_blend_outlives_iteration :
  render_loop RLEHeader_packed16 sample_magic state_at_launch
    (render_init sample_stack)
    [sample_pass FRAME_TYPE_XOR FRAME_COMP_NONE [IVSHMEM_WAIT_RESULT_OK];
     sample_stale_pass]
  = ([SDL_SetWindowSize 1 1; SDL_SetWindowPosition_CENTERED;
      SDL_CreateTexture SDL_PIXELFORMAT_RGB24 1 1; SDL_LockTexture;
      glDisable_COLOR_LOGIC_OP; glEnable_COLOR_LOGIC_OP; glLogicOp_XOR;
      run_compFunc fn_compFunc_NONE 3; ivshmem_kick_irq 1;
      SDL_UnlockTexture; SDL_RenderCopy; SDL_RenderPresent],
     Ok None) /\
  blend_run BlendOff
    (fst (render_loop RLEHeader_packed16 sample_magic state_at_launch
            (render_init sample_stack)
            [sample_pass FRAME_TYPE_XOR FRAME_COMP_NONE
               [IVSHMEM_WAIT_RESULT_OK];
             sample_stale_pass]))
  = Some (BlendXor true) /\
  renderThread RLEHeader_packed16 sample_magic sample_stack state_at_launch
    [sample_pass FRAME_TYPE_XOR FRAME_COMP_NONE [IVSHMEM_WAIT_RESULT_OK];
     sample_stale_pass;
     sample_pass FRAME_TYPE_XOR FRAME_COMP_NONE [IVSHMEM_WAIT_RESULT_ERROR]]
  = ([SDL_SetWindowSize 1 1; SDL_SetWindowPosition_CENTERED;
      SDL_CreateTexture SDL_PIXELFORMAT_RGB24 1 1; SDL_LockTexture;
      glDisable_COLOR_LOGIC_OP; glEnable_COLOR_LOGIC_OP; glLogicOp_XOR;
      run_compFunc fn_compFunc_NONE 3; ivshmem_kick_irq 1;
      SDL_UnlockTexture; SDL_RenderCopy; SDL_RenderPresent;
      render_DEBUG_ERROR "error during wait for host";
      SDL_DestroyTexture true],
     Ok (Returned {| running := true; started := true;
                     windowChanged := true |} [])) /\
  blend_run BlendOff
    (fst (renderThread RLEHeader_packed16 sample_magic sample_stack
            state_at_launch
            [sample_pass FRAME_TYPE_XOR FRAME_COMP_NONE
               [IVSHMEM_WAIT_RESULT_OK];
             sample_stale_pass;
             sample_pass FRAME_TYPE_XOR FRAME_COMP_NONE
               [IVSHMEM_WAIT_RESULT_ERROR]]))
  = Some (BlendXor true).
Proof. repeat split; reflexivity. Qed.

(** A press in the first round, a motion and the release in the second,
    an empty round, and a press in the fourth: back in absolute mode at
    the position the guest reports. *)
Lemma toggle_twice_restores_mode_witness :
  exists (st' : KVMGFXState) (loc' : EventLocals),
    (forall more,
        event_loop sample_table state_streaming event_init
          ([[sample_poll (SDL_KEYDOWN 71 0)];
            [sample_poll (SDL_MOUSEMOTION 5 6 1 2);
             sample_poll (SDL_KEYUP 71 0)];
            [];
            [sample_poll (SDL_KEYDOWN 71 0)]] ++ more)
        = ([spice_mouse_mode false; SDL_WarpMouseInWindow 320 240;
            spice_mouse_mode true; SDL_SetRelativeMouseMode true;
            usleep 1000; spice_mouse_motion 1 2; usleep 1000;
            usleep 1000; spice_mouse_mode false;
            SDL_SetRelativeMouseMode false; SDL_WarpMouseInWindow 320 240;
            usleep 1000]
             ++ fst (event_loop sample_table st' loc' more),
           snd (event_loop sample_table st' loc' more))) /\
    (event_init = event_init ->
     forall more,
       eventThread sample_table state_streaming
         ([[sample_poll (SDL_KEYDOWN 71 0)];
           [sample_poll (SDL_MOUSEMOTION 5 6 1 2);
            sample_poll (SDL_KEYUP 71 0)];
           [];
           [sample_poll (SDL_KEYDOWN 71 0)]] ++ more)
       = (SDL_SetHint_MOUSE_RELATIVE_MODE_WARP
            :: [spice_mouse_mode false; SDL_WarpMouseInWindow 320 240;
                spice_mouse_mode true; SDL_SetRelativeMouseMode true;
                usleep 1000; spice_mouse_motion 1 2; usleep 1000;
                usleep 1000; spice_mouse_mode false;
                SDL_SetRelativeMouseMode false;
                SDL_WarpMouseInWindow 320 240; usleep 1000]
            ++ fst (event_loop sample_table st' loc' more),
          snd (event_loop sample_table st' loc' more))) /\
    running st' = true /\
    started st' = true /\
    serverMode loc' = false /\
    [false; true; false] = [false; true; false] /\
    (false = false ->
     ev_mouseX loc' = 320 /\
     ev_mouseY loc' = 240 /\
     exists t0,
       [spice_mouse_mode false; SDL_WarpMouseInWindow 320 240;
        spice_mouse_mode true; SDL_SetRelativeMouseMode true;
        spice_mouse_motion 1 2; spice_mouse_mode false;
        SDL_SetRelativeMouseMode false; SDL_WarpMouseInWindow 320 240]
       = t0 ++ [spice_mouse_mode false; SDL_SetRelativeMouseMode false;
                SDL_WarpMouseInWindow 320 240]) /\
    (forall (st0 : KVMGFXState) (loc0 : EventLocals) (p : Poll),
        is_hotkey p = true ->
        forallb (fun c => negb (is_key_call c))
          (fst (handle_event sample_table st0 loc0 p)) = true).
Proof.
  exact (toggle_twice_restores_mode sample_table state_streaming
           event_init
           [[sample_poll (SDL_KEYDOWN 71 0)];
            [sample_poll (SDL_MOUSEMOTION 5 6 1 2);
             sample_poll (SDL_KEYUP 71 0)];
            [];
            [sample_poll (SDL_KEYDOWN 71 0)]]
           (sample_poll (SDL_KEYDOWN 71 0))
           [sample_poll (SDL_MOUSEMOTION 5 6 1 2);
            sample_poll (SDL_KEYUP 71 0)]
           (sample_poll (SDL_KEYDOWN 71 0))
           [spice_mouse_mode false; SDL_WarpMouseInWindow 320 240;
            spice_mouse_mode true; SDL_SetRelativeMouseMode true;
            usleep 1000; spice_mouse_motion 1 2; usleep 1000;
            usleep 1000; spice_mouse_mode false;
            SDL_SetRelativeMouseMode false; SDL_WarpMouseInWindow 320 240;
            usleep 1000]
           None eq_refl eq_refl eq_refl eq_refl eq_refl eq_refl eq_refl).
Defined.

(** A key pressed before the first frame goes nowhere. *)
Lemma events_before_start_discarded_witness :
  handle_event sample_table state_at_launch event_init
    (sample_poll (SDL_KEYDOWN 4 0))
  = ([], Ok (EventContinue state_at_launch event_init)).
Proof.
  exact (proj1
           (events_before_start_discarded sample_table state_at_launch
              event_init (sample_poll (SDL_KEYDOWN 4 0)) [] eq_refl)
           eq_refl).
Defined.

(** The table of three entries is read at index 3. *)
Lemma sample_table_read_at_3 :
  mapScancode sample_table 3 = ([], Fault (ReadOutOfBounds 3)).
Proof. reflexivity. Qed.

(** * Further properties *)

(** ** The codecs *)

Lemma compFunc_NONE_bounds (dst src : buffer) (len : Z) (d : buffer) :
  compFunc_NONE dst src len = Ok d ->
  0 <= len /\ len <= size src /\ len <= size dst.
Proof.
  unfold compFunc_NONE, memcpy, slice.
  destruct (Z.leb_spec 0 0); [|lia].
  destruct (Z.leb_spec 0 len); [|discriminate].
  destruct (Z.leb_spec (0 + len) (size src)); [|discriminate].
  cbn [andb].
  destruct (blit dst 0 (firstn (Z.to_nat len) (skipn (Z.to_nat 0) src)))
    as [b|] eqn:B; [|discriminate].
  intros _. unfold blit in B.
  destruct (Z.leb_spec 0 0); [|lia].
  destruct (Z.leb_spec
              (0 + size (firstn (Z.to_nat len) (skipn (Z.to_nat 0) src)))
              (size dst)) as [Hb|]; [|discriminate].
  unfold size in *. change (Z.to_nat 0) with 0%nat in Hb.
  cbn [skipn] in Hb. rewrite length_firstn in Hb. lia.
Qed.

(** X1.  When [compFunc_NONE] returns, [len] is within both buffers, the
    first [len] bytes of the destination are those of the payload, the
    rest of the destination and its size are as before, and decoding the
    same payload again changes nothing. *)
Theorem compFunc_NONE_exact (dst src : buffer) (len : Z) (d : buffer) :
  compFunc_NONE dst src len = Ok d ->
  0 <= len /\ len <= size src /\ len <= size dst /\
  firstn (Z.to_nat len) d = firstn (Z.to_nat len) src /\
  skipn (Z.to_nat len) d = skipn (Z.to_nat len) dst /\
  size d = size dst /\
  compFunc_NONE d src len = Ok d.
Proof.
  intros H.
  destruct (compFunc_NONE_bounds _ _ _ _ H) as (H0 & Hs & Hd).
  rewrite compFunc_NONE_copies in H by assumption. injection H as <-.
  assert (Hl : length (firstn (Z.to_nat len) src) = Z.to_nat len).
  { rewrite length_firstn. unfold size in *. lia. }
  assert (F : firstn (Z.to_nat len)
                (firstn (Z.to_nat len) src ++ skipn (Z.to_nat len) dst)
              = firstn (Z.to_nat len) src).
  { rewrite firstn_app, Hl, Nat.sub_diag. cbn [firstn].
    rewrite app_nil_r. apply firstn_all2. lia. }
  assert (S : skipn (Z.to_nat len)
                (firstn (Z.to_nat len) src ++ skipn (Z.to_nat len) dst)
              = skipn (Z.to_nat len) dst).
  { rewrite skipn_app, Hl, Nat.sub_diag. cbn [skipn].
    rewrite skipn_all2 by lia. reflexivity. }
  assert (Z : size (firstn (Z.to_nat len) src ++ skipn (Z.to_nat len) dst)
              = size dst).
  { unfold size in *. rewrite length_app, Hl, length_skipn. lia. }
  repeat split; try assumption.
  rewrite compFunc_NONE_copies by (rewrite ?Z; assumption).
  now rewrite S.
Qed.

Lemma compFunc_NONE_exact_witness :
  compFunc_NONE [x01; x02; x03; x09] [x01; x02; x03; x04] 3
  = Ok [x01; x02; x03; x09].
Proof.
  exact (proj2 (proj2 (proj2 (proj2 (proj2 (proj2
           (compFunc_NONE_exact [x09; x09; x09; x09] [x01; x02; x03; x04] 3
              [x01; x02; x03; x09] eq_refl))))))).
Defined.

Section BlackRLERuns.

Variable L : RLELayout.

(** [m] units that are not all zero are copied, whatever follows them. *)
Lemma rle_loop_literals (m : nat) :
  forall (fuel : nat) (pixels : Z) (pre suf t : buffer) (k : Z),
    zero_unit_free m suf = true ->
    size pre = 3 * k -> 0 <= k -> k + Z.of_nat m <= pixels ->
    pixels < 2 ^ 64 ->
    (3 * m <= length t)%nat ->
    rle_loop (m + fuel) L pixels (pre ++ suf)
      {| px := k; dpos := 3 * k; spos := 3 * k; out := pre ++ t |}
    = rle_loop fuel L pixels (pre ++ suf)
        {| px := k + Z.of_nat m; dpos := 3 * (k + Z.of_nat m);
           spos := 3 * (k + Z.of_nat m);
           out := pre ++ firstn (3 * m) suf ++ skipn (3 * m) t |}.
Proof.
  induction m as [|m IH]; intros fuel pixels pre suf t k Hz Hp Hk Hb Hw Ht.
  - replace (k + Z.of_nat 0) with k by lia. reflexivity.
  - cbn [zero_unit_free] in Hz.
    destruct suf as [|b0 [|b1 [|b2 rest]]]; try discriminate.
    apply andb_true_iff in Hz. destruct Hz as [Hnz Hrest].
    apply negb_true_iff in Hnz.
    assert (E0 : load (pre ++ b0 :: b1 :: b2 :: rest) (3 * k) = Some b0).
    { rewrite <- Hp, <- (Z.add_0_r (size pre)), load_app_r by lia.
      reflexivity. }
    assert (E1 : load (pre ++ b0 :: b1 :: b2 :: rest) (3 * k + 1) = Some b1).
    { rewrite <- Hp, load_app_r by lia. reflexivity. }
    assert (E2 : load (pre ++ b0 :: b1 :: b2 :: rest) (3 * k + 2) = Some b2).
    { rewrite <- Hp, load_app_r by lia. reflexivity. }
    assert (B : blit (pre ++ t) (3 * k) [b0; b1; b2]
                = Some (pre ++ [b0; b1; b2] ++ skipn 3 t)).
    { rewrite <- Hp. apply blit_app. cbn [length]. lia. }
    cbn [Nat.add rle_loop].
    rewrite (rle_step_copy L pixels (pre ++ b0 :: b1 :: b2 :: rest)
               {| px := k; dpos := 3 * k; spos := 3 * k; out := pre ++ t |}
               b0 b1 b2 (pre ++ [b0; b1; b2] ++ skipn 3 t));
      cbn [px dpos spos out]; try assumption; [|lia].
    rewrite wrap64_small by lia.
    replace (k + Z.of_nat (S m)) with ((k + 1) + Z.of_nat m) by lia.
    replace (3 * k + 3) with (3 * (k + 1)) by lia.
    replace (pre ++ b0 :: b1 :: b2 :: rest)
      with ((pre ++ [b0; b1; b2]) ++ rest)
      by (rewrite <- app_assoc; reflexivity).
    replace (pre ++ [b0; b1; b2] ++ skipn 3 t)
      with ((pre ++ [b0; b1; b2]) ++ skipn 3 t)
      by (rewrite <- app_assoc; reflexivity).
    rewrite (IH fuel pixels (pre ++ [b0; b1; b2]) rest (skipn 3 t) (k + 1));
      try assumption; try lia.
    + assert (O : (pre ++ [b0; b1; b2]) ++ firstn (3 * m) rest
                    ++ skipn (3 * m) (skipn 3 t)
                  = pre ++ firstn (3 * S m) (b0 :: b1 :: b2 :: rest)
                      ++ skipn (3 * S m) t).
      { replace (3 * S m)%nat with (S (S (S (3 * m)))) by lia.
        cbn [firstn]. rewrite <- app_assoc. cbn [app].
        rewrite skipn_skipn.
        replace (3 * m + 3)%nat with (S (S (S (3 * m)))) by lia.
        reflexivity. }
      rewrite O. reflexivity.
    + rewrite size_app. unfold size at 2. cbn [length]. lia.
    + rewrite length_skipn. lia.
Qed.

(** X2.  A payload that begins with [m] units that are not all zero and
    continues with a run header whose length covers the rest of the frame
    is decoded into the [m] pixels, and every byte of the destination
    after them is left as it was: the run writes no black. *)
Theorem compFunc_BLACK_RLE_final_run (dst src : buffer) (len : Z) (m : nat)
  (n : Z) :
  0 <= len < 2 ^ 64 ->
  len <= size dst ->
  zero_unit_free m src = true ->
  load src (3 * Z.of_nat m) = Some x00 ->
  load src (3 * Z.of_nat m + 1) = Some x00 ->
  load src (3 * Z.of_nat m + 2) = Some x00 ->
  rle_length L src (3 * Z.of_nat m) = Some n ->
  Z.of_nat m < len / 3 <= Z.of_nat m + n ->
  Z.of_nat m + n < 2 ^ 64 ->
  compFunc_BLACK_RLE L dst src len
  = Ok (firstn (3 * m) src ++ skipn (3 * m) dst).
Proof.
  intros Hl Hd Hz E0 E1 E2 En Hm Hw.
  assert (Hq3 : 3 * (len / 3) <= len) by (apply Z.mul_div_le; lia).
  pose proof (load_some_lt _ _ _ E2) as Hin.
  assert (Hf : exists fuel, length src = (m + S fuel)%nat).
  { exists (length src - m - 1)%nat. unfold size in Hin. lia. }
  destruct Hf as (fuel & Hf).
  unfold compFunc_BLACK_RLE, rle_decode, rle_start. rewrite Hf.
  pose proof (rle_loop_literals m (S fuel) (len / 3) [] src dst 0) as R.
  cbn [app] in R. change (3 * 0) with 0 in R. cbn [Z.add] in R.
  unfold size in Hd.
  rewrite R; [|assumption|reflexivity|lia|lia|lia|lia]. clear R.
  cbn [rle_loop].
  rewrite (rle_step_run L (len / 3) src _ n);
    cbn [px dpos spos out]; try assumption; [|lia].
  rewrite wrap64_small by (pose proof (rle_length_range L _ _ _ En); lia).
  destruct fuel; cbn [rle_loop]; unfold rle_step; cbn [px];
    destruct (Z.ltb_spec (Z.of_nat m + n) (len / 3)); try lia;
    reflexivity.
Qed.

End BlackRLERuns.

Lemma compFunc_BLACK_RLE_final_run_witness :
  compFunc_BLACK_RLE RLEHeader_packed16
    [x09; x09; x09; x09; x09; x09; x09; x09; x09]
    [x01; x02; x03; x00; x00; x00; x02; x00] 9
  = Ok [x01; x02; x03; x09; x09; x09; x09; x09; x09].
Proof.
  refine (compFunc_BLACK_RLE_final_run RLEHeader_packed16
            [x09; x09; x09; x09; x09; x09; x09; x09; x09]
            [x01; x02; x03; x00; x00; x00; x02; x00] 9 1 2
            _ _ eq_refl eq_refl eq_refl eq_refl eq_refl _ _).
  - lia.
  - vm_compute. discriminate.
  - vm_compute. split; [reflexivity|discriminate].
  - reflexivity.
Defined.

Lemma load_none (b : buffer) (o : Z) :
  load b o = None -> o < 0 \/ size b <= o.
Proof.
  unfold load, size. destruct (Z.ltb_spec o 0); [lia|].
  intros E. apply nth_error_None in E. lia.
Qed.

Lemma load_repeat_zero (k : nat) (o : Z) (b : byte) :
  load (repeat x00 k) o = Some b -> b = x00.
Proof.
  unfold load. destruct (o <? 0); [discriminate|].
  intros E. apply nth_error_In in E. now apply repeat_spec in E.
Qed.

Lemma le_combine_zero (l : buffer) :
  (forall b, In b l -> b = x00) -> le_combine l = 0.
Proof.
  induction l as [|a l IH]; intros H; cbn [le_combine]; [reflexivity|].
  rewrite (H a (or_introl eq_refl)), IH.
  - reflexivity.
  - intros b Hb. apply H. now right.
Qed.

Lemma rle_length_repeat_zero (L : RLELayout) (k : nat) (s n : Z) :
  rle_length L (repeat x00 k) s = Some n -> n = 0.
Proof.
  unfold rle_length, slice.
  destruct ((0 <=? s + rle_len_off L)
            && (0 <=? Z.of_nat (rle_len_bytes L))
            && (s + rle_len_off L + Z.of_nat (rle_len_bytes L)
                <=? size (repeat x00 k))); [|discriminate].
  cbn [option_map]. intros H. injection H as <-.
  apply le_combine_zero. intros b Hb.
  apply (repeat_spec k x00).
  rewrite <- (firstn_skipn (Z.to_nat (s + rle_len_off L)) (repeat x00 k)).
  apply in_or_app. right.
  rewrite <- (firstn_skipn (Z.to_nat (Z.of_nat (rle_len_bytes L)))
                (skipn (Z.to_nat (s + rle_len_off L)) (repeat x00 k))).
  apply in_or_app. now left.
Qed.

Lemma rle_length_none (L : RLELayout) (src : buffer) (s : Z) :
  0 <= s -> rle_length L src s = None ->
  size src < s + rle_len_off L + Z.of_nat (rle_len_bytes L).
Proof.
  intros Hs. unfold rle_length, slice, rle_len_off.
  destruct (Z.leb_spec 0 (s + (3 + Z.of_nat (rle_pad L)))); [|lia].
  destruct (Z.leb_spec 0 (Z.of_nat (rle_len_bytes L))); [|lia].
  destruct (Z.leb_spec
              (s + (3 + Z.of_nat (rle_pad L)) + Z.of_nat (rle_len_bytes L))
              (size src)); [discriminate|].
  intros _. lia.
Qed.

Lemma rle_loop_all_zero (L : RLELayout) (k : nat) (pixels : Z)
  (fuel : nat) :
  forall c : cursor,
    0 < pixels -> px c = 0 -> 0 <= spos c ->
    Z.of_nat k - spos c < 3 * (Z.of_nat fuel + 1) ->
    exists o,
      rle_loop fuel L pixels (repeat x00 k) c
      = Some (Fault (ReadOutOfBounds o)) /\
      Z.of_nat k < o + rle_sizeof L.
Proof.
  assert (Hk : size (repeat x00 k) = Z.of_nat k)
    by (unfold size; now rewrite repeat_length).
  induction fuel as [|fuel IH]; intros c Hp Hx Hs Hm; cbn [rle_loop];
    unfold rle_step; rewrite Hx;
    (destruct (Z.ltb_spec 0 pixels); [|lia]);
    (destruct (load (repeat x00 k) (spos c)) as [b0|] eqn:E0;
     [|apply load_none in E0; rewrite Hk in E0;
       exists (spos c); split; [reflexivity|unfold rle_sizeof; lia]]);
    (destruct (load (repeat x00 k) (spos c + 1)) as [b1|] eqn:E1;
     [|apply load_none in E1; rewrite Hk in E1;
       exists (spos c); split; [reflexivity|unfold rle_sizeof; lia]]);
    (destruct (load (repeat x00 k) (spos c + 2)) as [b2|] eqn:E2;
     [|apply load_none in E2; rewrite Hk in E2;
       exists (spos c); split; [reflexivity|unfold rle_sizeof; lia]]);
    apply load_repeat_zero in E0; apply load_repeat_zero in E1;
    pose proof (load_some_lt _ _ _ E2) as Hin; rewrite Hk in Hin;
    apply load_repeat_zero in E2; subst b0 b1 b2;
    change (is_zero x00 && is_zero x00 && is_zero x00) with true;
    cbv iota;
    (destruct (rle_length L (repeat x00 k) (spos c)) as [n|] eqn:En;
     [|apply rle_length_none in En; [|assumption]; rewrite Hk in En;
       exists (spos c + rle_len_off L); split;
       [reflexivity|unfold rle_sizeof, rle_len_off in *; lia]]).
  - lia.
  - apply rle_length_repeat_zero in En. subst n.
    apply IH; cbn [px spos]; try assumption.
    + reflexivity.
    + unfold rle_sizeof. lia.
    + unfold rle_sizeof. lia.
Qed.

(** X3.  A payload of zero bytes only is never decoded: each unit is read
    as a run header of length 0, the pixel counter does not move, and
    the decoder runs off the end of the payload. *)
Theorem compFunc_BLACK_RLE_all_zero (L : RLELayout) (dst : buffer)
  (k : nat) (len : Z) :
  3 <= len ->
  exists o,
    compFunc_BLACK_RLE L dst (repeat x00 k) len
    = Fault (ReadOutOfBounds o) /\
    Z.of_nat k < o + rle_sizeof L.
Proof.
  intros Hl.
  assert (Hp : 0 < len / 3) by (apply Z.div_str_pos; lia).
  destruct (rle_loop_all_zero L k (len / 3) (length (repeat x00 k))
              (rle_start dst) Hp eq_refl) as (o & E & Ho).
  - cbn [rle_start spos]. lia.
  - rewrite repeat_length. cbn [rle_start spos]. lia.
  - exists o. unfold compFunc_BLACK_RLE, rle_decode. rewrite E.
    now split.
Qed.

Lemma compFunc_BLACK_RLE_all_zero_witness :
  exists o,
    compFunc_BLACK_RLE RLEHeader_packed16 [x09; x09; x09; x09; x09; x09]
      (repeat x00 6) 6
    = Fault (ReadOutOfBounds o) /\
    Z.of_nat 6 < o + rle_sizeof RLEHeader_packed16.
Proof.
  apply (compFunc_BLACK_RLE_all_zero RLEHeader_packed16
           [x09; x09; x09; x09; x09; x09] 6 6).
  lia.
Defined.

(** ** The presenters *)

Section Presenters.

Variable L : RLELayout.
Variable MAGIC : buffer.

Lemma rle_loop_memory_fault (pixels : Z) (src : buffer) (fuel : nat) :
  forall (c : cursor) (f : fault),
    rle_loop fuel L pixels src c = Some (Fault f) -> memory_fault f = true.
Proof.
  induction fuel as [|fuel IH]; intros c f; cbn [rle_loop];
    destruct (rle_step L pixels src c) as [|c'|e] eqn:E;
    try discriminate; try (now apply IH).
  all: intros H; injection H as <-; unfold rle_step in E;
    destruct (px c <? pixels); try discriminate;
    destruct (load src (spos c)); [|now injection E as <-];
    destruct (load src (spos c + 1)); [|now injection E as <-];
    destruct (load src (spos c + 2)); [|now injection E as <-];
    destruct (is_zero b && is_zero b0 && is_zero b1);
    [destruct (rle_length L src (spos c))
    |destruct (blit (out c) (dpos c) [b; b0; b1])];
    try discriminate; now injection E as <-.
Qed.

Lemma call_compFunc_result (f : CompFunc) (dst src : buffer) (len : Z) :
  exists r,
    call_compFunc L (Some f) dst src len = ([run_compFunc f len], r) /\
    forall e, r = Fault e -> memory_fault e = true.
Proof.
  destruct f; unfold call_compFunc; rewrite bind_emit; cbn [lift fst snd];
    eexists; (split; [reflexivity|]); intros e.
  - unfold compFunc_NONE, memcpy.
    destruct (slice src 0 len); [|now intros [= <-]].
    destruct (blit dst 0 b); [discriminate|now intros [= <-]].
  - unfold compFunc_BLACK_RLE.
    destruct (rle_decode L dst src len) as [[c|e']|] eqn:E;
      [discriminate| |now intros [= <-]].
    intros [= <-]. exact (rle_loop_memory_fault _ _ _ _ _ E).
Qed.

Lemma memset0_fault (dst : buffer) (n : Z) (e : fault) :
  memset0 dst n = Fault e -> memory_fault e = true.
Proof.
  unfold memset0. destruct (blit dst 0 (repeat x00 (Z.to_nat n)));
    [discriminate|now intros [= <-]].
Qed.

(** What a presenter called through set pointers does, in one place. *)
Lemma call_drawFunc_summary (f : DrawFunc) (c : CompFunc)
  (h : KVMGFXHeader) (dst src : buffer) :
  existsb is_create (fst (call_drawFunc L (Some f) (Some c) h dst src))
  = false /\
  tex_run NoTexture (fst (call_drawFunc L (Some f) (Some c) h dst src))
  = Some NoTexture /\
  tex_run Held (fst (call_drawFunc L (Some f) (Some c) h dst src))
  = Some Held /\
  match snd (call_drawFunc L (Some f) (Some c) h dst src) with
  | Ok _ =>
      phase_run Idle (fst (call_drawFunc L (Some f) (Some c) h dst src))
      = Some Presented /\
      existsb is_present (fst (call_drawFunc L (Some f) (Some c) h dst src))
      = true
  | Fault e =>
      memory_fault e = true /\
      phase_run Idle (fst (call_drawFunc L (Some f) (Some c) h dst src))
      <> None /\
      (f <> fn_drawFunc_XOR ->
       existsb is_kick (fst (call_drawFunc L (Some f) (Some c) h dst src))
       = false)
  end.
Proof.
  destruct (call_compFunc_result c dst src (frame_bytes h 4))
    as (r4 & C4 & F4).
  destruct (call_compFunc_result c dst src (frame_bytes h 3))
    as (r3 & C3 & F3).
  destruct f; cbn [call_drawFunc];
    unfold drawFunc_ARGB, drawFunc_RGB, drawFunc_XOR, drawFunc_YUV444P,
      drawFunc_YUV420P, drawFunc_ARGB10;
    rewrite ?bind_emit; cbn [fst snd];
    rewrite ?C4, ?C3;
    try (destruct r4 as [d4|e4]; [|specialize (F4 e4 eq_refl)]);
    try (destruct r3 as [d3|e3]; [|specialize (F3 e3 eq_refl)]);
    rewrite ?bind_pair, ?bind_fault, ?bind_emit; cbn [fst snd app lift ret];
    try (destruct (memset0 d3 (frame_bytes h 3)) as [d|e] eqn:Em;
         [|apply memset0_fault in Em]);
    cbn; repeat split; try reflexivity; try assumption; try discriminate;
    try (intros N; now elim N).
Qed.

(** X4.  A presenter that returns has transferred the frame, then
    acknowledged it to the guest with one kick, then presented it once,
    in this order.  No presenter acknowledges a frame before its
    transfer, and when the decode stops on a fault the guest gets no
    kick (in [drawFunc_XOR] the fault can also come from the clearing
    that follows the present). *)
Theorem presenter_acknowledges_after_transfer (f : DrawFunc) (c : CompFunc)
  (h : KVMGFXHeader) (dst src : buffer) (t : list render_call)
  (r : res buffer) :
  call_drawFunc L (Some f) (Some c) h dst src = (t, r) ->
  phase_run Idle t <> None /\
  (forall d, r = Ok d -> phase_run Idle t = Some Presented) /\
  (forall e, r = Fault e -> f <> fn_drawFunc_XOR ->
             existsb is_kick t = false).
Proof.
  intros H.
  pose proof (call_drawFunc_summary f c h dst src) as (_ & _ & _ & S).
  rewrite H in S. cbn [fst snd] in S.
  destruct r as [d|e].
  - destruct S as (P & _). repeat split.
    + rewrite P. discriminate.
    + intros _ _. exact P.
    + discriminate.
  - destruct S as (_ & P & K). repeat split.
    + exact P.
    + discriminate.
    + intros _ _. exact K.
Qed.

End Presenters.

Lemma presenter_acknowledges_after_transfer_witness :
  phase_run Idle
    [run_compFunc fn_compFunc_NONE 3; ivshmem_kick_irq 1;
     SDL_UnlockTexture; SDL_RenderClear; SDL_RenderCopy; SDL_RenderPresent]
  = Some Presented.
Proof.
  exact (proj1 (proj2
           (presenter_acknowledges_after_transfer RLEHeader_packed16
              fn_drawFunc_RGB fn_compFunc_NONE
              (sample_header FRAME_TYPE_RGB FRAME_COMP_NONE)
              [x09; x09; x09] [x80; x80; x80]
              [run_compFunc fn_compFunc_NONE 3; ivshmem_kick_irq 1;
               SDL_UnlockTexture; SDL_RenderClear; SDL_RenderCopy;
               SDL_RenderPresent]
              (Ok [x80; x80; x80]) eq_refl))
           [x80; x80; x80] eq_refl).
Defined.

(** ** Resources of the render thread *)

Section RenderResources.

Variable L : RLELayout.
Variable MAGIC : buffer.

Lemma tex_run_app (s : tex_state) (t1 t2 : list render_call) :
  tex_run s (t1 ++ t2)
  = match tex_run s t1 with
    | Some s' => tex_run s' t2
    | None => None
    end.
Proof.
  revert s. induction t1 as [|c t1 IH]; intros s; cbn [app tex_run].
  - reflexivity.
  - destruct (tex_step s c); [apply IH|reflexivity].
Qed.

Lemma held_settled (loc : RenderLocals) : held loc <> Created.
Proof. unfold held. now destruct (texture loc). Qed.

Lemma wait_loop_calls (run : bool) (guest : Z)
  (rs : list IVSHMEM_WAIT_RESULT) :
  (forall s, s <> Created ->
             tex_run s (fst (wait_loop run guest rs)) = Some s) /\
  existsb is_present (fst (wait_loop run guest rs)) = false /\
  existsb is_create (fst (wait_loop run guest rs)) = false.
Proof.
  destruct run; [|destruct rs; repeat split; intros; reflexivity].
  induction rs as [|[] rs IH]; cbn [wait_loop];
    try (repeat split; intros; reflexivity).
  rewrite bind_emit. cbn [fst].
  destruct IH as (T & P & C). repeat split.
  - intros s Hs. cbn [tex_run]. destruct s; [|contradiction|];
      cbn [tex_step]; now apply T.
  - exact P.
  - exact C.
Qed.

Lemma destroy_calls_tex (loc : RenderLocals) :
  tex_run (held loc) (destroy_calls loc) = Some NoTexture.
Proof. unfold destroy_calls, held. now destruct (texture loc). Qed.

Lemma destroy_calls_quiet (loc : RenderLocals) :
  existsb is_present (destroy_calls loc) = false /\
  existsb is_create (destroy_calls loc) = false.
Proof. unfold destroy_calls. now destruct (texture loc). Qed.

Lemma bind_ret_map {E A B : Type} (m : M E A) (g : A -> B) :
  bind m (fun a => ret (g a))
  = (fst m, match snd m with
            | Ok a => Ok (g a)
            | Fault e => Fault e
            end).
Proof.
  destruct m as [t [a|e]]; [|reflexivity].
  rewrite bind_pair. cbn. now rewrite app_nil_r.
Qed.

(** What a pass does once a frame is ready, in the three cases of the
    negotiation. *)
Lemma process_frame_cases (st : KVMGFXState) (loc : RenderLocals)
  (p : Pass) :
  (areFormatsSame (format loc) (shm p) = true /\
   process_frame L st loc p
   = (glDisable_COLOR_LOGIC_OP
        :: fst (call_drawFunc L (drawFunc loc) (compFunc loc) (shm p)
                  (texPixels loc) (payload p)),
      match snd (call_drawFunc L (drawFunc loc) (compFunc loc) (shm p)
                   (texPixels loc) (payload p)) with
      | Ok dst' =>
          Ok (PassContinue
                {| running := running st; started := true;
                   windowChanged := windowChanged st |}
                {| format := format loc; texture := texture loc;
                   texPixels := dst'; drawFunc := drawFunc loc;
                   compFunc := compFunc loc |})
      | Fault e => Fault e
      end)) \/
  (areFormatsSame (format loc) (shm p) = false /\
   exists loc',
     process_frame L st loc p
     = (destroy_calls loc, Ok (PassContinue st loc')) /\
     frameType (format loc') = FRAME_TYPE_INVALID /\
     texture loc' = None) \/
  (areFormatsSame (format loc) (shm p) = false /\
   recognized (shm p) = true /\
   exists fmt df cf,
     process_frame L st loc p
     = (destroy_calls loc
          ++ [SDL_SetWindowSize (width (shm p)) (height (shm p));
              SDL_SetWindowPosition_CENTERED;
              SDL_CreateTexture fmt (width (shm p)) (height (shm p));
              if texture_created p then SDL_LockTexture
              else SDL_LockTexture_NULL;
              glDisable_COLOR_LOGIC_OP]
          ++ fst (call_drawFunc L (Some df) (Some cf) (shm p)
                    (if texture_created p then fresh_pixels p else [])
                    (payload p)),
        match snd (call_drawFunc L (Some df) (Some cf) (shm p)
                     (if texture_created p then fresh_pixels p else [])
                     (payload p)) with
        | Ok dst' =>
            Ok (PassContinue
                  {| running := running st; started := true;
                     windowChanged := true |}
                  {| format := shm p;
                     texture := if texture_created p
                                then Some {| tex_format := fmt;
                                             tex_width := width (shm p);
                                             tex_height := height (shm p) |}
                                else None;
                     texPixels := dst'; drawFunc := Some df;
                     compFunc := Some cf |})
        | Fault e => Fault e
        end)).
Proof.
  destruct (areFormatsSame (format loc) (shm p)) eqn:E.
  - left. split; [reflexivity|]. unfold process_frame.
    rewrite negotiate_same by assumption.
    rewrite bind_pair, bind_emit, bind_ret_map. reflexivity.
  - right. destruct (recognized (shm p)) eqn:R.
    + right. split; [reflexivity|]. split; [reflexivity|].
      destruct (negotiate_recognized st loc p E R)
        as (fmt & df & cf & _ & _ & N).
      exists fmt, df, cf. unfold process_frame. rewrite N.
      rewrite bind_pair, bind_emit, bind_ret_map.
      cbn [fst snd running started windowChanged format texture texPixels
             drawFunc compFunc].
      rewrite <- app_assoc. reflexivity.
    + left. split; [reflexivity|].
      destruct (process_frame_unrecognized L st loc p E R)
        as (loc' & P & I & T).
      exists loc'. now repeat split.
Qed.

Lemma process_frame_resources (st : KVMGFXState) (loc : RenderLocals)
  (p : Pass) (s : tex_state) :
  render_consistent loc s ->
  exists s',
    tex_run s (fst (process_frame L st loc p)) = Some s' /\
    match snd (process_frame L st loc p) with
    | Ok (PassContinue _ loc') | Ok (PassBreak _ loc') =>
        render_consistent loc' s'
    | Ok PassBlocked => True
    | Fault e => memory_fault e = true
    end.
Proof.
  intros (-> & Hc).
  destruct (process_frame_cases st loc p)
    as [(E & P)|[(E & loc' & P & I & T)|(E & _ & fmt & df & cf & P)]];
    rewrite P; clear P; cbn [fst snd].
  - apply areFormatsSame_iff in E. destruct E as (V & _).
    destruct (Hc V) as (Hd & Hf).
    destruct (drawFunc loc) as [df|] eqn:Ed; [|contradiction].
    destruct (compFunc loc) as [cf|] eqn:Ef; [|contradiction].
    pose proof (call_drawFunc_summary L df cf (shm p) (texPixels loc)
                  (payload p)) as (_ & T0 & T1 & S).
    exists (held loc). split.
    + cbn [tex_run]. unfold held. destruct (texture loc); cbn [tex_step];
        assumption.
    + destruct (snd (call_drawFunc L (Some df) (Some cf) (shm p)
                       (texPixels loc) (payload p))) as [d|e].
      * split; [reflexivity|]. cbn [format drawFunc compFunc].
        intros _. split; discriminate.
      * apply S.
  - exists NoTexture. split.
    + apply destroy_calls_tex.
    + split; [unfold held; now rewrite T|]. intros N. contradiction.
  - pose proof (call_drawFunc_summary L df cf (shm p)
                  (if texture_created p then fresh_pixels p else [])
                  (payload p)) as (_ & T0 & T1 & S).
    exists (if texture_created p then Held else NoTexture). split.
    + rewrite !tex_run_app, destroy_calls_tex.
      destruct (texture_created p); cbn [tex_run tex_step app];
        assumption.
    + destruct (snd (call_drawFunc L (Some df) (Some cf) (shm p)
                       (if texture_created p then fresh_pixels p else [])
                       (payload p))) as [d|e].
      * split; [unfold held; cbn [texture]; now destruct (texture_created p)|].
        cbn [format drawFunc compFunc]. intros _. split; discriminate.
      * apply S.
Qed.

Lemma render_pass_resources (st : KVMGFXState) (loc : RenderLocals)
  (p : Pass) (s : tex_state) :
  render_consistent loc s ->
  exists s',
    tex_run s (fst (render_pass L MAGIC st loc p)) = Some s' /\
    match snd (render_pass L MAGIC st loc p) with
    | Ok (PassContinue _ loc') | Ok (PassBreak _ loc') =>
        render_consistent loc' s'
    | Ok PassBlocked => True
    | Fault e => memory_fault e = true
    end.
Proof.
  intros H. unfold render_pass.
  destruct (negb (magic_ok MAGIC (shm p))); [exists s; now split|].
  destruct (negb (version (shm p) =? 2)); [exists s; now split|].
  destruct (wait_loop_idle (running st) (guestID (shm p)) (irqs p))
    as (w & Ew & _).
  destruct (wait_loop_calls (running st) (guestID (shm p)) (irqs p))
    as (Tw & _ & _).
  destruct (wait_loop (running st) (guestID (shm p)) (irqs p)) as [tw rw].
  cbn [fst snd] in Ew, Tw. subst rw. rewrite bind_pair. cbn [fst snd].
  destruct (process_frame_resources st loc p s H) as (s' & T & R).
  assert (Hs : s <> Created).
  { destruct H as (-> & _). apply held_settled. }
  destruct w; rewrite tex_run_app, (Tw s Hs).
  - exists s'. now split.
  - exists s. destruct s; [|contradiction|]; now split.
  - exists s'. now split.
  - exists s. now split.
Qed.

Lemma render_loop_resources (ps : list Pass) :
  forall (st : KVMGFXState) (loc : RenderLocals) (s : tex_state),
    render_consistent loc s ->
    exists s',
      tex_run s (fst (render_loop L MAGIC st loc ps)) = Some s' /\
      match snd (render_loop L MAGIC st loc ps) with
      | Ok (Some (_, loc', _)) => render_consistent loc' s'
      | Ok None => True
      | Fault e => memory_fault e = true
      end.
Proof.
  induction ps as [|p ps IH]; intros st loc s H; cbn [render_loop];
    destruct (running st); try (exists s; now split).
  destruct (render_pass_resources st loc p s H) as (s1 & T & R).
  destruct (render_pass L MAGIC st loc p) as [t [r|e]]; cbn [fst snd] in *.
  - rewrite bind_pair. cbn [fst snd]. rewrite tex_run_app, T.
    destruct r as [st' loc'|st' loc'|].
    + apply IH. exact R.
    + exists s1. now split.
    + exists s1. now split.
  - exists s1. now split.
Qed.

Lemma render_init_consistent (stack : KVMGFXHeader) :
  render_consistent (render_init stack) NoTexture.
Proof. split; [reflexivity|]. intros N. now elim N. Qed.

Lemma renderThread_resources (stack : KVMGFXHeader) (st : KVMGFXState)
  (ps : list Pass) :
  exists s,
    tex_run NoTexture (fst (renderThread L MAGIC stack st ps)) = Some s /\
    match snd (renderThread L MAGIC stack st ps) with
    | Ok (Returned _ _) => s = NoTexture
    | Ok Waiting => True
    | Fault e => memory_fault e = true
    end.
Proof.
  unfold renderThread.
  destruct (render_loop_resources ps st (render_init stack) NoTexture
              (render_init_consistent stack)) as (s1 & T & R).
  destruct (render_loop L MAGIC st (render_init stack) ps)
    as [t [[[[st' loc'] rest]|]|e]]; cbn [fst snd] in *.
  - rewrite bind_pair, bind_emit. cbn [fst snd]. exists NoTexture.
    rewrite tex_run_app, T. destruct R as (-> & _).
    unfold held. now destruct (texture loc').
  - exists s1. rewrite bind_pair. cbn. now rewrite app_nil_r.
  - exists s1. now split.
Qed.

Lemma main_render_resources (calls : nat) :
  forall (stack : KVMGFXHeader) (st : KVMGFXState) (ps : list Pass),
  exists s,
    tex_run NoTexture (fst (main_render L MAGIC calls stack st ps))
    = Some s /\
    match snd (main_render L MAGIC calls stack st ps) with
    | Ok (Returned _ _) => s = NoTexture
    | Ok Waiting => True
    | Fault e => memory_fault e = true
    end.
Proof.
  induction calls as [|calls IH]; intros stack st ps; cbn [main_render];
    destruct (running st); try (exists NoTexture; now split).
  destruct (renderThread_resources stack st ps) as (s1 & T & R).
  destruct (renderThread L MAGIC stack st ps) as [t [[st' rest|]|e]];
    cbn [fst snd] in *.
  - subst s1. rewrite bind_pair. cbn [fst snd]. rewrite tex_run_app, T.
    apply IH.
  - exists s1. rewrite bind_pair. cbn. now rewrite app_nil_r.
  - exists s1. now split.
Qed.

(** X5.  The render thread neither leaks a texture nor releases one
    twice, whether [SDL_CreateTexture] succeeds or fails: it creates a
    texture only while it holds none, the lock call follows the creation
    directly, [SDL_DestroyTexture] is given a texture exactly when one is
    held and NULL only when none is, and when [renderThread] returns
    nothing is held; this holds over the repeated calls from [main].
    The result of [SDL_CreateTexture] is not checked: after a creation
    that failed the pass goes on to the presenter, which gets NULL for
    the texture and no memory to decode into. *)
Theorem render_textures_balanced (calls : nat) (stack : KVMGFXHeader)
  (st : KVMGFXState) (ps : list Pass) :
  (exists s,
      tex_run NoTexture (fst (renderThread L MAGIC stack st ps)) = Some s /\
      (forall st' rest,
          snd (renderThread L MAGIC stack st ps) = Ok (Returned st' rest) ->
          s = NoTexture)) /\
  (exists s,
      tex_run NoTexture (fst (main_render L MAGIC calls stack st ps))
      = Some s /\
      (forall st' rest,
          snd (main_render L MAGIC calls stack st ps)
          = Ok (Returned st' rest) ->
          s = NoTexture)) /\
  (forall (st0 : KVMGFXState) (loc : RenderLocals) (p : Pass),
      areFormatsSame (format loc) (shm p) = false ->
      recognized (shm p) = true ->
      texture_created p = false ->
      exists fmt df cf,
        fst (process_frame L st0 loc p)
        = destroy_calls loc
            ++ [SDL_SetWindowSize (width (shm p)) (height (shm p));
                SDL_SetWindowPosition_CENTERED;
                SDL_CreateTexture fmt (width (shm p)) (height (shm p));
                SDL_LockTexture_NULL; glDisable_COLOR_LOGIC_OP]
            ++ fst (call_drawFunc L (Some df) (Some cf) (shm p) []
                      (payload p)) /\
        forall st' loc',
          snd (process_frame L st0 loc p) = Ok (PassContinue st' loc') ->
          texture loc' = None /\ started st' = true /\
          areFormatsSame (format loc') (shm p) = true).
Proof.
  split; [|split].
  - destruct (renderThread_resources stack st ps) as (s & T & R).
    exists s. split; [exact T|]. intros st' rest E.
    now rewrite E in R.
  - destruct (main_render_resources calls stack st ps) as (s & T & R).
    exists s. split; [exact T|]. intros st' rest E.
    now rewrite E in R.
  - intros st0 loc p E R C.
    destruct (negotiate_recognized st0 loc p E R)
      as (fmt & df & cf & Sd & _ & N).
    exists fmt, df, cf. unfold process_frame. rewrite N, C.
    rewrite bind_pair, bind_emit, bind_ret_map.
    cbn [fst snd running started windowChanged format texture texPixels
           drawFunc compFunc].
    rewrite <- app_assoc. split; [reflexivity|].
    intros st' loc' H.
    destruct (snd (call_drawFunc L (Some df) (Some cf) (shm p) []
                     (payload p))); [|discriminate].
    injection H as <- <-. cbn [texture started format].
    repeat split. apply areFormatsSame_iff.
    assert (V : frameType (shm p) <> FRAME_TYPE_INVALID).
    { intros V. rewrite V in Sd. discriminate. }
    now repeat split.
Qed.

(** X6.  Whatever the headers, payloads and interrupts, the render
    thread never calls [drawFunc] or [compFunc] while the pointer is
    NULL: a run can only stop on a read or a write outside a buffer. *)
Theorem render_never_calls_null (calls : nat) (stack : KVMGFXHeader)
  (st : KVMGFXState) (ps : list Pass) :
  snd (renderThread L MAGIC stack st ps) <> Fault NullCall /\
  snd (main_render L MAGIC calls stack st ps) <> Fault NullCall.
Proof.
  split.
  - destruct (renderThread_resources stack st ps) as (s & _ & R).
    intros E. rewrite E in R. discriminate.
  - destruct (main_render_resources calls stack st ps) as (s & _ & R).
    intros E. rewrite E in R. discriminate.
Qed.

End RenderResources.

(** A frame of width 0 whose texture cannot be created is decoded and
    presented with NULL, pass after pass; the frame that follows gets a
    texture, which the return releases. *)
Lemma failed_creation_is_presented :
  renderThread RLEHeader_packed16 sample_magic sample_stack state_at_launch
    [sample_empty_pass; sample_empty_pass;
     sample_pass FRAME_TYPE_RGB FRAME_COMP_NONE [IVSHMEM_WAIT_RESULT_OK];
     sample_pass FRAME_TYPE_RGB FRAME_COMP_NONE [IVSHMEM_WAIT_RESULT_ERROR]]
  = ([SDL_SetWindowSize 0 1; SDL_SetWindowPosition_CENTERED;
      SDL_CreateTexture SDL_PIXELFORMAT_RGB24 0 1; SDL_LockTexture_NULL;
      glDisable_COLOR_LOGIC_OP; run_compFunc fn_compFunc_NONE 0;
      ivshmem_kick_irq 1; SDL_UnlockTexture; SDL_RenderClear;
      SDL_RenderCopy; SDL_RenderPresent;
      glDisable_COLOR_LOGIC_OP; run_compFunc fn_compFunc_NONE 0;
      ivshmem_kick_irq 1; SDL_UnlockTexture; SDL_RenderClear;
      SDL_RenderCopy; SDL_RenderPresent;
      SDL_SetWindowSize 1 1; SDL_SetWindowPosition_CENTERED;
      SDL_CreateTexture SDL_PIXELFORMAT_RGB24 1 1; SDL_LockTexture;
      glDisable_COLOR_LOGIC_OP; run_compFunc fn_compFunc_NONE 3;
      ivshmem_kick_irq 1; SDL_UnlockTexture; SDL_RenderClear;
      SDL_RenderCopy; SDL_RenderPresent;
      render_DEBUG_ERROR "error during wait for host";
      SDL_DestroyTexture true],
     Ok (Returned {| running := true; started := true;
                     windowChanged := true |} [])) /\
  tex_run NoTexture
    (fst (renderThread RLEHeader_packed16 sample_magic sample_stack
            state_at_launch
            [sample_empty_pass; sample_empty_pass;
             sample_pass FRAME_TYPE_RGB FRAME_COMP_NONE
               [IVSHMEM_WAIT_RESULT_OK];
             sample_pass FRAME_TYPE_RGB FRAME_COMP_NONE
               [IVSHMEM_WAIT_RESULT_ERROR]]))
  = Some NoTexture /\
  renderThread RLEHeader_packed16 sample_magic sample_stack state_at_launch
    [{| shm := sample_header FRAME_TYPE_RGB FRAME_COMP_NONE;
        payload := [x80; x80; x80]; irqs := [IVSHMEM_WAIT_RESULT_OK];
        texture_created := false; fresh_pixels := [] |}]
  = ([SDL_SetWindowSize 1 1; SDL_SetWindowPosition_CENTERED;
      SDL_CreateTexture SDL_PIXELFORMAT_RGB24 1 1; SDL_LockTexture_NULL;
      glDisable_COLOR_LOGIC_OP; run_compFunc fn_compFunc_NONE 3],
     Fault (WriteOutOfBounds 0)).
Proof. repeat split; reflexivity. Qed.

(** ** The shared flags in the render thread *)

Section RenderFlags.

Variable L : RLELayout.
Variable MAGIC : buffer.

Lemma call_drawFunc_ok_calls (f : option DrawFunc) (c : option CompFunc)
  (h : KVMGFXHeader) (dst src : buffer) (d : buffer) :
  snd (call_drawFunc L f c h dst src) = Ok d ->
  existsb is_present (fst (call_drawFunc L f c h dst src)) = true /\
  existsb is_create (fst (call_drawFunc L f c h dst src)) = false.
Proof.
  destruct f as [f|]; [|discriminate].
  destruct c as [c|].
  - pose proof (call_drawFunc_summary L f c h dst src) as (C & _ & _ & S).
    intros E. rewrite E in S. destruct S as (_ & P). now split.
  - destruct f; cbn; try discriminate; intros _; now split.
Qed.

Lemma process_frame_flags (st : KVMGFXState) (loc : RenderLocals)
  (p : Pass) (t : list render_call) (r : pass_res) :
  process_frame L st loc p = (t, Ok r) ->
  exists st' loc',
    r = PassContinue st' loc' /\
    running st' = running st /\
    started st' = started st || existsb is_present t /\
    windowChanged st' = windowChanged st || existsb is_create t.
Proof.
  destruct (process_frame_cases L st loc p)
    as [(E & P)|[(E & loc' & P & I & T)|(E & _ & fmt & df & cf & P)]];
    rewrite P; clear P.
  - destruct (snd (call_drawFunc L (drawFunc loc) (compFunc loc) (shm p)
                     (texPixels loc) (payload p))) as [d|e] eqn:D;
      [|discriminate].
    destruct (call_drawFunc_ok_calls _ _ _ _ _ _ D) as (Hp & Hc).
    intros H. apply pair_equal_spec in H. destruct H as [<- H].
    injection H as <-. do 2 eexists.
    split; [reflexivity|]. cbn [running started windowChanged existsb
                                  is_present is_create orb].
    rewrite Hp, Hc, !orb_true_r, orb_false_r. now repeat split.
  - intros H. injection H as <- <-. exists st, loc'.
    destruct (destroy_calls_quiet loc) as (Hp & Hc).
    rewrite Hp, Hc, !orb_false_r. now repeat split.
  - destruct (snd (call_drawFunc L (Some df) (Some cf) (shm p)
                     (if texture_created p then fresh_pixels p else [])
                     (payload p))) as [d|e] eqn:D;
      [|discriminate].
    destruct (call_drawFunc_ok_calls _ _ _ _ _ _ D) as (Hp & Hc).
    intros H. apply pair_equal_spec in H. destruct H as [<- H].
    injection H as <-. do 2 eexists.
    split; [reflexivity|]. cbn [running started windowChanged].
    rewrite !existsb_app, Hp. cbn [existsb is_present is_create orb].
    rewrite !orb_true_r. now repeat split.
Qed.

Lemma render_pass_flags (st : KVMGFXState) (loc : RenderLocals) (p : Pass)
  (t : list render_call) (r : pass_res) :
  render_pass L MAGIC st loc p = (t, Ok r) ->
  match r with
  | PassContinue st' _ | PassBreak st' _ =>
      running st' = running st /\
      started st' = started st || existsb is_present t /\
      windowChanged st' = windowChanged st || existsb is_create t
  | PassBlocked => True
  end.
Proof.
  unfold render_pass.
  destruct (negb (magic_ok MAGIC (shm p))).
  { intros H. injection H as <- <-. cbn. now rewrite !orb_false_r. }
  destruct (negb (version (shm p) =? 2)).
  { intros H. injection H as <- <-. cbn. now rewrite !orb_false_r. }
  destruct (wait_loop_idle (running st) (guestID (shm p)) (irqs p))
    as (w & Ew & _).
  destruct (wait_loop_calls (running st) (guestID (shm p)) (irqs p))
    as (_ & Pw & Cw).
  destruct (wait_loop (running st) (guestID (shm p)) (irqs p)) as [tw rw].
  cbn [fst snd] in Ew, Pw, Cw. subst rw. rewrite bind_pair.
  assert (F : forall t2 r2,
             process_frame L st loc p = (t2, r2) ->
             (tw ++ t2, r2) = (t, Ok r) ->
             match r with
             | PassContinue st' _ | PassBreak st' _ =>
                 running st' = running st /\
                 started st' = started st || existsb is_present t /\
                 windowChanged st' = windowChanged st || existsb is_create t
             | PassBlocked => True
             end).
  { intros t2 r2 P H. injection H as <- ->.
    destruct (process_frame_flags _ _ _ _ _ P)
      as (st' & loc' & -> & R & S & W).
    rewrite !existsb_app, Pw, Cw. cbn [orb]. now repeat split. }
  destruct w; cbn [fst snd].
  - destruct (process_frame L st loc p) as [t2 r2] eqn:P.
    cbn [fst snd]. now apply F.
  - intros H. injection H as <- <-.
    rewrite !existsb_app, Pw, Cw. cbn. now rewrite !orb_false_r.
  - destruct (process_frame L st loc p) as [t2 r2] eqn:P.
    cbn [fst snd]. now apply F.
  - intros H. now injection H as <- <-.
Qed.

(** X7.  A pass of the render loop never writes [state.running].  It
    sets [state.started] exactly when it presents a frame and
    [state.windowChanged] exactly when it creates a texture, and it never
    clears either flag. *)
Theorem render_pass_writes_flags (st st' : KVMGFXState)
  (loc loc' : RenderLocals) (p : Pass) (t : list render_call) :
  render_pass L MAGIC st loc p = (t, Ok (PassContinue st' loc')) \/
  render_pass L MAGIC st loc p = (t, Ok (PassBreak st' loc')) ->
  running st' = running st /\
  started st' = started st || existsb is_present t /\
  windowChanged st' = windowChanged st || existsb is_create t.
Proof.
  intros [H|H]; exact (render_pass_flags _ _ _ _ _ H).
Qed.

End RenderFlags.

Lemma render_pass_writes_flags_witness :
  running {| running := true; started := true; windowChanged := true |}
  = running state_at_launch /\
  started {| running := true; started := true; windowChanged := true |}
  = started state_at_launch
    || existsb is_present
         [SDL_SetWindowSize 1 1; SDL_SetWindowPosition_CENTERED;
          SDL_CreateTexture SDL_PIXELFORMAT_RGB24 1 1; SDL_LockTexture;
          glDisable_COLOR_LOGIC_OP; run_compFunc fn_compFunc_NONE 3;
          ivshmem_kick_irq 1; SDL_UnlockTexture; SDL_RenderClear;
          SDL_RenderCopy; SDL_RenderPresent] /\
  windowChanged {| running := true; started := true; windowChanged := true |}
  = windowChanged state_at_launch
    || existsb is_create
         [SDL_SetWindowSize 1 1; SDL_SetWindowPosition_CENTERED;
          SDL_CreateTexture SDL_PIXELFORMAT_RGB24 1 1; SDL_LockTexture;
          glDisable_COLOR_LOGIC_OP; run_compFunc fn_compFunc_NONE 3;
          ivshmem_kick_irq 1; SDL_UnlockTexture; SDL_RenderClear;
          SDL_RenderCopy; SDL_RenderPresent].
Proof.
  exact (render_pass_writes_flags RLEHeader_packed16 sample_magic
           state_at_launch _ (render_init sample_stack) _
           (sample_pass FRAME_TYPE_RGB FRAME_COMP_NONE
              [IVSHMEM_WAIT_RESULT_OK])
           _ (or_introl eq_refl)).
Defined.

(** ** The input forwarder *)

Section InputForwarder.

Variable usb_to_ps2 : list Z.

Ltac inv_bind H :=
  let t1 := fresh "t" in
  let a := fresh "a" in
  let t2 := fresh "t" in
  let E1 := fresh "E" in
  let Et := fresh "Et" in
  apply bind_ok_inv in H; destruct H as (t1 & a & t2 & E1 & H & Et).

(** X8.  Once frames have started, a queue of events without the quit
    signal leaves the forwarder in relative mode exactly when the queue
    holds an odd number of first presses of Scroll Lock, if it began in
    absolute mode, and the other way round if it began in relative
    mode. *)
Theorem pointer_mode_follows_toggle_parity (q : list Poll) :
  forall (st : KVMGFXState) (loc : EventLocals) (t : list input_call)
         (st' : KVMGFXState) (loc' : EventLocals),
    started st = true ->
    existsb is_quit q = false ->
    poll_events usb_to_ps2 st loc q = (t, Ok (st', loc')) ->
    serverMode loc' = xorb (toggle_parity q) (serverMode loc).
Proof.
  induction q as [|p q IH]; intros st loc t st' loc' Hs Hq H;
    cbn [poll_events toggle_parity existsb] in *.
  - now injection H as _ _ <-.
  - apply orb_false_iff in Hq. destruct Hq as [Hp Hq].
    inv_bind H.
    destruct (handle_event_mode _ _ _ _ _ _ Hs Hp E)
      as (s1 & l1 & -> & S1 & M1 & _).
    rewrite (IH _ _ _ _ _ S1 Hq H), M1.
    now destruct (is_toggle p), (toggle_parity q), (serverMode loc).
Qed.

(** X9.  The event thread writes the shared flags in one direction
    only: a round of polling clears [state.running] exactly when it
    meets the quit signal, it never touches [state.started], and it never
    sets [state.windowChanged]. *)
Theorem poll_events_writes_flags (q : list Poll) :
  forall (st : KVMGFXState) (loc : EventLocals) (t : list input_call)
         (st' : KVMGFXState) (loc' : EventLocals),
    poll_events usb_to_ps2 st loc q = (t, Ok (st', loc')) ->
    running st' = running st && negb (existsb is_quit q) /\
    started st' = started st /\
    (windowChanged st' = true -> windowChanged st = true).
Proof. exact (poll_events_flags usb_to_ps2 q). Qed.

(** X10.  The first event handled after frames have started is preceded
    by a switch of the remote pointer to absolute mode and a warp of the
    cursor to the position the guest reports; an event that finds
    [state.windowChanged] set is preceded by a warp.  After any handled
    event the thread is initialised and the flag is clear, so neither is
    repeated for the next event. *)
Theorem first_event_synchronises (st : KVMGFXState) (loc : EventLocals)
  (p : Poll) (t : list input_call) (r : event_res) :
  started st = true ->
  is_quit p = false ->
  handle_event usb_to_ps2 st loc p = (t, Ok r) ->
  exists st' loc0 loc' td,
    r = EventContinue st' loc' /\
    windowChanged st' = false /\
    init loc' = true /\
    dispatch usb_to_ps2 loc0 p = (td, Ok loc') /\
    t = (if init loc then []
         else [spice_mouse_mode false;
               SDL_WarpMouseInWindow (mouseX (poll_shm p))
                 (mouseY (poll_shm p))])
          ++ (if windowChanged st
              then [SDL_WarpMouseInWindow (mouseX (poll_shm p))
                      (mouseY (poll_shm p))]
              else [])
          ++ td.
Proof.
  intros Hs Hq H.
  destruct (handle_event_started usb_to_ps2 _ _ _ _ _ Hs Hq H)
    as (st' & loc0 & loc' & td & -> & _ & _ & W & I & _ & D & T).
  exists st', loc0, loc', td.
  destruct (dispatch_mode _ _ _ _ _ D) as (_ & I' & _).
  repeat split; try assumption. congruence.
Qed.

Lemma mapScancode_in_table (sc v : Z) :
  0 <= sc -> nth_error usb_to_ps2 (Z.to_nat sc) = Some v ->
  mapScancode usb_to_ps2 sc
  = if v =? 0
    then ([input_DEBUG_WARN "Unable to map USB scan code" sc], Ok 0)
    else ([], Ok v).
Proof.
  intros H0 Hv.
  assert (Hn : nth_error usb_to_ps2 (Z.to_nat sc) <> None) by congruence.
  apply nth_error_Some in Hn.
  unfold mapScancode, size_t_of_int, usb_to_ps2_entries, table_load.
  destruct (Z.ltb_spec sc 0); [lia|].
  destruct (Z.gtb_spec sc (Z.of_nat (length usb_to_ps2))); [lia|].
  rewrite Hv. unfold lift, bind. now destruct (v =? 0).
Qed.

(** X11.  A press or a release of a key other than Scroll Lock whose
    table entry is [v] is forwarded as one key message with the code [v]
    when [v] is not 0, repeats included, and dropped with one warning
    when [v] is 0; a failed send is logged.  The pointer state is not
    changed. *)
Theorem key_events_forward_table_entry (loc : EventLocals) (sc v : Z) :
  0 <= sc ->
  sc <> SDL_SCANCODE_SCROLLLOCK ->
  nth_error usb_to_ps2 (Z.to_nat sc) = Some v ->
  (forall (p : Poll) (repeat : Z),
      event p = SDL_KEYDOWN sc repeat ->
      dispatch usb_to_ps2 loc p
      = (if v =? 0
         then [input_DEBUG_WARN "Unable to map USB scan code" sc]
         else if spice_ok1 p then [spice_key_down v]
         else [spice_key_down v;
               input_DEBUG_ERROR "SDL_KEYDOWN: failed to send message"],
         Ok loc)) /\
  (forall (p : Poll) (repeat : Z),
      event p = SDL_KEYUP sc repeat ->
      dispatch usb_to_ps2 loc p
      = (if v =? 0
         then [input_DEBUG_WARN "Unable to map USB scan code" sc]
         else if spice_ok1 p then [spice_key_up v]
         else [spice_key_up v;
               input_DEBUG_ERROR "SDL_KEYUP: failed to send message"],
         Ok loc)).
Proof.
  intros H0 Hk Hv. apply Z.eqb_neq in Hk.
  split; intros p rep Hp; unfold dispatch; rewrite Hp, Hk;
    rewrite (mapScancode_in_table sc v H0 Hv);
    destruct (v =? 0) eqn:Ev; try reflexivity;
    rewrite bind_pair; cbn [fst snd app]; rewrite Ev, bind_emit;
    destruct (spice_ok1 p); reflexivity.
Qed.

End InputForwarder.

Lemma pointer_mode_follows_toggle_parity_witness :
  serverMode {| serverMode := true; ev_mouseX := 5; ev_mouseY := 6;
                init := true |}
  = xorb (toggle_parity [sample_poll (SDL_KEYDOWN 71 0);
                         sample_poll (SDL_KEYDOWN 71 1);
                         sample_poll (SDL_MOUSEMOTION 5 6 1 2)])
      (serverMode event_init).
Proof.
  exact (pointer_mode_follows_toggle_parity sample_table
           [sample_poll (SDL_KEYDOWN 71 0); sample_poll (SDL_KEYDOWN 71 1);
            sample_poll (SDL_MOUSEMOTION 5 6 1 2)]
           state_streaming event_init _ state_streaming _
           eq_refl eq_refl eq_refl).
Defined.

Lemma poll_events_writes_flags_witness :
  running {| running := false; started := true; windowChanged := false |}
  = running state_streaming
    && negb (existsb is_quit [sample_poll (SDL_MOUSEWHEEL 1);
                              sample_poll SDL_QUIT;
                              sample_poll (SDL_MOUSEWHEEL 1)]).
Proof.
  exact (proj1
           (poll_events_writes_flags sample_table
              [sample_poll (SDL_MOUSEWHEEL 1); sample_poll SDL_QUIT;
               sample_poll (SDL_MOUSEWHEEL 1)]
              state_streaming event_init _ _
              {| serverMode := false; ev_mouseX := 320; ev_mouseY := 240;
                 init := true |} eq_refl)).
Defined.

Lemma first_event_synchronises_witness :
  exists st' loc0 loc' td,
    EventContinue state_streaming
      {| serverMode := false; ev_mouseX := 320; ev_mouseY := 240;
         init := true |}
    = EventContinue st' loc' /\
    windowChanged st' = false /\
    init loc' = true /\
    dispatch sample_table loc0 (sample_poll (SDL_MOUSEWHEEL 1))
    = (td, Ok loc') /\
    [spice_mouse_mode false; SDL_WarpMouseInWindow 320 240;
     spice_mouse_press 4; spice_mouse_release 4]
    = (if init event_init then []
       else [spice_mouse_mode false;
             SDL_WarpMouseInWindow
               (mouseX (poll_shm (sample_poll (SDL_MOUSEWHEEL 1))))
               (mouseY (poll_shm (sample_poll (SDL_MOUSEWHEEL 1))))])
        ++ (if windowChanged state_streaming
            then [SDL_WarpMouseInWindow
                    (mouseX (poll_shm (sample_poll (SDL_MOUSEWHEEL 1))))
                    (mouseY (poll_shm (sample_poll (SDL_MOUSEWHEEL 1))))]
            else [])
        ++ td.
Proof.
  exact (first_event_synchronises sample_table state_streaming event_init
           (sample_poll (SDL_MOUSEWHEEL 1)) _ _ eq_refl eq_refl eq_refl).
Defined.

Lemma key_events_forward_table_entry_witness :
  dispatch sample_table event_init (sample_poll (SDL_KEYDOWN 1 0))
  = ([spice_key_down 41], Ok event_init).
Proof.
  refine (proj1
            (key_events_forward_table_entry sample_table event_init 1 41
               _ _ eq_refl)
            (sample_poll (SDL_KEYDOWN 1 0)) 0 eq_refl).
  - lia.
  - discriminate.
Defined.

(** ** The message pumps *)

Lemma ivshmemThread_exit (rs : list Pump) :
  forall (st : KVMGFXState) (t : list pump_call) (st' : KVMGFXState),
    ivshmemThread st rs = (t, Some st') ->
    exists k : nat,
      (k <= length rs)%nat /\
      t = repeat ivshmem_process k
            ++ (if running st
                   && negb (existsb stop_requested (firstn k rs))
                then [pump_DEBUG_ERROR "failed to process ivshmem messages"]
                else []) /\
      forallb pump_ok (firstn (k - 1) rs) = true /\
      running st' = false /\
      started st' = started st /\
      windowChanged st' = windowChanged st.
Proof.
  induction rs as [|r rs IH]; intros st t st' H; cbn [ivshmemThread] in H;
    destruct (running st) eqn:Hr;
    try (injection H as <- <-; exists 0%nat; cbn [length];
         repeat split; solve [lia | assumption]);
    try discriminate.
  destruct (pump_ok r) eqn:Ho; cbn [negb] in H.
  - destruct (ivshmemThread (if stop_requested r then clear_running st
                             else st) rs) as [t1 o] eqn:E.
    injection H as <- ->.
    destruct (IH _ _ _ E) as (k & Hk & Ht & Hf & Hrun & Hst & Hwc).
    exists (S k). cbn [length firstn repeat existsb app].
    replace (S k - 1)%nat with k by lia.
    repeat split; try assumption.
    + lia.
    + rewrite Ht. f_equal.
      destruct (stop_requested r); cbn [running clear_running orb negb andb];
        [reflexivity|now rewrite Hr].
    + destruct k; [reflexivity|]. cbn [firstn forallb]. rewrite Ho.
      replace (S k - 1)%nat with k in Hf by lia. exact Hf.
    + rewrite Hst. now destruct (stop_requested r).
    + rewrite Hwc. now destruct (stop_requested r).
  - exists 1%nat. cbn [length firstn repeat existsb app Nat.sub forallb].
    destruct (stop_requested r); cbn [running clear_running] in H;
      [|rewrite Hr in H]; injection H as <- <-;
      cbn [orb negb andb running started windowChanged clear_running];
      repeat split; lia.
Qed.

(** X12.  When [ivshmemThread] returns, [state.running] is false and the
    other flags are as they were.  It has called [ivshmem_process] until
    a call failed or the flag was cleared, every call before the last
    having succeeded, and it logged one error exactly when it was running
    and no other thread had asked it to stop. *)
Theorem ivshmemThread_returns_stopped (st : KVMGFXState) (rs : list Pump)
  (t : list pump_call) (st' : KVMGFXState) :
  ivshmemThread st rs = (t, Some st') ->
  exists k : nat,
    (k <= length rs)%nat /\
    t = repeat ivshmem_process k
          ++ (if running st && negb (existsb stop_requested (firstn k rs))
              then [pump_DEBUG_ERROR "failed to process ivshmem messages"]
              else []) /\
    forallb pump_ok (firstn (k - 1) rs) = true /\
    running st' = false /\
    started st' = started st /\
    windowChanged st' = windowChanged st.
Proof. apply ivshmemThread_exit. Qed.

Lemma ivshmemThread_returns_stopped_witness :
  exists k : nat,
    (k <= 3)%nat /\
    [ivshmem_process; ivshmem_process]
    = repeat ivshmem_process k
        ++ (if running state_streaming
               && negb (existsb stop_requested
                          (firstn k [{| pump_ok := true;
                                        stop_requested := false |};
                                     {| pump_ok := false;
                                        stop_requested := true |};
                                     {| pump_ok := true;
                                        stop_requested := false |}]))
            then [pump_DEBUG_ERROR "failed to process ivshmem messages"]
            else []) /\
    forallb pump_ok
      (firstn (k - 1) [{| pump_ok := true; stop_requested := false |};
                       {| pump_ok := false; stop_requested := true |};
                       {| pump_ok := true; stop_requested := false |}])
    = true /\
    running (clear_running state_streaming) = false /\
    started (clear_running state_streaming) = started state_streaming /\
    windowChanged (clear_running state_streaming)
    = windowChanged state_streaming.
Proof.
  exact (ivshmemThread_returns_stopped state_streaming
           [{| pump_ok := true; stop_requested := false |};
            {| pump_ok := false; stop_requested := true |};
            {| pump_ok := true; stop_requested := false |}]
           _ _ eq_refl).
Defined.

Lemma spice_loop_exit (rs : list Pump) :
  forall (st : KVMGFXState) (t : list pump_call) (st' : KVMGFXState),
    spice_loop st rs = (t, Some st') ->
    exists k : nat,
      (k <= length rs)%nat /\
      t = repeat spice_process k
            ++ (if running st
                   && negb (existsb stop_requested (firstn k rs))
                then [pump_DEBUG_ERROR "failed to process spice messages"]
                else []) /\
      forallb pump_ok (firstn (k - 1) rs) = true /\
      running st' = false /\
      started st' = started st /\
      windowChanged st' = windowChanged st.
Proof.
  induction rs as [|r rs IH]; intros st t st' H; cbn [spice_loop] in H;
    destruct (running st) eqn:Hr;
    try (injection H as <- <-; exists 0%nat; cbn [length];
         repeat split; solve [lia | assumption]);
    try discriminate.
  destruct (pump_ok r) eqn:Ho; cbn [negb] in H.
  - destruct (spice_loop (if stop_requested r then clear_running st
                          else st) rs) as [t1 o] eqn:E.
    injection H as <- ->.
    destruct (IH _ _ _ E) as (k & Hk & Ht & Hf & Hrun & Hst & Hwc).
    exists (S k). cbn [length firstn repeat existsb app].
    replace (S k - 1)%nat with k by lia.
    repeat split; try assumption.
    + lia.
    + rewrite Ht. f_equal.
      destruct (stop_requested r); cbn [running clear_running orb negb andb];
        [reflexivity|now rewrite Hr].
    + destruct k; [reflexivity|]. cbn [firstn forallb]. rewrite Ho.
      replace (S k - 1)%nat with k in Hf by lia. exact Hf.
    + rewrite Hst. now destruct (stop_requested r).
    + rewrite Hwc. now destruct (stop_requested r).
  - exists 1%nat. cbn [length firstn repeat existsb app Nat.sub forallb].
    destruct (stop_requested r); cbn [running clear_running] in H;
      [|rewrite Hr in H]; injection H as <- <-;
      cbn [orb negb andb running started windowChanged clear_running];
      repeat split; lia.
Qed.

(** X13.  [spiceThread] behaves as [ivshmemThread] does, with
    [spice_process], and on every way out of its loop it calls
    [spice_disconnect] once, as its last call. *)
Theorem spiceThread_disconnects_once (st : KVMGFXState) (rs : list Pump)
  (t : list pump_call) (st' : KVMGFXState) :
  spiceThread st rs = (t, Some st') ->
  exists k : nat,
    (k <= length rs)%nat /\
    t = repeat spice_process k
          ++ (if running st && negb (existsb stop_requested (firstn k rs))
              then [pump_DEBUG_ERROR "failed to process spice messages"]
              else [])
          ++ [spice_disconnect] /\
    forallb pump_ok (firstn (k - 1) rs) = true /\
    running st' = false /\
    started st' = started st /\
    windowChanged st' = windowChanged st.
Proof.
  unfold spiceThread.
  destruct (spice_loop st rs) as [t0 [s0|]] eqn:E; [|discriminate].
  intros H. injection H as <- <-.
  destruct (spice_loop_exit _ _ _ _ E) as (k & Hk & Ht & Hf & Hrun & Hst & Hwc).
  exists k. rewrite Ht, <- app_assoc. now repeat split.
Qed.

Lemma spiceThread_disconnects_once_witness :
  exists k : nat,
    (k <= 2)%nat /\
    [spice_process; spice_process;
     pump_DEBUG_ERROR "failed to process spice messages"; spice_disconnect]
    = repeat spice_process k
        ++ (if running state_streaming
               && negb (existsb stop_requested
                          (firstn k [{| pump_ok := true;
                                        stop_requested := false |};
                                     {| pump_ok := false;
                                        stop_requested := false |}]))
            then [pump_DEBUG_ERROR "failed to process spice messages"]
            else [])
        ++ [spice_disconnect] /\
    forallb pump_ok
      (firstn (k - 1) [{| pump_ok := true; stop_requested := false |};
                       {| pump_ok := false; stop_requested := false |}])
    = true /\
    running (clear_running state_streaming) = false /\
    started (clear_running state_streaming) = started state_streaming /\
    windowChanged (clear_running state_streaming)
    = windowChanged state_streaming.
Proof.
  exact (spiceThread_disconnects_once state_streaming
           [{| pump_ok := true; stop_requested := false |};
            {| pump_ok := false; stop_requested := false |}]
           _ _ eq_refl).
Defined.

(** ** Start and shutdown of [main] *)

Lemma main_shutdown_eq (b : Boot) (st : KVMGFXState) (iv sp ev : bool) :
  main_shutdown b st iv sp ev
  = (shutdown_calls b iv sp ev, Ok (Exit 0 (clear_running st))).
Proof.
  unfold main_shutdown, shutdown_calls.
  destruct iv, sp, ev, (cursor_ok b); reflexivity.
Qed.

Lemma shutdown_run_app (b : Boot) (t1 t2 : list main_call) :
  forall s : shutdown_state,
    shutdown_run b s (t1 ++ t2)
    = match shutdown_run b s t1 with
      | Some s' => shutdown_run b s' t2
      | None => None
      end.
Proof.
  induction t1 as [|c t1 IH]; intros s; cbn [shutdown_run app];
    [reflexivity|].
  destruct (shutdown_step b s c); [apply IH|reflexivity].
Qed.

Lemma shutdown_run_quiet (b : Boot) (t : list main_call) :
  forall s : shutdown_state,
    existsb lifecycle_call t = false ->
    stage s <> 2%nat ->
    shutdown_run b s t = Some s.
Proof.
  induction t as [|c t IH]; intros s H Hs; [reflexivity|].
  cbn [existsb] in H. apply orb_false_iff in H. destruct H as [Hc Ht].
  cbn [shutdown_run].
  assert (E : shutdown_step b s c = Some s).
  { unfold shutdown_step.
    destruct (stage s) as [|[|[|n]]]; [| |congruence|];
      destruct c; try reflexivity; discriminate. }
  rewrite E. now apply IH.
Qed.

Lemma handshake_quiet (hs : list Handshake) (st : KVMGFXState) :
  existsb lifecycle_call (fst (handshake st hs)) = false
  /\ existsb is_render (fst (handshake st hs)) = false.
Proof.
  induction hs as [|[|ok] hs IH]; cbn [handshake];
    destruct (running st); try (split; reflexivity).
  rewrite !bind_emit. cbn [fst existsb lifecycle_call is_render orb].
  destruct ok; cbn [negb]; [exact IH|split; reflexivity].
Qed.

Lemma in_main_quiet {A : Type} (m : M render_call A) :
  existsb lifecycle_call (fst (in_main m)) = false.
Proof.
  unfold in_main. cbn [fst]. induction (fst m) as [|c t IH];
    [reflexivity|exact IH].
Qed.

Section MainLifecycle.

Variable L : RLELayout.
Variable MAGIC : buffer.

Lemma main_init_failure (b : Boot) :
  init_ok b = false ->
  main L MAGIC b
  = (if negb (sdl_init_ok b)
     then [SDL_Init; main_DEBUG_ERROR "SDL_Init Failed"]
     else if negb (window_ok b)
     then [SDL_Init; SDL_CreateWindow;
           main_DEBUG_ERROR "failed to create window"]
     else startup_calls ++ [main_DEBUG_ERROR "failed to create window"],
     Ok (Exit (-1) state_at_launch)).
Proof.
  unfold init_ok, main. intros H.
  destruct (sdl_init_ok b); [|reflexivity].
  destruct (window_ok b); [|reflexivity].
  destruct (renderer_ok b); [discriminate|reflexivity].
Qed.

Lemma main_started (b : Boot) :
  init_ok b = true ->
  main L MAGIC b
  = (let rest :=
       emit ivshmem_connect ;;;
       if negb (ivshmem_connect_ok b) then
         emit (main_DEBUG_ERROR "failed to connect to the ivshmem server") ;;;
         main_shutdown b state_at_launch false false false
       else
       emit (SDL_CreateThread the_ivshmemThread) ;;;
       if negb (t_ivshmem_ok b) then
         emit (main_DEBUG_ERROR "ivshmem create thread failed") ;;;
         main_shutdown b state_at_launch false false false
       else
       emit ivshmem_get_map ;;;
       if negb (map_ok b) then
         emit (main_DEBUG_ERROR "Failed to map memory") ;;;
         main_shutdown b state_at_launch true false false
       else
       emit ivshmem_get_id ;;;
       emit (set_hostID (local_id b)) ;;;
       emit spice_connect ;;;
       if negb (spice_connect_ok b) then
         emit (main_DEBUG_ERROR "Failed to connect to spice server") ;;;
         ret (Exit 0 state_at_launch)
       else
       h <- handshake state_at_launch (handshake_turns b) ;;
       match h with
       | None => ret StillRunning
       | Some st1 =>
           emit (SDL_CreateThread the_spiceThread) ;;;
           if negb (t_spice_ok b) then
             emit (main_DEBUG_ERROR "spice create thread failed") ;;;
             main_shutdown b st1 true false false
           else
           emit (SDL_CreateThread the_eventThread) ;;;
           if negb (t_event_ok b) then
             emit (main_DEBUG_ERROR "gpu create thread failed") ;;;
             main_shutdown b st1 true true false
           else
           r <- in_main (main_render L MAGIC
                           (S (length (render_passes b))) (render_stack b)
                           st1 (render_passes b)) ;;
           match r with
           | Waiting => ret StillRunning
           | Returned st2 _ => main_shutdown b st2 true true true
           end
       end in
     (startup_calls ++ fst rest, snd rest)).
Proof.
  unfold init_ok, main. intros H.
  destruct (sdl_init_ok b); [|discriminate].
  destruct (window_ok b); [|discriminate].
  destruct (renderer_ok b); [|discriminate].
  cbn [negb]. rewrite !bind_emit. reflexivity.
Qed.

Lemma handshake_ready (k : nat) (rest : list Handshake) (st : KVMGFXState) :
  running st = true ->
  handshake st (repeat (HsProcess true) k ++ HsReady :: rest)
  = (handshake_calls k ++ [spice_ready], Ok (Some st)).
Proof.
  intros Hr. induction k as [|k IH]; cbn [repeat app handshake]; rewrite Hr.
  - reflexivity.
  - rewrite !bind_emit. cbn [negb]. rewrite IH. reflexivity.
Qed.

Lemma handshake_failed (k : nat) (rest : list Handshake) (st : KVMGFXState) :
  running st = true ->
  handshake st (repeat (HsProcess true) k ++ HsProcess false :: rest)
  = (handshake_calls k
       ++ [spice_ready; main_spice_process;
           main_DEBUG_ERROR "Failed to process spice messages"],
     Ok (Some (clear_running st))).
Proof.
  intros Hr. induction k as [|k IH]; cbn [repeat app handshake]; rewrite Hr.
  - reflexivity.
  - rewrite !bind_emit. cbn [negb]. rewrite IH. reflexivity.
Qed.

Lemma handshake_inv (hs : list Handshake) (st st1 : KVMGFXState)
  (th : list main_call) :
  running st = true ->
  handshake st hs = (th, Ok (Some st1)) ->
  running st1 = true ->
  exists (k : nat) (rest : list Handshake),
    hs = repeat (HsProcess true) k ++ HsReady :: rest /\ st1 = st.
Proof.
  intros Hr. revert th.
  induction hs as [|[|ok] hs IH]; intros th H H1; cbn [handshake] in H;
    rewrite Hr in H.
  - discriminate.
  - rewrite bind_emit in H. injection H as _ <-. now exists 0%nat, hs.
  - rewrite !bind_emit in H. destruct ok; cbn [negb] in H.
    + cbn [fst snd] in H.
      destruct (handshake st hs) as [t0 r0] eqn:E. cbn [fst snd] in H.
      injection H as _ ->.
      destruct (IH _ eq_refl H1) as (k & rest & -> & ->).
      now exists (S k), rest.
    + injection H as _ <-. discriminate.
Qed.

Lemma handshake_total (hs : list Handshake) (st : KVMGFXState) :
  exists o : option KVMGFXState, snd (handshake st hs) = Ok o.
Proof.
  induction hs as [|[|ok] hs IH]; cbn [handshake]; destruct (running st);
    try (eexists; reflexivity).
  rewrite !bind_emit. cbn [snd]. destruct ok; cbn [negb];
    [exact IH|eexists; reflexivity].
Qed.

Lemma main_render_stopped (n : nat) (stack : KVMGFXHeader)
  (st : KVMGFXState) (ps : list Pass) :
  running st = false ->
  main_render L MAGIC n stack st ps = ([], Ok (Returned st ps)).
Proof. intros H. destruct n; cbn [main_render]; now rewrite H. Qed.

(** X14.  When [main] returns, its exit code is -1 exactly when
    [SDL_Init] or the creation of the window or the renderer failed; it
    has then made only start-up calls (no [SDL_Quit], no window or
    renderer destroyed) and [state.running] is still true.  Every other
    return gives 0. *)
Theorem main_exit_code (b : Boot) (t : list main_call) (code : Z)
  (st : KVMGFXState) :
  main L MAGIC b = (t, Ok (Exit code st)) ->
  if init_ok b then code = 0
  else code = -1 /\ st = state_at_launch /\ forallb startup_call t = true.
Proof.
  destruct (init_ok b) eqn:Hi.
  - rewrite (main_started b Hi). cbv zeta. intros H.
    apply pair_equal_spec in H. destruct H as [_ H]. revert H.
    rewrite ?bind_emit. cbn [snd].
    destruct (ivshmem_connect_ok b); cbn [negb];
      [|rewrite ?bind_emit, ?main_shutdown_eq; cbn [snd]; congruence].
    rewrite ?bind_emit. cbn [snd].
    destruct (t_ivshmem_ok b); cbn [negb];
      [|rewrite ?bind_emit, ?main_shutdown_eq; cbn [snd]; congruence].
    rewrite ?bind_emit. cbn [snd].
    destruct (map_ok b); cbn [negb];
      [|rewrite ?bind_emit, ?main_shutdown_eq; cbn [snd]; congruence].
    rewrite ?bind_emit. cbn [snd].
    destruct (spice_connect_ok b); cbn [negb];
      [|rewrite ?bind_emit; cbn [snd ret]; congruence].
    destruct (handshake state_at_launch (handshake_turns b))
      as [th [[st1|]|e]]; [| |discriminate].
    + rewrite bind_pair, ?bind_emit. cbn [snd].
      destruct (t_spice_ok b); cbn [negb];
        [|rewrite ?bind_emit, ?main_shutdown_eq; cbn [snd]; congruence].
      rewrite ?bind_emit. cbn [snd].
      destruct (t_event_ok b); cbn [negb];
        [|rewrite ?bind_emit, ?main_shutdown_eq; cbn [snd]; congruence].
      unfold in_main.
      destruct (main_render L MAGIC _ _ st1 _) as [tr [[st2 rest|]|e]];
        cbn [fst snd]; [| |discriminate].
      * rewrite bind_pair, main_shutdown_eq. cbn [snd]. congruence.
      * rewrite bind_pair. cbn [snd ret]. discriminate.
    + rewrite bind_pair. cbn [snd ret]. discriminate.
  - rewrite (main_init_failure b Hi). intros H.
    apply pair_equal_spec in H. destruct H as [<- H].
    injection H as <- <-. repeat split.
    destruct (sdl_init_ok b), (window_ok b); reflexivity.
Qed.

(** X15.  When [spice_connect] fails, [main] returns 0 at once: it has
    created the ivshmem thread and never joins it, it neither
    disconnects the transport nor destroys the window nor calls
    [SDL_Quit], and [state.running] is still true. *)
Theorem main_spice_connect_failure_skips_shutdown (b : Boot) :
  init_ok b = true ->
  transport_ok b = true ->
  spice_connect_ok b = false ->
  main L MAGIC b
  = (startup_calls ++ connect_calls b
       ++ [main_DEBUG_ERROR "Failed to connect to spice server"],
     Ok (Exit 0 state_at_launch))
  /\ shutdown_run b no_threads (fst (main L MAGIC b))
     = Some {| held_ivshmem := true; held_spice := false;
               held_event := false; stage := 0 |}.
Proof.
  intros Hi Ht Hs. rewrite (main_started b Hi). cbv zeta.
  unfold transport_ok in Ht.
  apply andb_prop in Ht. destruct Ht as [Ht Hm].
  apply andb_prop in Ht. destruct Ht as [Hc Ht].
  rewrite Hc, Ht, Hm, Hs. cbn [negb]. rewrite !bind_emit.
  cbn [fst snd ret]. split; [reflexivity|].
  cbn [startup_calls app shutdown_run shutdown_step stage no_threads
       thread_ok held_ivshmem held_spice held_event].
  rewrite Ht. reflexivity.
Qed.

Lemma shutdown_calls_run (b : Boot) (iv sp ev : bool) :
  exists s : shutdown_state,
    shutdown_run b {| held_ivshmem := iv; held_spice := sp;
                      held_event := ev; stage := 0 |}
      (shutdown_calls b iv sp ev) = Some s
    /\ stage s = 2%nat.
Proof.
  unfold shutdown_calls.
  destruct iv, sp, ev, (cursor_ok b); eexists; split; reflexivity.
Qed.

Lemma shutdown_run_cons (b : Boot) (s : shutdown_state) (c : main_call)
  (t : list main_call) :
  shutdown_run b s (c :: t)
  = match shutdown_step b s c with
    | Some s' => shutdown_run b s' t
    | None => None
    end.
Proof. reflexivity. Qed.

Ltac shutdown_steps :=
  unfold no_threads;
  repeat (rewrite shutdown_run_cons;
          cbn [shutdown_step stage thread_ok held_ivshmem held_spice
               held_event];
          repeat match goal with
                 | H : _ = true |- _ => rewrite H
                 | H : _ = false |- _ => rewrite H
                 end).

Ltac shutdown_end b :=
  match goal with
  | |- context [shutdown_run b
                  {| held_ivshmem := ?iv; held_spice := ?sp;
                     held_event := ?ev; stage := 0 |}
                  (shutdown_calls b ?iv ?sp ?ev)] =>
      let s := fresh "s" in
      let Hs := fresh "Hs" in
      let H2 := fresh "H2" in
      destruct (shutdown_calls_run b iv sp ev) as (s & Hs & H2);
      exists s; split;
      [exact Hs
      |split; [intros _; eexists; split; reflexivity|intros _; exact H2]]
  end.

Ltac shutdown_leaf b :=
  rewrite ?bind_emit, ?main_shutdown_eq; cbn [fst snd];
  shutdown_steps; shutdown_end b.

(** X16.  On every path through [main], a thread is joined only if its
    creation succeeded, the event thread is joined before
    [ivshmem_disconnect], the ivshmem and spice threads after it, and
    [SDL_Quit] comes last, when no created thread is left unjoined.
    [SDL_Quit] is reached exactly when [main] returns 0 with
    [state.running] cleared. *)
Theorem main_joins_before_quit (b : Boot) :
  exists s : shutdown_state,
    shutdown_run b no_threads (fst (main L MAGIC b)) = Some s /\
    (stage s = 2%nat <->
     exists st : KVMGFXState,
       snd (main L MAGIC b) = Ok (Exit 0 st) /\ running st = false).
Proof.
  destruct (init_ok b) eqn:Hi.
  2:{ rewrite (main_init_failure b Hi). cbn [fst snd].
      exists no_threads. split.
      - apply shutdown_run_quiet; [|discriminate].
        destruct (sdl_init_ok b), (window_ok b); reflexivity.
      - split; [discriminate|]. intros (st & H & _). discriminate. }
  rewrite (main_started b Hi). cbv zeta. cbn [fst snd].
  rewrite shutdown_run_app, (shutdown_run_quiet b startup_calls no_threads)
    by (reflexivity || discriminate).
  rewrite bind_emit. cbn [fst snd].
  destruct (ivshmem_connect_ok b); cbn [negb]; [|shutdown_leaf b].
  rewrite bind_emit. cbn [fst snd].
  destruct (t_ivshmem_ok b) eqn:Hiv; cbn [negb]; [|shutdown_leaf b].
  rewrite bind_emit. cbn [fst snd].
  destruct (map_ok b); cbn [negb]; [|shutdown_leaf b].
  rewrite 3!bind_emit. cbn [fst snd].
  destruct (spice_connect_ok b); cbn [negb].
  2:{ rewrite bind_emit. cbn [fst snd ret]. shutdown_steps.
      eexists; split; [reflexivity|]. cbn [stage].
      split; [discriminate|]. intros (st & H & R).
      injection H as <-. discriminate. }
  destruct (handshake_quiet (handshake_turns b) state_at_launch) as [Hq _].
  destruct (handshake state_at_launch (handshake_turns b))
    as [th [[st1|]|e]] eqn:Hh; cbn [fst] in Hq.
  3:{ destruct (handshake_total (handshake_turns b) state_at_launch) as [o Ho].
      rewrite Hh in Ho. discriminate. }
  2:{ rewrite bind_pair. cbn [fst snd ret]. rewrite app_nil_r.
      shutdown_steps. rewrite shutdown_run_quiet by (assumption || discriminate).
      eexists; split; [reflexivity|]. cbn [stage].
      split; [discriminate|]. intros (st & H & _). discriminate. }
  rewrite bind_pair, bind_emit. cbn [fst snd].
  shutdown_steps. rewrite shutdown_run_app, shutdown_run_quiet
    by (assumption || discriminate).
  destruct (t_spice_ok b) eqn:Hsp; cbn [negb]; [|shutdown_leaf b].
  rewrite bind_emit. cbn [fst snd].
  destruct (t_event_ok b) eqn:Hev; cbn [negb]; [|shutdown_leaf b].
  pose proof (in_main_quiet
                (main_render L MAGIC (S (length (render_passes b)))
                   (render_stack b) st1 (render_passes b))) as Hr.
  destruct (in_main _) as [tr [[st2 rest|]|e]]; cbn [fst] in Hr.
  - rewrite bind_pair, main_shutdown_eq. cbn [fst snd].
    shutdown_steps. rewrite shutdown_run_app, shutdown_run_quiet
      by (assumption || discriminate).
    shutdown_end b.
  - rewrite bind_pair. cbn [fst snd ret]. rewrite app_nil_r.
    shutdown_steps. rewrite shutdown_run_quiet
      by (assumption || discriminate).
    eexists; split; [reflexivity|]. cbn [stage].
    split; [discriminate|]. intros (st & H & _). discriminate.
  - rewrite bind_fault. cbn [fst snd].
    shutdown_steps. rewrite shutdown_run_quiet
      by (assumption || discriminate).
    eexists; split; [reflexivity|]. cbn [stage].
    split; [discriminate|]. intros (st & H & _). discriminate.
Qed.

(** X17.  When [spice_process] fails during the handshake, after [k]
    turns that succeeded, [main] clears [state.running] and logs the
    error, yet still creates the spice and event threads; it then makes
    no call of the render loop, joins all three threads in the order of
    the shutdown and returns 0. *)
Theorem main_handshake_failure_renders_nothing (b : Boot) (k : nat)
  (rest : list Handshake) :
  init_ok b = true ->
  transport_ok b = true ->
  spice_connect_ok b = true ->
  handshake_turns b = repeat (HsProcess true) k ++ HsProcess false :: rest ->
  t_spice_ok b = true ->
  t_event_ok b = true ->
  main L MAGIC b
  = (startup_calls ++ connect_calls b ++ handshake_calls k
       ++ [spice_ready; main_spice_process;
           main_DEBUG_ERROR "Failed to process spice messages";
           SDL_CreateThread the_spiceThread;
           SDL_CreateThread the_eventThread]
       ++ shutdown_calls b true true true,
     Ok (Exit 0 (clear_running state_at_launch))).
Proof.
  intros Hi Ht Hs Hh Hsp Hev. rewrite (main_started b Hi). cbv zeta.
  unfold transport_ok in Ht.
  apply andb_prop in Ht. destruct Ht as [Ht Hm].
  apply andb_prop in Ht. destruct Ht as [Hc Ht].
  rewrite Hc, Ht, Hm, Hs, Hh, Hsp, Hev. cbn [negb].
  rewrite handshake_failed by reflexivity.
  rewrite !bind_emit, bind_pair. cbn beta iota.
  rewrite main_render_stopped by reflexivity.
  unfold in_main. cbn [fst snd map].
  rewrite !bind_emit, bind_pair, main_shutdown_eq.
  cbn [fst snd app connect_calls]. rewrite <- !app_assoc. reflexivity.
Qed.

Lemma shutdown_calls_no_render (b : Boot) (iv sp ev : bool) :
  existsb is_render (shutdown_calls b iv sp ev) = false.
Proof.
  unfold shutdown_calls. destruct iv, sp, ev, (cursor_ok b); reflexivity.
Qed.

Ltac no_render_leaf :=
  rewrite ?bind_emit, ?main_shutdown_eq; cbn [fst snd ret];
  let H := fresh "H" in
  intros H; exfalso; revert H;
  repeat (rewrite ?existsb_app;
          cbn [existsb is_render orb startup_calls app]);
  rewrite ?shutdown_calls_no_render;
  repeat match goal with
         | H : existsb is_render _ = false |- _ => rewrite H
         end;
  cbn [orb]; discriminate.

(** X18.  [main] makes a call of the render loop only when SDL, the
    transport and the input channel were all set up, the handshake
    ended with [spice_ready] answering true, and both the spice and the
    event thread were created; the calls of the render loop then follow
    the creation of the event thread directly and are those of
    [renderThread] started on the launch state. *)
Theorem main_renders_after_setup (b : Boot) :
  existsb is_render (fst (main L MAGIC b)) = true ->
  init_ok b && transport_ok b && spice_connect_ok b && t_spice_ok b
    && t_event_ok b = true
  /\ exists (k : nat) (rest : list Handshake) (post : list main_call),
       handshake_turns b = repeat (HsProcess true) k ++ HsReady :: rest
       /\ existsb is_render post = false
       /\ fst (main L MAGIC b)
          = startup_calls ++ connect_calls b ++ handshake_calls k
              ++ [spice_ready; SDL_CreateThread the_spiceThread;
                  SDL_CreateThread the_eventThread]
              ++ map render
                   (fst (main_render L MAGIC
                           (S (length (render_passes b))) (render_stack b)
                           state_at_launch (render_passes b)))
              ++ post.
Proof.
  destruct (init_ok b) eqn:Hi.
  2:{ rewrite (main_init_failure b Hi). cbn [fst].
      destruct (sdl_init_ok b), (window_ok b); discriminate. }
  rewrite (main_started b Hi). cbv zeta. cbn [fst]. unfold transport_ok.
  rewrite bind_emit. cbn [fst snd].
  destruct (ivshmem_connect_ok b); cbn [negb]; [|no_render_leaf].
  rewrite bind_emit. cbn [fst snd].
  destruct (t_ivshmem_ok b); cbn [negb]; [|no_render_leaf].
  rewrite bind_emit. cbn [fst snd].
  destruct (map_ok b); cbn [negb]; [|no_render_leaf].
  rewrite 3!bind_emit. cbn [fst snd].
  destruct (spice_connect_ok b); cbn [negb]; [|no_render_leaf].
  destruct (handshake_quiet (handshake_turns b) state_at_launch) as [_ Hq].
  destruct (handshake state_at_launch (handshake_turns b))
    as [th [[st1|]|e]] eqn:Hh; cbn [fst] in Hq;
    [|rewrite bind_pair; no_render_leaf|rewrite bind_fault; no_render_leaf].
  rewrite bind_pair, bind_emit. cbn [fst snd].
  destruct (t_spice_ok b); cbn [negb]; [|no_render_leaf].
  rewrite bind_emit. cbn [fst snd].
  destruct (t_event_ok b); cbn [negb]; [|no_render_leaf].
  destruct (running st1) eqn:Hr.
  2:{ rewrite main_render_stopped by assumption. unfold in_main.
      cbn [fst snd map]. rewrite bind_pair. no_render_leaf. }
  destruct (handshake_inv (handshake_turns b) state_at_launch st1 th eq_refl
              Hh Hr) as (k & rest & Hk & ->).
  rewrite Hk, handshake_ready in Hh by reflexivity.
  injection Hh as <-. intros _. split; [reflexivity|].
  exists k, rest. unfold in_main, connect_calls.
  destruct (main_render L MAGIC _ _ state_at_launch _)
    as [tr [[st2 r2|]|e]]; cbn [fst snd].
  - exists (shutdown_calls b true true true).
    rewrite bind_pair, main_shutdown_eq. cbn [fst snd app].
    rewrite <- !app_assoc.
    repeat split; [assumption|apply shutdown_calls_no_render].
  - exists []. rewrite bind_pair. cbn [fst snd ret app].
    rewrite <- !app_assoc. repeat split. assumption.
  - exists []. rewrite bind_fault. cbn [fst snd app].
    rewrite <- !app_assoc, app_nil_r. repeat split. assumption.
Qed.

End MainLifecycle.

Lemma main_exit_code_witness :
  -1 = -1 /\ state_at_launch = state_at_launch
  /\ forallb startup_call [SDL_Init; main_DEBUG_ERROR "SDL_Init Failed"]
     = true.
Proof.
  exact (main_exit_code RLEHeader_packed16 sample_magic
           (sample_boot false true [] []) _ _ _ eq_refl).
Defined.

Lemma main_spice_connect_failure_skips_shutdown_witness :
  main RLEHeader_packed16 sample_magic (sample_boot true false [] [])
  = (startup_calls ++ connect_calls (sample_boot true false [] [])
       ++ [main_DEBUG_ERROR "Failed to connect to spice server"],
     Ok (Exit 0 state_at_launch))
  /\ shutdown_run (sample_boot true false [] []) no_threads
       (fst (main RLEHeader_packed16 sample_magic
               (sample_boot true false [] [])))
     = Some {| held_ivshmem := true; held_spice := false;
               held_event := false; stage := 0 |}.
Proof.
  exact (main_spice_connect_failure_skips_shutdown RLEHeader_packed16
           sample_magic (sample_boot true false [] [])
           eq_refl eq_refl eq_refl).
Defined.

Lemma main_handshake_failure_renders_nothing_witness :
  main RLEHeader_packed16 sample_magic
    (sample_boot true true [HsProcess true; HsProcess false] [])
  = (startup_calls
       ++ connect_calls
            (sample_boot true true [HsProcess true; HsProcess false] [])
       ++ handshake_calls 1
       ++ [spice_ready; main_spice_process;
           main_DEBUG_ERROR "Failed to process spice messages";
           SDL_CreateThread the_spiceThread;
           SDL_CreateThread the_eventThread]
       ++ shutdown_calls
            (sample_boot true true [HsProcess true; HsProcess false] [])
            true true true,
     Ok (Exit 0 (clear_running state_at_launch))).
Proof.
  exact (main_handshake_failure_renders_nothing RLEHeader_packed16
           sample_magic
           (sample_boot true true [HsProcess true; HsProcess false] [])
           1 [] eq_refl eq_refl eq_refl eq_refl eq_refl eq_refl).
Defined.

Lemma main_renders_after_setup_witness :
  exists (k : nat) (rest : list Handshake) (post : list main_call),
    [HsProcess true; HsReady] = repeat (HsProcess true) k ++ HsReady :: rest
    /\ existsb is_render post = false
    /\ fst (main RLEHeader_packed16 sample_magic
              (sample_boot true true [HsProcess true; HsReady]
                 [sample_pass FRAME_TYPE_RGB FRAME_COMP_NONE
                    [IVSHMEM_WAIT_RESULT_OK]]))
       = startup_calls
           ++ connect_calls
                (sample_boot true true [HsProcess true; HsReady]
                   [sample_pass FRAME_TYPE_RGB FRAME_COMP_NONE
                      [IVSHMEM_WAIT_RESULT_OK]])
           ++ handshake_calls k
           ++ [spice_ready; SDL_CreateThread the_spiceThread;
               SDL_CreateThread the_eventThread]
           ++ map render
                (fst (main_render RLEHeader_packed16 sample_magic 2
                        sample_stack state_at_launch
                        [sample_pass FRAME_TYPE_RGB FRAME_COMP_NONE
                           [IVSHMEM_WAIT_RESULT_OK]]))
           ++ post.
Proof.
  exact (proj2 (main_renders_after_setup RLEHeader_packed16 sample_magic
                  (sample_boot true true [HsProcess true; HsReady]
                     [sample_pass FRAME_TYPE_RGB FRAME_COMP_NONE
                        [IVSHMEM_WAIT_RESULT_OK]])
                  eq_refl)).
Defined.

(** ** Pointer tracking *)

Lemma wrap_int_small (z : Z) : - 2 ^ 31 <= z < 2 ^ 31 -> wrap_int z = z.
Proof. intros H. unfold wrap_int. rewrite Z.mod_small; lia. Qed.

Section PointerTracking.

Variable usb_to_ps2 : list Z.

Lemma handle_event_motion (st : KVMGFXState) (loc : EventLocals) (p : Poll)
  (x y xr yr : Z) :
  event p = SDL_MOUSEMOTION x y xr yr ->
  started st = true ->
  windowChanged st = false ->
  init loc = true ->
  serverMode loc = false ->
  handle_event usb_to_ps2 st loc p
  = if spice_ok1 p
    then ([spice_mouse_motion (wrap_int (x - ev_mouseX loc))
             (wrap_int (y - ev_mouseY loc))],
          Ok (EventContinue st (at_position loc x y)))
    else ([spice_mouse_motion (wrap_int (x - ev_mouseX loc))
             (wrap_int (y - ev_mouseY loc));
           input_DEBUG_ERROR "SDL_MOUSEMOTION: failed to send message"],
          Ok (EventContinue st loc)).
Proof.
  intros He Hs Hw Hi Hm. unfold handle_event, dispatch.
  rewrite He, Hs, Hw, Hi. cbn [negb]. unfold ret at 1 2.
  rewrite !bind_pair. cbn [fst snd app]. rewrite Hm.
  destruct (spice_ok1 p); reflexivity.
Qed.

Lemma poll_events_motion (q : list Poll) :
  forall (st : KVMGFXState) (loc : EventLocals),
    started st = true ->
    windowChanged st = false ->
    init loc = true ->
    serverMode loc = false ->
    - 2 ^ 30 <= ev_mouseX loc < 2 ^ 30 ->
    - 2 ^ 30 <= ev_mouseY loc < 2 ^ 30 ->
    forallb small_motion q = true ->
    exists (t : list input_call) (loc' : EventLocals),
      poll_events usb_to_ps2 st loc q = (t, Ok (st, loc')) /\
      (ev_mouseX loc', ev_mouseY loc')
      = last_sent q (ev_mouseX loc, ev_mouseY loc) /\
      delivered_motion t
      = (ev_mouseX loc' - ev_mouseX loc, ev_mouseY loc' - ev_mouseY loc) /\
      match t with
      | input_DEBUG_ERROR _ :: _ => False
      | _ => True
      end.
Proof.
  induction q as [|p q IH]; intros st loc Hs Hw Hi Hm Hx Hy Hq.
  - exists [], loc. cbn [poll_events last_sent delivered_motion].
    repeat split. f_equal; lia.
  - cbn [forallb] in Hq. apply andb_prop in Hq. destruct Hq as [Hp Hq].
    unfold small_motion in Hp.
    destruct (event p) as [| | | |x y xr yr| | |] eqn:He; try discriminate.
    apply andb_prop in Hp. destruct Hp as [Hp Hy2].
    apply andb_prop in Hp. destruct Hp as [Hp Hy1].
    apply andb_prop in Hp. destruct Hp as [Hx1 Hx2].
    apply Z.leb_le in Hx1, Hy1. apply Z.ltb_lt in Hx2, Hy2.
    cbn [poll_events last_sent]. rewrite He.
    rewrite (handle_event_motion st loc p x y xr yr He Hs Hw Hi Hm).
    rewrite !wrap_int_small by lia.
    destruct (spice_ok1 p).
    + destruct (IH st (at_position loc x y) Hs Hw Hi Hm)
        as (t1 & loc' & E & P & D & N); try assumption;
        cbn [at_position ev_mouseX ev_mouseY]; try lia.
      cbn [at_position ev_mouseX ev_mouseY] in P, D.
      exists (spice_mouse_motion (x - ev_mouseX loc) (y - ev_mouseY loc)
                :: t1), loc'.
      rewrite bind_pair, E. cbn [fst snd app].
      repeat split; [exact P|].
      cbn [delivered_motion].
      destruct t1 as [|c t1]; [|destruct c; try contradiction];
        rewrite D; cbn [fst snd]; f_equal; lia.
    + destruct (IH st loc Hs Hw Hi Hm Hx Hy Hq)
        as (t1 & loc' & E & P & D & N).
      exists (spice_mouse_motion (x - ev_mouseX loc) (y - ev_mouseY loc)
                :: input_DEBUG_ERROR "SDL_MOUSEMOTION: failed to send message"
                :: t1), loc'.
      rewrite bind_pair, E. cbn [fst snd app].
      repeat split; [exact P|exact D].
Qed.

(** X19.  In absolute mode, over any queue of motion events (failed
    sends included) the relative motions that were sent successfully add
    up to the displacement from the cursor position the thread started
    from to the position of the last event whose send succeeded: a motion
    whose send failed is made up for by the next one, and none is counted
    twice.  The shared flags are not written. *)
Theorem pointer_motion_telescopes (q : list Poll) (st : KVMGFXState)
  (loc : EventLocals) :
  started st = true ->
  windowChanged st = false ->
  init loc = true ->
  serverMode loc = false ->
  - 2 ^ 30 <= ev_mouseX loc < 2 ^ 30 ->
  - 2 ^ 30 <= ev_mouseY loc < 2 ^ 30 ->
  forallb small_motion q = true ->
  exists (t : list input_call) (loc' : EventLocals),
    poll_events usb_to_ps2 st loc q = (t, Ok (st, loc')) /\
    (ev_mouseX loc', ev_mouseY loc')
    = last_sent q (ev_mouseX loc, ev_mouseY loc) /\
    delivered_motion t
    = (fst (last_sent q (ev_mouseX loc, ev_mouseY loc)) - ev_mouseX loc,
       snd (last_sent q (ev_mouseX loc, ev_mouseY loc)) - ev_mouseY loc).
Proof.
  intros Hs Hw Hi Hm Hx Hy Hq.
  destruct (poll_events_motion q st loc Hs Hw Hi Hm Hx Hy Hq)
    as (t & loc' & E & P & D & _).
  exists t, loc'. rewrite <- P. cbn [fst snd]. now repeat split.
Qed.

End PointerTracking.

Lemma pointer_motion_telescopes_witness :
  exists (t : list input_call) (loc' : EventLocals),
    poll_events sample_table state_streaming sample_tracking
      [sample_motion 330 250 true; sample_motion 300 200 false;
       sample_motion 310 260 true; sample_motion 0 0 false]
    = (t, Ok (state_streaming, loc')) /\
    (ev_mouseX loc', ev_mouseY loc') = (310, 260) /\
    delivered_motion t = (310 - 320, 260 - 240).
Proof.
  apply (pointer_motion_telescopes sample_table
           [sample_motion 330 250 true; sample_motion 300 200 false;
            sample_motion 310 260 true; sample_motion 0 0 false]
           state_streaming sample_tracking);
    try reflexivity; cbn [sample_tracking ev_mouseX ev_mouseY]; lia.
Defined.

(** ** Lifetime of the event thread *)

Section EventLifetime.

Variable usb_to_ps2 : list Z.

Lemma event_loop_flags (rounds : list (list Poll)) :
  forall (st : KVMGFXState) (loc : EventLocals) (t : list input_call)
         (st' : KVMGFXState) (loc' : EventLocals),
    event_loop usb_to_ps2 st loc rounds = (t, Ok (Some (st', loc'))) ->
    running st' = false /\
    started st' = started st /\
    (windowChanged st' = true -> windowChanged st = true) /\
    (running st = true -> existsb (existsb is_quit) rounds = true).
Proof.
  induction rounds as [|q rounds IH]; intros st loc t st' loc' H;
    cbn [event_loop] in H; destruct (running st) eqn:Hr;
    try discriminate;
    try (injection H as _ <- _; repeat split;
         solve [assumption | discriminate | tauto]).
  apply bind_ok_inv in H. destruct H as (t1 & [s1 l1] & t2 & E & H & _).
  rewrite bind_emit in H. cbn [fst snd] in H.
  destruct (event_loop usb_to_ps2 s1 l1 rounds) as [t3 r3] eqn:E3.
  cbn [fst snd] in H. injection H as _ ->.
  destruct (poll_events_flags usb_to_ps2 q _ _ _ _ _ E) as (R1 & S1 & W1).
  destruct (IH _ _ _ _ _ E3) as (R & S & W & Q).
  rewrite Hr in R1. cbn [andb] in R1.
  repeat split; [exact R|congruence|tauto|].
  intros _. cbn [existsb].
  destruct (existsb is_quit q); [reflexivity|]. now apply Q.
Qed.

(** X20.  [eventThread] returns only with [state.running] cleared.  It
    never writes [state.started] and never sets [state.windowChanged],
    and when it was started with the flag set and no other thread
    cleared it, one of the polled events was the quit signal.  Its first
    call sets the relative-mode hint. *)
Theorem eventThread_returns_after_quit (st : KVMGFXState)
  (rounds : list (list Poll)) (t : list input_call) (st' : KVMGFXState)
  (loc' : EventLocals) :
  eventThread usb_to_ps2 st rounds = (t, Ok (Some (st', loc'))) ->
  hd_error t = Some SDL_SetHint_MOUSE_RELATIVE_MODE_WARP /\
  running st' = false /\
  started st' = started st /\
  (windowChanged st' = true -> windowChanged st = true) /\
  (running st = true -> existsb (existsb is_quit) rounds = true).
Proof.
  unfold eventThread. rewrite bind_emit. intros H.
  destruct (event_loop usb_to_ps2 st event_init rounds) as [t1 r1] eqn:E.
  cbn [fst snd] in H. injection H as <- ->.
  split; [reflexivity|]. exact (event_loop_flags _ _ _ _ _ _ E).
Qed.

End EventLifetime.

Lemma eventThread_returns_after_quit_witness :
  hd_error [SDL_SetHint_MOUSE_RELATIVE_MODE_WARP;
            spice_mouse_mode false; SDL_WarpMouseInWindow 320 240;
            spice_mouse_press 4; spice_mouse_release 4; usleep 1000;
            usleep 1000]
  = Some SDL_SetHint_MOUSE_RELATIVE_MODE_WARP /\
  running (clear_running state_streaming) = false /\
  started (clear_running state_streaming) = started state_streaming /\
  (windowChanged (clear_running state_streaming) = true ->
   windowChanged state_streaming = true) /\
  (running state_streaming = true ->
   existsb (existsb is_quit)
     [[sample_poll (SDL_MOUSEWHEEL 1)]; [sample_poll SDL_QUIT]] = true).
Proof.
  exact (eventThread_returns_after_quit sample_table state_streaming
           [[sample_poll (SDL_MOUSEWHEEL 1)]; [sample_poll SDL_QUIT]]
           _ _ _ eq_refl).
Defined.
